(** * flame-sample: a shallow embedding of the sampling pipeline

    The development follows the Python sources of [flamebench]:

    - [utils/utils.py]                      ([is_numeric_string]),
    - [data_sampler/oneDflame_setup.py]     ([update_case_parameters]),
    - [data_sampler/oneD_sampler.py]        ([OneDSampler]),
    - [dataset_tools/container.py]          ([Container]).

    Python [float] is IEEE-754 binary64; it is modelled by Rocq's primitive
    [float], whose operations are the correctly rounded binary64 operations.
    A Python [str] is modelled by [string], a sequence of characters with
    code points below 256.  Exceptions are modelled by an error monad: a
    raised exception is [inl], a returned value is [inr].  What [print] and
    [_log] write is not modelled. *)

From Stdlib Require Import ZArith Uint63 Floats Bool List Lia String Ascii.
From Stdlib Require Import Permutation Sorted.
Import ListNotations.

Set Implicit Arguments.

(* ================================================================== *)
(** * The Python runtime: exceptions, numbers, strings                 *)
(* ================================================================== *)

Module Py.

(** The exceptions the modelled code can raise. *)
Inductive exn : Type :=
| ValueError (msg : string)
| FileNotFoundError (path : string)
| UnboundLocalError (var : string)
| ZeroDivisionError (msg : string)
| OverflowError (msg : string)
| IndexError (msg : string)
| AttributeError (msg : string).

Definition result (A : Type) : Type := (exn + A)%type.

Definition ret {A} (a : A) : result A := inr a.
Definition raise {A} (e : exn) : result A := inl e.

Definition bind {A B} (m : result A) (k : A -> result B) : result B :=
  match m with
  | inl e => inl e
  | inr a => k a
  end.

(** [m] raises an exception. *)
Definition raises {A} (m : result A) : Prop := exists e, m = inl e.

End Py.

Notation "x <- m ;; k" := (Py.bind m (fun x => k))
  (at level 61, m at next level, right associativity).
Notation "' pat <- m ;; k" := (Py.bind m (fun x => match x with pat => k end))
  (at level 61, pat pattern, m at next level, right associativity).

Import Py.

(** [[f(a) for a in l]], stopping at the first exception. *)
Fixpoint mapM {A B} (f : A -> result B) (l : list A) : result (list B) :=
  match l with
  | [] => ret []
  | a :: l' => b <- f a ;; bs <- mapM f l' ;; ret (b :: bs)
  end.

(* ------------------------------------------------------------------ *)
(** ** Division of floats                                               *)
(* ------------------------------------------------------------------ *)

Module F64.

Local Open Scope float_scope.

(** Python's [x / y] on floats raises on a zero divisor. *)
Definition truediv (x y : float) : result float :=
  if y =? 0 then raise (ZeroDivisionError "float division by zero")
  else ret (x / y).

End F64.

(* ------------------------------------------------------------------ *)
(** ** Python strings                                                   *)
(* ------------------------------------------------------------------ *)

Module PyStr.

Local Open Scope string_scope.

Definition code (c : ascii) : N := N_of_ascii c.

(** [str.isspace] below code point 256: TAB..CR, FS..US, the blank, NEL
    and the no-break space. *)
Definition isspace (c : ascii) : bool :=
  ((9 <=? code c) && (code c <=? 13) ||
   (28 <=? code c) && (code c <=? 32) ||
   (code c =? 133) || (code c =? 160))%N.

(** The decimal digits below code point 256, those of [\d]. *)
Definition isdigit (c : ascii) : bool :=
  ((48 <=? code c) && (code c <=? 57))%N.

(** [s.lstrip()] *)
Fixpoint lstrip (s : string) : string :=
  match s with
  | String c s' => if isspace c then lstrip s' else s
  | "" => ""
  end.

(** [s.rstrip()] *)
Fixpoint rstrip (s : string) : string :=
  match s with
  | String c s' =>
      match rstrip s' with
      | "" => if isspace c then "" else String c ""
      | r => String c r
      end
  | "" => ""
  end.

(** [s.strip()] *)
Definition strip (s : string) : string := rstrip (lstrip s).

(** [s.split()]: the maximal runs of non-blank characters, in order.
    [word] is the part already read of the run at hand. *)
Fixpoint split_from (word : string) (s : string) : list string :=
  match s with
  | String c s' =>
      if isspace c then
        match word with
        | "" => split_from "" s'
        | _ => word :: split_from "" s'
        end
      else split_from (word ++ String c "") s'
  | "" =>
      match word with
      | "" => []
      | _ => [word]
      end
  end.

Definition split (s : string) : list string := split_from "" s.

(** [sub in s] *)
Fixpoint contains (sub s : string) : bool :=
  prefix sub s ||
  match s with
  | String _ s' => contains sub s'
  | "" => false
  end.

(** [s[:-1]] *)
Fixpoint drop_last (s : string) : string :=
  match s with
  | String c "" => ""
  | String c s' => String c (drop_last s')
  | "" => ""
  end.

(** [l[-1]] *)
Definition last_item (l : list string) : result string :=
  match rev l with
  | x :: _ => ret x
  | [] => raise (IndexError "list index out of range")
  end.

Definition lower (c : ascii) : ascii :=
  if ((65 <=? code c) && (code c <=? 90))%N
  then ascii_of_N (code c + 32) else c.

Fixpoint lowercase (s : string) : string :=
  match s with
  | String c s' => String (lower c) (lowercase s')
  | "" => ""
  end.

(** Every character of [s] satisfies [p]. *)
Fixpoint all_chars (p : ascii -> bool) (s : string) : bool :=
  match s with
  | String c s' => p c && all_chars p s'
  | "" => true
  end.

End PyStr.

(* ------------------------------------------------------------------ *)
(** ** [float(str)]: decimal text to the nearest binary64               *)
(* ------------------------------------------------------------------ *)

Module PyFloat.

Import PyStr.
Local Open Scope string_scope.
Local Open Scope Z_scope.

Definition digit_value (c : ascii) : Z := Z.of_N (code c) - 48.

(** One [digitpart]: [digit (["_"] digit)*].  Returns the accumulated
    value, the number of digits read and the unread rest. *)
Fixpoint digitpart (s : string) (acc : Z) (cnt : Z) : Z * Z * string :=
  match s with
  | String c s' =>
      if isdigit c then digitpart s' (10 * acc + digit_value c) (cnt + 1)
      else if (c =? "_")%char && (0 <? cnt) then
        match s' with
        | String d _ => if isdigit d then digitpart s' acc cnt else (acc, cnt, s)
        | "" => (acc, cnt, s)
        end
      else (acc, cnt, s)
  | "" => (acc, cnt, s)
  end.

(** Optional sign: [true] for a minus. *)
Definition sign (s : string) : bool * string :=
  match s with
  | String c s' =>
      if (c =? "-")%char then (true, s')
      else if (c =? "+")%char then (false, s')
      else (false, s)
  | "" => (false, s)
  end.

(** [exponent ::= ("e" | "E") [sign] digitpart], or nothing. *)
Definition exponent (s : string) : option (Z * string) :=
  match s with
  | String c s' =>
      if (c =? "e")%char || (c =? "E")%char then
        let '(neg, s'') := sign s' in
        let '(v, cnt, rest) := digitpart s'' 0 0 in
        if 0 <? cnt then Some (if neg then - v else v, rest) else None
      else Some (0, s)
  | "" => Some (0, s)
  end.

(** [number [exponent]] as a decimal [m * 10^e], when the whole text is
    one. *)
Definition floatnumber (s : string) : option (Z * Z) :=
  let '(ip, icnt, s1) := digitpart s 0 0 in
  let '(m, fcnt, s2) :=
    match s1 with
    | String c s1' =>
        if (c =? ".")%char then digitpart s1' ip 0 else (ip, 0, s1)
    | "" => (ip, 0, s1)
    end in
  if 0 <? icnt + fcnt then
    match exponent s2 with
    | Some (e, "") => Some (m, e - fcnt)
    | _ => None
    end
  else None.

(** The binary64 nearest to [(-1)^neg * m * 10^e] (ties to even). *)
Definition round_decimal (neg : bool) (m e : Z) : spec_float :=
  match m with
  | Zpos p =>
      if 0 <=? e then binary_round prec emax neg (p * Z.to_pos (10 ^ e)) 0
      else SF64div (S754_finite neg p 0)
                   (S754_finite false (Z.to_pos (10 ^ (- e))) 0)
  | _ => S754_zero neg
  end.

Definition could_not_convert {A} (s : string) : result A :=
  raise (ValueError ("could not convert string to float: " ++ s)).

(** [float(s)]. *)
Definition float_of_string (s : string) : result float :=
  let '(neg, body) := sign (strip s) in
  let word := lowercase body in
  if (word =? "inf")%string || (word =? "infinity")%string then
    ret (if neg then neg_infinity else infinity)
  else if (word =? "nan")%string then ret nan
  else
    match floatnumber body with
    | Some (m, e) => ret (SF2Prim (round_decimal neg m e))
    | None => could_not_convert s
    end.

End PyFloat.

(* ------------------------------------------------------------------ *)
(** ** Regular expressions ([re.match]) by derivatives                  *)
(* ------------------------------------------------------------------ *)

Module Re.

Local Open Scope string_scope.

Inductive regex : Type :=
| Void
| Eps
| Class (p : ascii -> bool)
| Cat (r1 r2 : regex)
| Alt (r1 r2 : regex)
| Star (r : regex).

Definition Opt (r : regex) : regex := Alt r Eps.
Definition Plus (r : regex) : regex := Cat r (Star r).
Definition OneOf (cs : list ascii) : regex :=
  Class (fun c => existsb (Ascii.eqb c) cs).

Fixpoint nullable (r : regex) : bool :=
  match r with
  | Void => false
  | Eps => true
  | Class _ => false
  | Cat r1 r2 => nullable r1 && nullable r2
  | Alt r1 r2 => nullable r1 || nullable r2
  | Star _ => true
  end.

Fixpoint deriv (c : ascii) (r : regex) : regex :=
  match r with
  | Void => Void
  | Eps => Void
  | Class p => if p c then Eps else Void
  | Cat r1 r2 =>
      if nullable r1 then Alt (Cat (deriv c r1) r2) (deriv c r2)
      else Cat (deriv c r1) r2
  | Alt r1 r2 => Alt (deriv c r1) (deriv c r2)
  | Star r' => Cat (deriv c r') (Star r')
  end.

(** The whole of [s] is a word of [r]. *)
Fixpoint fullmatch (r : regex) (s : string) : bool :=
  match s with
  | String c s' => fullmatch (deriv c r) s'
  | "" => nullable r
  end.

Definition newline : ascii := ascii_of_nat 10.

(** [re.match("^" r "$", s)] is not [None]: without the MULTILINE flag
    [$] holds at the end of [s] and just before a final newline. *)
Definition match_anchored (r : regex) (s : string) : bool :=
  fullmatch r s || fullmatch (Cat r (Class (Ascii.eqb newline))) s.

End Re.

(* ================================================================== *)
(** * utils/utils.py                                                    *)
(* ================================================================== *)

Module utils.

Import Re.
Local Open Scope char_scope.

(** The class of the digits: of the characters a string of the model
    holds, those with code points below 256, the pattern's digits are
    [0] to [9]. *)
Definition digit : regex := Class PyStr.isdigit.

(** The pattern between its anchors, written with blanks between the
    tokens:  [-+]? ( \d+ ( \. \d* )? | \. \d+ ) ( [eE] [-+]? \d+ )?  *)
Definition pattern : regex :=
  Cat (Opt (OneOf ["-"; "+"]))
 (Cat (Alt (Cat (Plus digit) (Opt (Cat (OneOf ["."]) (Star digit))))
           (Cat (OneOf ["."]) (Plus digit)))
      (Opt (Cat (OneOf ["e"; "E"])
           (Cat (Opt (OneOf ["-"; "+"])) (Plus digit))))).

Definition is_numeric_string (input_string : string) : bool :=
  if match_anchored pattern input_string then true else false.

End utils.

(* ================================================================== *)
(** * data_sampler/oneDflame_setup.py                                   *)
(* ================================================================== *)

Module oneDflame_setup.

Local Open Scope string_scope.
Local Open Scope float_scope.

(** Values of the YAML [gas_state] mapping. *)
Inductive yaml_value : Type :=
| YStr (s : string)
| YNum (x : float).

Definition gas_state : Type := list (string * yaml_value).

(** The dictionary built by [update_case_parameters], key by key. *)
Record case_params : Type := {
  mechanism_path : string;
  cp_gas_state : gas_state;
  flame_speed : float;
  flame_thickness : float;
  domain_width : float;
  domain_length : float;
  half_domain_length : float;
  target_time_step : float;
  chemical_time_scale : float;
  sample_time_steps : Z;
  estimated_time_step : float;
  estimated_sim_time : float;
  estimated_write_time_step : float
}.

(** [update_case_parameters(mechanism_path, gas_state, flame_speed,
    flame_thickness)].  The arguments carry the types of the docstring
    ([str], [dict], [float], [float]), so of the [isinstance] tests only
    the emptiness test on the path and the two sign tests remain.  The
    [try ... except: print; raise] wrapper re-raises unchanged. *)
Definition update_case_parameters
    (mechanism_path : string) (gas_state : gas_state)
    (flame_speed flame_thickness : float) : result case_params :=
  if (mechanism_path =? "")%string then
    raise (ValueError "Invalid mechanism_path: must be a non-empty string")
  else if flame_speed <=? 0 then
    raise (ValueError "Invalid flame_speed: must be a positive number")
  else if flame_thickness <=? 0 then
    raise (ValueError "Invalid flame_thickness: must be a positive number")
  else
    let domain_width := flame_thickness * 5 in
    let domain_length := domain_width * 10 in
    half_domain_length <- F64.truediv domain_length 2 ;;
    let target_time_step := 0x1.0c6f7a0b5ed8dp-20 (* the double 1e-6 *) in
    chemical_time_scale <- F64.truediv flame_thickness flame_speed ;;
    let sample_time_steps := 100%Z in
    estimated_time_step <- F64.truediv chemical_time_scale 10 ;;
    let estimated_sim_time := estimated_time_step * 100 in
    let estimated_write_time_step := estimated_time_step in
    ret {| mechanism_path := mechanism_path;
           cp_gas_state := gas_state;
           flame_speed := flame_speed;
           flame_thickness := flame_thickness;
           domain_width := domain_width;
           domain_length := domain_length;
           half_domain_length := half_domain_length;
           target_time_step := target_time_step;
           chemical_time_scale := chemical_time_scale;
           sample_time_steps := sample_time_steps;
           estimated_time_step := estimated_time_step;
           estimated_sim_time := estimated_sim_time;
           estimated_write_time_step := estimated_write_time_step |}.

End oneDflame_setup.

(* ================================================================== *)
(** * The numpy operations the sources call                             *)
(* ================================================================== *)

Module np.

Local Open Scope string_scope.

(** An [(N, 1)] array. *)
Definition column : Type := list float.

(** A two-dimensional array of shape [(length rows, ncols)]. *)
Record array2 : Type := { ncols : nat; rows : list (list float) }.

(** [np.ones((n, 1)) * v] *)
Definition ones_times (n : nat) (v : float) : column :=
  repeat (1 * v)%float n.

(** The text of a line before the comment character [#]. *)
Fixpoint uncomment (s : string) : string :=
  match s with
  | String c s' => if (c =? "#")%char then "" else String c (uncomment s')
  | "" => ""
  end.

(** The value [np.loadtxt] reads from a token: that of [float], but
    for the tokens with an underscore, which [float] allows between
    digits and [loadtxt] refuses. *)
Definition loadtxt_float (tok : string) : result float :=
  if PyStr.contains "_" tok then
    raise (ValueError ("could not convert string to float64: " ++ tok))
  else PyFloat.float_of_string tok.

(** The rows read by [np.loadtxt]: blank lines are skipped, the others
    are split at white space and every token converted. *)
Fixpoint loadtxt_rows (lines : list string) : result (list (list float)) :=
  match lines with
  | [] => ret []
  | line :: rest =>
      match PyStr.split (uncomment line) with
      | [] => loadtxt_rows rest
      | toks =>
          row <- mapM loadtxt_float toks ;;
          more <- loadtxt_rows rest ;;
          ret (row :: more)
      end
  end.

Definition same_lengths {A} (n : nat) (l : list (list A)) : bool :=
  forallb (fun r => Nat.eqb (List.length r) n) l.

(** [np.loadtxt(lines).reshape(-1, 1)]: the values in row-major order.
    Rows of different widths are rejected by [loadtxt]. *)
Definition loadtxt_reshape (lines : list string) : result column :=
  rs <- loadtxt_rows lines ;;
  match rs with
  | [] => ret []
  | r :: _ =>
      if same_lengths (List.length r) rs then ret (List.concat rs)
      else raise (ValueError "the number of columns changed")
  end.

Definition no_arrays {A} : result A :=
  raise (ValueError "need at least one array to concatenate").

Definition dimension_mismatch {A} : result A :=
  raise (ValueError
    "all the input array dimensions except for the concatenation axis must match exactly").

(** Row [i] across the columns. *)
Definition row_at (cols : list column) (i : nat) : list float :=
  map (fun c => nth i c 0%float) cols.

(** [np.concatenate(cols, axis=1)] for [(N, 1)] arrays. *)
Definition concatenate_axis1 (cols : list column) : result array2 :=
  match cols with
  | [] => no_arrays
  | c :: _ =>
      if same_lengths (List.length c) cols then
        ret {| ncols := List.length cols;
               rows := map (row_at cols) (seq 0 (List.length c)) |}
      else dimension_mismatch
  end.

(** [np.concatenate(blocks, axis=0)] *)
Definition concatenate_axis0 (blocks : list array2) : result array2 :=
  match blocks with
  | [] => no_arrays
  | b :: _ =>
      if forallb (fun b' => Nat.eqb (ncols b') (ncols b)) blocks then
        ret {| ncols := ncols b; rows := List.concat (map rows blocks) |}
      else dimension_mismatch
  end.

End np.

(* ================================================================== *)
(** * data_sampler/oneD_sampler.py                                      *)
(* ================================================================== *)

Module oneD_sampler.

Import PyStr np.
Local Open Scope string_scope.

(** ** The working directory *)

(** An entry of the working directory: its name, whether it is a
    directory, and for a directory the text files in it as
    [readlines()] returns them. *)
Record dir_entry : Type := {
  name : string;
  is_dir : bool;
  files : list (string * list string)
}.

(** [Path('.').iterdir()], in iteration order. *)
Definition directory : Type := list dir_entry.

Fixpoint lookup (var : string) (fs : list (string * list string))
  : option (list string) :=
  match fs with
  | [] => None
  | (n, ls) :: fs' => if (n =? var)%string then Some ls else lookup var fs'
  end.

(** [open(time_dir / var, 'r').readlines()] *)
Definition readlines (time_dir : dir_entry) (var : string)
  : result (list string) :=
  match lookup var (files time_dir) with
  | Some ls => ret ls
  | None => raise (FileNotFoundError (name time_dir ++ "/" ++ var))
  end.

(** ** [sorted(..., key=...)] *)

(** Insertion behind the items that are smaller: applied from the right
    end of the list this is the stable sort, and it consults the keys
    through [<] only, as [sorted] does. *)
Fixpoint insert_keyed {A} (x : float * A) (l : list (float * A))
  : list (float * A) :=
  match l with
  | [] => [x]
  | y :: l' =>
      if (fst y <? fst x)%float then y :: insert_keyed x l' else x :: l
  end.

Fixpoint sort_keyed {A} (l : list (float * A)) : list (float * A) :=
  match l with
  | [] => []
  | x :: l' => insert_keyed x (sort_keyed l')
  end.

Definition sorted {A} (key : A -> result float) (l : list A)
  : result (list A) :=
  keyed <- mapM (fun a => k <- key a ;; ret (k, a)) l ;;
  ret (map snd (sort_keyed keyed)).

(** The directories of the sampled times:
    [sorted([d for d in Path('.').iterdir()
             if d.is_dir() and is_numeric_string(d.name)],
            key=lambda d: float(d.name))[1:]]. *)
Definition time_dirs (cwd : directory) : result (list dir_entry) :=
  ds <- sorted (fun d => PyFloat.float_of_string (name d))
               (filter (fun d => is_dir d && utils.is_numeric_string (name d))
                       cwd) ;;
  ret (tl ds).

(** ** Reading one field file *)

(** The local variables of [_collect_data] that outlive one field file:
    [data_shape], and [start] and [end], which are unbound until a line
    assigns them. *)
Record locals : Type := {
  data_shape : nat;
  start : option nat;
  end_ : option nat
}.

Definition initial_locals : locals :=
  {| data_shape := 0; start := None; end_ := None |}.

(** The [for i, line in enumerate(lines)] loop from index [i] on.  The
    result is [uniform_value] when the loop left with [uniform_bool] set,
    and the bindings of [start] and [end]. *)
Fixpoint scan_lines (lines : list string) (i : nat) (sample_started : bool)
    (start end_ : option nat)
  : result (option float * option nat * option nat) :=
  match lines with
  | [] => ret (None, start, end_)
  | line :: rest =>
      let sample_started :=
        if contains "internalField" line then true else sample_started in
      if contains " uniform" line && sample_started then
        tok <- last_item (split (strip line)) ;;
        uniform_value <- PyFloat.float_of_string (drop_last tok) ;;
        ret (Some uniform_value, start, end_)
      else
        let start :=
          if contains "(" line && sample_started then Some (i + 1)
          else start in
        if contains ")" line && sample_started then
          ret (None, start, Some i)
        else scan_lines rest (S i) sample_started start end_
  end.

Definition unbound {A} (var : string) : result A :=
  raise (UnboundLocalError var).

(** [lines[start:end]] for bound, non-negative [start] and [end]. *)
Definition slice {A} (l : list A) (start end_ : nat) : list A :=
  firstn (end_ - start) (skipn start l).

(** The body of [for var in sample_dims] after the file is read: the
    array of the field and the locals after it. *)
Definition field_array (lines : list string) (l : locals)
  : result (column * locals) :=
  '(uniform, start', end') <- scan_lines lines 0 false (start l) (end_ l) ;;
  match uniform with
  | Some uniform_value =>
      ret (ones_times (data_shape l) uniform_value,
           {| data_shape := data_shape l; start := start'; end_ := end' |})
  | None =>
      match start', end' with
      | Some s, Some e =>
          dim_array <- loadtxt_reshape (slice lines s e) ;;
          ret (dim_array,
               {| data_shape := List.length dim_array;
                  start := start'; end_ := end' |})
      | None, _ => unbound "start"
      | Some _, None => unbound "end"
      end
  end.

(** [for var in sample_dims: ...; time_arrays.append(dim_array)] *)
Fixpoint time_arrays (time_dir : dir_entry) (sample_dims : list string)
    (l : locals) : result (list column * locals) :=
  match sample_dims with
  | [] => ret ([], l)
  | var :: vars =>
      lines <- readlines time_dir var ;;
      '(dim_array, l1) <- field_array lines l ;;
      '(arrays, l2) <- time_arrays time_dir vars l1 ;;
      ret (dim_array :: arrays, l2)
  end.

(** One turn of [for time_dir in time_dirs]. *)
Definition time_array (time_dir : dir_entry) (sample_dims : list string)
    (l : locals) : result (array2 * locals) :=
  '(arrays, l') <- time_arrays time_dir sample_dims l ;;
  a <- concatenate_axis1 arrays ;;
  ret (a, l').

(** [for time_dir in time_dirs: ...; data_collector.append(time_array)] *)
Fixpoint data_collector (dirs : list dir_entry) (sample_dims : list string)
    (l : locals) : result (list array2) :=
  match dirs with
  | [] => ret []
  | time_dir :: dirs' =>
      '(a, l') <- time_array time_dir sample_dims l ;;
      more <- data_collector dirs' sample_dims l' ;;
      ret (a :: more)
  end.

(** [['T', 'p'] + species_names] *)
Definition sample_dims (species_names : list string) : list string :=
  ["T"; "p"] ++ species_names.

(** The array [_collect_data] assigns to [self.data], from the species of
    the mechanism and the working directory. *)
Definition collect (species_names : list string) (cwd : directory)
  : result array2 :=
  dirs <- time_dirs cwd ;;
  blocks <- data_collector dirs (sample_dims species_names) initial_locals ;;
  concatenate_axis0 blocks.

(** ** The sampler object *)

Record OneDSampler : Type := {
  verbose : bool;
  fuel : string;
  mechanism_path : string;
  mechanism_path_for_cantera : option string;
  data : option array2
}.

(** The state outside the object: the working directory the simulation
    writes to, and the [.npy] files written by [save]. *)
Record world : Type := {
  cwd : directory;
  saved : list (string * array2)
}.

(** [__init__] after [_load_config] has read [fuel] and [mechanism]. *)
Definition init (verbose : bool) (fuel mechanism_path : string)
  : OneDSampler :=
  {| verbose := verbose; fuel := fuel; mechanism_path := mechanism_path;
     mechanism_path_for_cantera := None; data := None |}.

Definition get_data (self : OneDSampler) : result array2 :=
  match data self with
  | None => raise (ValueError "Data not sampled yet. Call sample() first.")
  | Some d => ret d
  end.

(** [os.path.join(output_dir, filename)] for a relative [filename]. *)
Definition path_join (output_dir filename : string) : string :=
  if (output_dir =? "")%string then filename
  else if contains "/" (substring (String.length output_dir - 1) 1 output_dir)
  then output_dir ++ filename
  else output_dir ++ "/" ++ filename.

Section ExternalTools.

(** [cantera.Solution(path).species_names]. *)
Variable species_names : string -> result (list string).

(** What [_run_case_setup] does through Cantera and OpenFOAM: from the
    sampler and the world it yields the mechanism path handed to
    Cantera and the working directory after [Allrun] and
    [reconstructPar]. *)
Variable case_setup : OneDSampler -> world -> result (string * directory).

(** [get_path_from_root("1DFlameRawData")]. *)
Variable raw_data_dir : string.

Definition _run_case_setup (self : OneDSampler) (w : world)
  : result (OneDSampler * world) :=
  '(path, dir) <- case_setup self w ;;
  ret ({| verbose := verbose self; fuel := fuel self;
          mechanism_path := mechanism_path self;
          mechanism_path_for_cantera := Some path;
          data := data self |},
       {| cwd := dir; saved := saved w |}).

Definition _collect_data (self : OneDSampler) (w : world)
  : result OneDSampler :=
  match mechanism_path_for_cantera self with
  | None =>
      raise (AttributeError
        "'OneDSampler' object has no attribute 'mechanism_path_for_cantera'")
  | Some path =>
      names <- species_names path ;;
      d <- collect names (cwd w) ;;
      ret {| verbose := verbose self; fuel := fuel self;
             mechanism_path := mechanism_path self;
             mechanism_path_for_cantera := Some path;
             data := Some d |}
  end.

Definition sample (self : OneDSampler) (w : world)
  : result (OneDSampler * world) :=
  '(self1, w1) <- _run_case_setup self w ;;
  self2 <- _collect_data self1 w1 ;;
  ret (self2, w1).

Definition save (self : OneDSampler) (output_dir : option string)
    (w : world) : result world :=
  match data self with
  | None => raise (ValueError "No data to save. Run `sample()` first.")
  | Some d =>
      let output_dir :=
        match output_dir with
        | Some o => if (o =? "")%string then raw_data_dir else o
        | None => raw_data_dir
        end in
      let filename := fuel self ++ "-1Dflame.npy" in
      let output_path := path_join output_dir filename in
      ret {| cwd := cwd w; saved := (output_path, d) :: saved w |}
  end.

End ExternalTools.

End oneD_sampler.

(* ================================================================== *)
(** * Python numbers: [float(int)], [int(float)], slices                *)
(* ================================================================== *)

Module PyNum.

Local Open Scope Z_scope.

(** [float(z)] for an [int]: the nearest binary64, and [OverflowError]
    beyond the finite range. *)
Definition float_of_int (z : Z) : result float :=
  match binary_normalize prec emax z 0 false with
  | S754_infinity _ =>
      raise (OverflowError "int too large to convert to float")
  | sf => ret (SF2Prim sf)
  end.

(** [int(x)] for a [float]: truncation towards zero. *)
Definition int_of_float (x : float) : result Z :=
  match Prim2SF x with
  | S754_zero _ => ret 0
  | S754_finite s m e =>
      let magnitude := Z.shiftl (Zpos m) e in
      ret (if s then - magnitude else magnitude)
  | S754_infinity _ =>
      raise (OverflowError "cannot convert float infinity to integer")
  | S754_nan => raise (ValueError "cannot convert float NaN to integer")
  end.

(** The position a slice bound [c] denotes in a sequence of length [len]:
    negative bounds count from the end, and bounds are clipped. *)
Definition slice_bound (c : Z) (len : nat) : nat :=
  if c <? 0 then Z.to_nat (Z.max 0 (c + Z.of_nat len))
  else Nat.min (Z.to_nat c) len.

(** [l[:c]] and [l[c:]] *)
Definition slice_to {A} (l : list A) (c : Z) : list A :=
  firstn (slice_bound c (List.length l)) l.

Definition slice_from {A} (l : list A) (c : Z) : list A :=
  skipn (slice_bound c (List.length l)) l.

(** [l[i]] for an integer subscript: negative subscripts count from the
    end, and a subscript outside the sequence raises [IndexError]. *)
Definition subscript {A} (l : list A) (i : Z) : result A :=
  let j := if i <? 0 then i + Z.of_nat (List.length l) else i in
  if j <? 0 then raise (IndexError "index out of bounds")
  else match nth_error l (Z.to_nat j) with
       | Some a => ret a
       | None => raise (IndexError "index out of bounds")
       end.

End PyNum.

(* ================================================================== *)
(** * [np.random]: seeding and [permutation]                            *)
(* ================================================================== *)

Module np_random.

(** The generator behind the global [np.random] state.  [init] is the
    state [np.random.seed] installs for a seed it accepts, and
    [interval g max] draws an integer of [0..max] (numpy's
    [random_interval]) and advances the state. *)
Record generator : Type := {
  state : Type;
  init : Z -> state;
  interval : state -> nat -> nat * state;
  interval_le : forall g max, fst (interval g max) <= max
}.

Section Generator.

Variable G : generator.

(** [np.random.seed(seed)] for an [int]. *)
Definition seed (s : Z) : result (state G) :=
  if ((0 <=? s) && (s <? 2 ^ 32))%Z then ret (init G s)
  else raise (ValueError "Seed must be between 0 and 2**32 - 1").

(** [x[k] = v], for [k] inside the array. *)
Definition assign (x : list nat) (k v : nat) : list nat :=
  firstn k x ++ v :: skipn (S k) x.

(** [x[i], x[j] = x[j], x[i]]: both cells are read, then [x[i]] and
    [x[j]] are written in this order. *)
Definition swap (x : list nat) (i j : nat) : list nat :=
  let xj := nth j x 0 in
  let xi := nth i x 0 in
  assign (assign x i xj) j xi.

(** [for i in reversed(range(1, n)): j = random_interval(i);
     x[i], x[j] = x[j], x[i]], entered with [i] as the largest index
    still to be visited. *)
Fixpoint shuffle_down (i : nat) (x : list nat) (g : state G)
  : list nat * state G :=
  match i with
  | 0 => (x, g)
  | S i' =>
      let '(j, g') := interval G g i in
      shuffle_down i' (swap x i j) g'
  end.

(** [np.random.permutation(n)]: [np.arange(n)], shuffled in place. *)
Definition permutation (n : nat) (g : state G) : list nat * state G :=
  shuffle_down (n - 1) (seq 0 n) g.

End Generator.

End np_random.

(* ================================================================== *)
(** * dataset_tools/container.py                                        *)
(* ================================================================== *)

Module container.

Import PyNum.

Section Container.

(** The element type of the tensor [self.data]. *)
Variable A : Type.

Variable G : np_random.generator.

(** [data] holds the rows of the [(n, m)] tensor, [dataIdx] the access
    index. *)
Record Container : Type := {
  data : list (list A);
  dataIdx : list nat
}.

(** [self.data.shape[0]] *)
Definition shape0 (self : Container) : nat := List.length (data self).

(** [__init__] for a source [load_data] accepts, already converted to a
    tensor: the index is [range(data.shape[0])]. *)
Definition init (tensor : list (list A)) : Container :=
  {| data := tensor; dataIdx := seq 0 (List.length tensor) |}.

Definition train_test_split (self : Container) (split_ratio : float)
  : result (Container * Container) :=
  n <- float_of_int (Z.of_nat (shape0 self)) ;;
  cutoffIdx <- int_of_float (split_ratio * n)%float ;;
  let trainDS :=
    {| data := data self; dataIdx := slice_to (dataIdx self) cutoffIdx |} in
  let validDS :=
    {| data := data self;
       dataIdx := slice_from (dataIdx self) cutoffIdx |} in
  ret (trainDS, validDS).

(** [shuffle] reads and writes the global generator state [g]. *)
Definition shuffle (self : Container) (seed : option Z)
    (g : np_random.state G) : result (Container * np_random.state G) :=
  g1 <- match seed with
        | Some s => np_random.seed G s
        | None => ret g
        end ;;
  let '(idx, g2) := np_random.permutation G (shape0 self) g1 in
  ret ({| data := data self; dataIdx := idx |}, g2).

Definition __len__ (self : Container) : nat := List.length (dataIdx self).

(** [self.data[idx, :-1]] *)
Definition getModelFeatures (self : Container) (idx : Z)
  : result (list A) :=
  row <- subscript (data self) idx ;;
  ret (slice_to row (-1)).

(** [self.data[idx, [-1]]] *)
Definition getModelLabels (self : Container) (idx : Z)
  : result (list A) :=
  row <- subscript (data self) idx ;;
  x <- subscript row (-1) ;;
  ret [x].

Definition __getitem__ (self : Container) (idx : Z)
  : result (list A * list A) :=
  i <- subscript (dataIdx self) idx ;;
  features <- getModelFeatures self (Z.of_nat i) ;;
  j <- subscript (dataIdx self) idx ;;
  labels <- getModelLabels self (Z.of_nat j) ;;
  ret (features, labels).

End Container.

End container.

(* ------------------------------------------------------------------ *)
(** ** Further exceptions                                              *)
(* ------------------------------------------------------------------ *)

Module PyExc.

(** The exceptions of [Py], and the further ones raised by the code
    below. *)
Inductive error : Type :=
| Builtin (e : exn)
| AssertionError (msg : string)
| NotImplementedError
| KeyError (key : string)
| TypeError (msg : string)
| RuntimeError (msg : string)
| AxisError (axis : Z) (ndim : nat)
| FileExistsError (path : string)
| NotADirectoryError (path : string)
| IsADirectoryError (path : string).

Definition outcome (A : Type) : Type := (error + A)%type.

Definition done {A} (a : A) : outcome A := inr a.
Definition throw {A} (e : error) : outcome A := inl e.

Definition and_then {A B} (m : outcome A) (k : A -> outcome B) : outcome B :=
  match m with
  | inl e => inl e
  | inr a => k a
  end.

(** A computation of [Py] among the computations with more exceptions. *)
Definition lift {A} (m : result A) : outcome A :=
  match m with
  | inl e => inl (Builtin e)
  | inr a => inr a
  end.

End PyExc.

Notation "x <~ m ;; k" := (PyExc.and_then m (fun x => k))
  (at level 61, m at next level, right associativity).

(* ------------------------------------------------------------------ *)
(** ** [Container.__init__] and [load_data]                              *)
(* ------------------------------------------------------------------ *)

Module container_load.

Import PyExc container.
Local Open Scope string_scope.

(** A [(n, m)] [np.ndarray]: its rows. *)
Definition ndarray : Type := list (list float).

(** The sources [load_data] tells apart by [isinstance]. *)
#[local] Unset Elimination Schemes.

Inductive datasrc : Type :=
| SrcStr (path : string)
| SrcDataFrame
| SrcList (items : list datasrc)
| SrcArray (a : ndarray)
| SrcOther.

#[local] Set Elimination Schemes.

(** [s.split(".")[-1]]: the text behind the last point, all of [s] when
    it has none. *)
Fixpoint last_field (s : string) (field : string) : string :=
  match s with
  | String c s' =>
      if (c =? ".")%char then last_field s' "" 
      else last_field s' (field ++ String c "")
  | "" => field
  end.

Section Loading.

(** [os.path.isfile] *)
Variable isfile : string -> bool.

(** The element type of the tensor and the conversion of a [float64] to
    it, [Tensor(data).to(dtype=dtype)] cell by cell. *)
Variable A : Type.
Variable to_dtype : float -> A.

(** [self.load_data(datasrc)], from and to the value of [self.data]. *)
Fixpoint load_data (datasrc : datasrc) (data : option ndarray)
  : outcome (option ndarray) :=
  match datasrc with
  | SrcStr path =>
      if isfile path then
        let fileSuffix := last_field path "" in
        if (fileSuffix =? "npy")%string then throw NotImplementedError
        else if (fileSuffix =? "yaml")%string then throw NotImplementedError
        else throw (Builtin
               (ValueError "File found but not a supported file type."))
      else
        throw (AssertionError
          ("Specified dataset is assumed to be a file address at, but no valid file is found at "
           ++ path ++ "."))
  | SrcDataFrame => throw NotImplementedError
  | SrcList items =>
      (fix each (items : list container_load.datasrc) (data : option ndarray)
         : outcome (option ndarray) :=
         match items with
         | [] => done data
         | d :: items' => data' <~ load_data d data ;; each items' data'
         end) items data
  | SrcArray a => done (Some a)
  | SrcOther => throw NotImplementedError
  end.

(** [Container(datasrc)] *)
Definition __init__ (datasrc : datasrc) : outcome (Container A) :=
  data <~ load_data datasrc None ;;
  match data with
  | Some a => done (init (map (map to_dtype) a))
  | None =>
      throw (Builtin
        (AttributeError "'NoneType' object has no attribute 'shape'"))
  end.

End Loading.

End container_load.

(* ================================================================== *)
(** * config_parser.py                                               *)
(* ================================================================== *)

Module config_parser.

Import PyExc.
Local Open Scope string_scope.

#[local] Unset Elimination Schemes.

(** What [yaml.safe_load] returns. *)
Inductive yaml : Type :=
| Null
| Bool (b : bool)
| Int (z : Z)
| Float (x : float)
| Str (s : string)
| Seq (items : list yaml)
| Map (items : list (yaml * yaml)).

#[local] Set Elimination Schemes.

(** [d[key]] for a [str] key of a [dict]: the keys that are no [str]
    are unequal to it. *)
Fixpoint lookup (key : string) (d : list (yaml * yaml)) : option yaml :=
  match d with
  | [] => None
  | (Str k, v) :: d' => if (k =? key)%string then Some v else lookup key d'
  | _ :: d' => lookup key d'
  end.

(** [config_data[key]] *)
Definition getitem (config_data : yaml) (key : string) : outcome yaml :=
  match config_data with
  | Map d =>
      match lookup key d with
      | Some v => done v
      | None => throw (KeyError key)
      end
  | Null => throw (TypeError "'NoneType' object is not subscriptable")
  | Bool _ => throw (TypeError "'bool' object is not subscriptable")
  | Int _ => throw (TypeError "'int' object is not subscriptable")
  | Float _ => throw (TypeError "'float' object is not subscriptable")
  | Str _ => throw (TypeError "string indices must be integers, not 'str'")
  | Seq _ =>
      throw (TypeError "list indices must be integers or slices, not str")
  end.

(** The dataclass [Config0D]: the fields of [BaseConfig], then its
    own. *)
Record Config0D : Type := {
  mechanism : yaml;
  scenario_type : yaml;
  config_type : yaml;
  phi_range : yaml;
  pressure_range : yaml;
  temperature_range : yaml
}.

Definition fields : list string :=
  ["mechanism"; "scenario_type"; "config_type"; "phi_range";
   "pressure_range"; "temperature_range"].

(** The key is a [str] that names a field. *)
Definition is_field (k : yaml) : bool :=
  match k with
  | Str s => existsb (String.eqb s) fields
  | _ => false
  end.

Definition required (key : string) (d : list (yaml * yaml)) : outcome yaml :=
  match lookup key d with
  | Some v => done v
  | None =>
      throw (TypeError ("__init__() missing required argument: " ++ key))
  end.

(** [Config0D] called with the mapping unpacked into keyword
    arguments: every key is the name of a field, and every field has a
    key.  The messages of the [TypeError]s are
    shortened. *)
Definition Config0D_of (config_data : list (yaml * yaml))
  : outcome Config0D :=
  if forallb (fun kv => is_field (fst kv)) config_data then
    mechanism <~ required "mechanism" config_data ;;
    scenario_type <~ required "scenario_type" config_data ;;
    config_type <~ required "config_type" config_data ;;
    phi_range <~ required "phi_range" config_data ;;
    pressure_range <~ required "pressure_range" config_data ;;
    temperature_range <~ required "temperature_range" config_data ;;
    done {| mechanism := mechanism; scenario_type := scenario_type;
            config_type := config_type; phi_range := phi_range;
            pressure_range := pressure_range;
            temperature_range := temperature_range |}
  else throw (TypeError "__init__() got an unexpected keyword argument").

(** [config == '0D'] *)
Definition is_0D (config : yaml) : bool :=
  match config with
  | Str s => (s =? "0D")%string
  | _ => false
  end.

(** [ConfigParser.load_config] on what [yaml.safe_load] has read from
    the file: a [Config0D], or [None] where the function ends without
    a [return]. *)
Definition load_config (config_data : yaml) : outcome (option Config0D) :=
  config <~ getitem config_data "config_type" ;;
  if is_0D config then
    match config_data with
    | Map d => c <~ Config0D_of d ;; done (Some c)
    | _ => throw (TypeError "argument after ** must be a mapping")
    end
  else done None.

End config_parser.

(* ================================================================== *)
(** * data_sampler/base_sampler.py and zeroD_sampler.py              *)
(* ================================================================== *)

Module zeroD_sampler.

Import PyExc config_parser.
Local Open Scope string_scope.

(** A [ZeroDSampler]: the fields [BaseSampler.__init__] sets.  [config]
    is what [ConfigParser.load_config] returned. *)
Record ZeroDSampler : Type := {
  config : option Config0D;
  data : option np.array2
}.

(** [BaseSampler.__init__] *)
Definition __init__ (config : option Config0D) : ZeroDSampler :=
  {| config := config; data := None |}.

(** [sample]: [pass]. *)
Definition sample (self : ZeroDSampler) : ZeroDSampler := self.

Definition _get_variable_names (self : ZeroDSampler) : list string :=
  ["temperature"; "pressure"; "..."].

(** The dictionary [get_metadata] returns. *)
Record metadata : Type := {
  variables : list string;
  scenario : yaml
}.

(** [BaseSampler.get_metadata] *)
Definition get_metadata (self : ZeroDSampler) : outcome metadata :=
  let variables := _get_variable_names self in
  match config self with
  | Some c => done {| variables := variables; scenario := scenario_type c |}
  | None =>
      throw (Builtin (AttributeError
        "'NoneType' object has no attribute 'scenario_type'"))
  end.

End zeroD_sampler.

(* ================================================================== *)
(** * dataset_tools/merger.py                                        *)
(* ================================================================== *)

Module merger.

Import PyExc np.
Local Open Scope Z_scope.

(** Row [i] across the blocks, side by side. *)
Definition joined_row (blocks : list array2) (i : nat) : list float :=
  List.concat (map (fun b => nth i (rows b) []) blocks).

(** [np.concatenate(blocks, axis=1)] for two-dimensional arrays. *)
Definition concatenate_columns (blocks : list array2) : result array2 :=
  match blocks with
  | [] => no_arrays
  | b :: _ =>
      if forallb (fun b' => Nat.eqb (List.length (rows b'))
                                    (List.length (rows b))) blocks
      then ret {| ncols := list_sum (map ncols blocks);
                  rows := map (joined_row blocks)
                              (seq 0 (List.length (rows b))) |}
      else dimension_mismatch
  end.

(** [np.concatenate(datasets, axis=axis)] for two-dimensional arrays
    and an [int] axis: the axes are [0] and [1], also counted from the
    end as [-2] and [-1].  An empty list is refused before the axis is
    looked at. *)
Definition concatenate (datasets : list array2) (axis : Z)
  : outcome array2 :=
  match datasets with
  | [] => lift no_arrays
  | _ =>
      if (axis =? 0) || (axis =? -2) then lift (concatenate_axis0 datasets)
      else if (axis =? 1) || (axis =? -1)
      then lift (concatenate_columns datasets)
      else throw (AxisError axis 2)
  end.

(** [DatasetMerger.merge(datasets, axis)] *)
Definition merge (datasets : list array2) (axis : Z) : outcome array2 :=
  merged_data <~ concatenate datasets axis ;;
  done merged_data.

End merger.

(* ================================================================== *)
(** * nn_framework/model.py: the layers of [MLPModel]                *)
(* ================================================================== *)

Module model.

Import PyExc PyNum.
Local Open Scope Z_scope.

(** The modules of [MLPModel.torchLayers]: an [nn.Linear] with its two
    sizes, or the activation handed to the constructor. *)
Inductive layer : Type :=
| Linear (in_features out_features : Z)
| Activation.

(** [nn.Linear(in_features, out_features)]: a negative size is
    refused. *)
Definition nn_Linear (in_features out_features : Z) : outcome layer :=
  if (in_features <? 0) || (out_features <? 0) then
    throw (RuntimeError
      "Trying to create tensor with negative dimension"%string)
  else done (Linear in_features out_features).

(** [for idx in range(len(layers)-2)], from the index [idx] on and for
    [count] more turns: a linear layer and the activation are appended
    in each turn. *)
Fixpoint hidden_layers (layers : list Z) (idx : nat) (count : nat)
    (torchLayers : list layer) : outcome (list layer) :=
  match count with
  | O => done torchLayers
  | S count' =>
      i <~ lift (subscript layers (Z.of_nat idx)) ;;
      o <~ lift (subscript layers (Z.of_nat idx + 1)) ;;
      linear <~ nn_Linear i o ;;
      hidden_layers layers (S idx) count'
                    (torchLayers ++ [linear; Activation])
  end.

(** [MLPModel.__init__(layers, activation)]: the list [torchLayers]. *)
Definition __init__ (layers : list Z) : outcome (list layer) :=
  torchLayers <~ hidden_layers layers 0
                   (Z.to_nat (Z.of_nat (List.length layers) - 2)) [] ;;
  i <~ lift (subscript layers (-2)) ;;
  o <~ lift (subscript layers (-1)) ;;
  linear <~ nn_Linear i o ;;
  done (torchLayers ++ [linear]).

End model.

(* ================================================================== *)
(** * utils/utils.py: [get_path_from_root]                           *)
(* ================================================================== *)

Module project_root.

Local Open Scope string_scope.

(** An absolute path without links: its components below the root of
    the file system. *)
Definition path : Type := list string.

(** [p / name] *)
Definition child (p : path) (name : string) : path := (p ++ [name])%list.

(** [list(p.parents)]: the directories above [p], from the nearest up
    to the root. *)
Definition parents (p : path) : list path :=
  map (fun n => firstn n p) (rev (seq 0 (List.length p))).

(** [p.joinpath( *parts )] for parts that are names. *)
Definition joinpath (p : path) (parts : list string) : path :=
  (p ++ parts)%list.

(** The text of the error, the cross mark in its three bytes. *)
Definition not_located : string :=
  String (ascii_of_nat 226) (String (ascii_of_nat 157)
    (String (ascii_of_nat 140)
      " Error: Could not locate project root containing 'config' and 'mechanisms'.")).

Section FileSystem.

(** [Path.exists] *)
Variable exists_ : path -> bool.

(** [for parent in candidates: if ...: return parent.joinpath( *parts )],
    and the [raise] behind the loop. *)
Fixpoint search (candidates : list path) (parts : list string)
  : result path :=
  match candidates with
  | [] => raise (FileNotFoundError not_located)
  | parent :: rest =>
      if exists_ (child parent "config")
         && exists_ (child parent "mechanisms")
      then ret (joinpath parent parts)
      else search rest parts
  end.

(** [get_path_from_root( *parts )] in a module, where [__file__] is
    bound: [current_path] is [Path(__file__).resolve()]. *)
Definition get_path_from_root (current_path : path) (parts : list string)
  : result path :=
  search (current_path :: parents current_path) parts.

End FileSystem.

End project_root.

(* ================================================================== *)
(** * Sample inputs                                                     *)
(* ================================================================== *)

Module fixtures.

Import oneD_sampler.
Local Open Scope string_scope.

Definition nl : string := String Re.newline "".

(** The lines of a file as [readlines()] returns them. *)
Definition text (ls : list string) : list string :=
  map (fun l => l ++ nl) ls.

Definition foam_header : list string :=
  ["FoamFile"; "{"; "    format      ascii;";
   "    class       volScalarField;"; "}"; "";
   "dimensions      [0 0 0 1 0 0 0];"; ""].

Definition foam_boundary : list string :=
  [""; "boundaryField"; "{"; "    inlet"; "    {";
   "        type            fixedValue;";
   "        value           uniform 300;"; "    }"; "}"].

(** A field file with a spatially varying [internalField]. *)
Definition nonuniform_file (count : string) (values : list string)
  : list string :=
  text (foam_header
        ++ ["internalField   nonuniform List<scalar> "; count; "("]
        ++ values ++ [")"; ";"] ++ foam_boundary)%list.

(** A field file with a uniform [internalField]. *)
Definition uniform_file (value : string) : list string :=
  text (foam_header
        ++ [("internalField   uniform " ++ value ++ ";")%string]
        ++ foam_boundary)%list.

Definition dir (n : string) (fs : list (string * list string)) : dir_entry :=
  {| name := n; is_dir := true; files := fs |}.

Definition file (n : string) : dir_entry :=
  {| name := n; is_dir := false; files := [] |}.

Definition T5 : list string :=
  nonuniform_file "5" ["300"; "310"; "320"; "330"; "340"].

(** A toy generator: the state is a counter, and a draw from [0..max] is
    the counter modulo [max + 1]. *)
Definition counter_generator : np_random.generator :=
  {| np_random.state := nat;
     np_random.init := fun s => Z.to_nat s;
     np_random.interval := fun g max => (g mod S max, S (7 * g));
     np_random.interval_le := fun g max =>
       proj1 (Nat.lt_succ_r (g mod S max) max)
             (Nat.mod_upper_bound g (S max) (Nat.neq_succ_0 max)) |}.

(** The double just above one. *)
Definition one_plus_ulp : float := 0x1.0000000000001p+0.

Definition h2_setup (self : OneDSampler) (w : world)
  : result (string * directory) :=
  ret ("mechanisms/h2.yaml",
       [dir "0" []; dir "1" [("T", T5); ("p", uniform_file "101325");
                             ("H2", uniform_file "0.5")]]).

Definition h2_species (path : string) : result (list string) := ret ["H2"].

Definition fresh_sampler : OneDSampler :=
  oneD_sampler.init true "H2" "mechanisms/h2.yaml".

Definition empty_world : world := {| cwd := []; saved := [] |}.

Definition five_and_six : directory :=
  [dir "0" [];
   dir "1" [("T", T5);
            ("p", nonuniform_file "6" ["1"; "2"; "3"; "4"; "5"; "6"])]].

Definition four_rows : list (list nat) := [[10; 1]; [20; 2]; [30; 3]; [40; 4]].

Definition ten_rows : list (list nat) :=
  map (fun i => [i; 2 * i]%nat) (seq 0 10).

Import config_parser.

(** A configuration file of the one-dimensional kind. *)
Definition config_1D : list (yaml * yaml) :=
  [(Str "mechanism", Str "h2.yaml"); (Str "scenario_type", Str "flame");
   (Str "config_type", Str "1D");
   (Str "phi_range", Seq [Float 0.5; Float 2]);
   (Str "pressure_range", Seq [Int 1; Int 10]);
   (Str "temperature_range", Seq [Int 300; Int 1500])].

End fixtures.

(* ================================================================== *)
(** * Predicates of the statements below                                *)
(* ================================================================== *)

Module F64_props.

Local Open Scope Z_scope.

(** A float that is zero or finite, of sign [s] and exponent at most [b]. *)
Definition finite_below (s : bool) (b : Z) (x : spec_float) : Prop :=
  x = S754_zero s \/ exists m e, x = S754_finite s m e /\ e <= b.

(** The largest exponent the two shifts of a rounding can reach from a
    mantissa of at most [d] digits at an exponent of at most [b]. *)
Definition round_bound (d b : Z) : Z :=
  Z.max (Z.max b (d + b - 53)) (Z.max b (d + b - 53) + d - 52).

(** A zero of any sign, or a positive finite float. *)
Definition nonnegative (x : spec_float) : Prop :=
  (exists s, x = S754_zero s) \/ exists m e, x = S754_finite false m e.

(** The rank of a float in the order of [SFcompare]: the class first
    (minus infinity, negative, zero, positive, plus infinity), then the
    exponent and the mantissa, reversed for the negative floats. *)
Definition rank (x : spec_float) : Z * Z * Z :=
  match x with
  | S754_nan => (0, 0, 0)
  | S754_infinity true => (-2, 0, 0)
  | S754_finite true m e => (-1, - e, - Zpos m)
  | S754_zero _ => (0, 0, 0)
  | S754_finite false m e => (1, e, Zpos m)
  | S754_infinity false => (2, 0, 0)
  end.

Definition rank_le (a b : Z * Z * Z) : Prop :=
  let '(c1, e1, m1) := a in
  let '(c2, e2, m2) := b in
  c1 < c2 \/ (c1 = c2 /\ (e1 < e2 \/ (e1 = e2 /\ m1 <= m2))).

End F64_props.

Module numeric_props.

Import PyStr Re.
Local Open Scope string_scope.

(** Every class of [r] lies inside [Q]. *)
Fixpoint classes_within (Q : ascii -> bool) (r : regex) : Prop :=
  match r with
  | Void | Eps => True
  | Class p => forall c, p c = true -> Q c = true
  | Cat r1 r2 | Alt r1 r2 => classes_within Q r1 /\ classes_within Q r2
  | Star r' => classes_within Q r'
  end.

Definition nonblank (c : ascii) : bool := negb (isspace c).

Definition digits (s : string) : Prop := all_chars isdigit s = true.

Definition is_sign (s : string) : Prop := s = "" \/ s = "-" \/ s = "+".

(** Digits, then possibly a point and digits, with a digit somewhere. *)
Definition mantissa_shape (s : string) : Prop :=
  exists a f, s = a ++ f /\ digits a /\
    ((f = "" /\ a <> "") \/
     exists b, f = String "." b /\ digits b /\ (a <> "" \/ b <> "")).

Definition exponent_shape (s : string) : Prop :=
  s = "" \/
  exists c sg ds, s = String c (sg ++ ds) /\ (c = "e" \/ c = "E")%char /\
                  is_sign sg /\ digits ds /\ ds <> "".

(** [digitpart] stops at [rest]. *)
Definition stops (rest : string) : Prop :=
  match rest with
  | "" => True
  | String c _ => isdigit c = false /\ c <> "_"%char
  end.

End numeric_props.

Module sampler_props.

Import PyStr np oneD_sampler.
Local Open Scope string_scope.

Definition key_le {A} (a b : float * A) : Prop :=
  (fst a <=? fst b)%float = true.

Definition no_nan {A} (a : float * A) : Prop := (fst a =? fst a)%float = true.

(** The directories [is_dir() and is_numeric_string(name)] selects. *)
Definition numeric_dirs (cwd : directory) : list dir_entry :=
  filter (fun d => is_dir d && utils.is_numeric_string (name d)) cwd.

(** [float(a.name) <= float(b.name)] *)
Definition time_le (a b : dir_entry) : Prop :=
  exists ka kb,
    PyFloat.float_of_string (name a) = ret ka /\
    PyFloat.float_of_string (name b) = ret kb /\
    (ka <=? kb)%float = true.

(** [sample_started] after the lines [ls] have been read. *)
Fixpoint started_after (sample_started : bool) (ls : list string) : bool :=
  match ls with
  | [] => sample_started
  | l :: ls' =>
      started_after (if contains "internalField" l then true else sample_started)
                    ls'
  end.

(** No line of [ls] that is read with [sample_started] set holds a uniform
    marker or a parenthesis. *)
Fixpoint passes (sample_started : bool) (ls : list string) : bool :=
  match ls with
  | [] => true
  | l :: ls' =>
      let s := if contains "internalField" l then true else sample_started in
      (negb s || negb (contains " uniform" l || contains "(" l || contains ")" l))
      && passes s ls'
  end.

(** The array of the field [var] of [time_dir], for some bindings of the
    locals. *)
Definition field_of (time_dir : dir_entry) (var : string) (array : column)
  : Prop :=
  exists lines l l',
    readlines time_dir var = ret lines /\
    field_array lines l = ret (array, l').

(** The rows built from the arrays of one time step. *)
Definition rows_of (arrays : list column) (n : nat) : list (list float) :=
  map (fun i => map (fun c => nth i c 0%float) arrays) (seq 0 n).

(** The block of rows of one time directory: one array per entry of
    [dims], in the order of [dims], all of the same length. *)
Definition block_of (dims : list string) (time_dir : dir_entry)
    (block : array2) : Prop :=
  exists arrays n,
    Forall2 (field_of time_dir) dims arrays /\
    Forall (fun c => List.length c = n) arrays /\
    ncols block = List.length dims /\
    rows block = rows_of arrays n.

(** The values of a field file read as non-uniform: the scan of the file
    binds [start] and [end] and comes to no uniform marker, and
    [loadtxt] reads [values] between the two. *)
Definition nonuniform_values (lines : list string) (values : column) : Prop :=
  exists s e,
    scan_lines lines 0 false None None = ret (None, Some s, Some e) /\
    loadtxt_reshape (slice lines s e) = ret values.

(** The field file is read as uniform, with the value [v]. *)
Definition uniform_value (lines : list string) (v : float) : Prop :=
  exists s e, scan_lines lines 0 false None None = ret (Some v, s, e).

End sampler_props.

Module time_props.

Import oneD_sampler.

(** The directory of the initial condition: its name reads as zero. *)
Definition at_time_zero (d : dir_entry) : Prop :=
  exists k, PyFloat.float_of_string (name d) = ret k /\
            (k =? 0)%float = true.

(** A directory the simulation wrote: its name reads as a time behind
    zero. *)
Definition after_time_zero (d : dir_entry) : Prop :=
  exists k, PyFloat.float_of_string (name d) = ret k /\
            (0 <? k)%float = true.

End time_props.

Module field_props.
Import PyStr.
Local Open Scope string_scope.

(** The line holds no uniform marker and no parenthesis. *)
Definition plain (line : string) : bool :=
  negb (contains " uniform" line || contains "(" line || contains ")" line).

End field_props.

Module coverage_props.

Import model project_root.
Local Open Scope string_scope.

(** The linear layers over consecutive sizes, the activation between
    them. *)
Fixpoint chain (a : Z) (rest : list Z) : list layer :=
  match rest with
  | [] => []
  | b :: rest' =>
      match rest' with
      | [] => [Linear a b]
      | _ :: _ => Linear a b :: Activation :: chain b rest'
      end
  end.

(** The directory holds [config] and [mechanisms]. *)
Definition is_root (exists_ : path -> bool) (p : path) : bool :=
  exists_ (child p "config") && exists_ (child p "mechanisms").

End coverage_props.

Module container_props.

Import container_load.

(** The sources of [datasrc] that are not lists, in the order in which
    [load_data] comes to them. *)
Fixpoint leaves (src : datasrc) : list datasrc :=
  match src with
  | SrcList items =>
      (fix all (items : list datasrc) : list datasrc :=
         match items with
         | [] => []
         | d :: items' => leaves d ++ all items'
         end) items
  | _ => [src]
  end.

End container_props.

(* ================================================================== *)
(** * Facts about binary64 arithmetic                                   *)
(* ================================================================== *)

Module F64_facts.

Import F64 F64_props.
Local Open Scope float_scope.

Lemma SFmul_comm x y : SF64mul x y = SF64mul y x.
Proof.
  unfold SF64mul, SFmul.
  destruct x as [sx|sx| |sx mx ex], y as [sy|sy| |sy my ey];
    try reflexivity; rewrite ?(xorb_comm sx sy); try reflexivity.
  now rewrite Pos.mul_comm, Z.add_comm.
Qed.

Lemma mul_comm x y : x * y = y * x.
Proof. apply Prim2SF_inj. rewrite !mul_spec. apply SFmul_comm. Qed.

Lemma Prim2SF_zero : Prim2SF 0 = S754_zero false.
Proof. reflexivity. Qed.

(** [0 < x] excludes [x <= 0]. *)
Lemma pos_not_le0 x : (0 <? x) = true -> (x <=? 0) = false.
Proof.
  rewrite FloatAxioms.ltb_spec, FloatAxioms.leb_spec, Prim2SF_zero.
  unfold SFltb, SFleb.
  destruct (Prim2SF x) as [s|[|]| |[|] m e]; simpl; congruence.
Qed.

(** A float that is not [<= 0] is not zero. *)
Lemma not_le0_not_zero x : (x <=? 0) = false -> (x =? 0) = false.
Proof.
  rewrite FloatAxioms.eqb_spec, FloatAxioms.leb_spec, Prim2SF_zero.
  unfold SFeqb, SFleb.
  destruct (Prim2SF x) as [s|[|]| |[|] m e]; simpl; congruence.
Qed.

Lemma truediv_nonzero x y : (y =? 0) = false -> truediv x y = ret (x / y).
Proof. unfold truediv. now intros ->. Qed.

(** ** Bounds on rounding *)

Local Open Scope Z_scope.

Lemma digits2_pos_gt (p : positive) : Zpos p < 2 ^ Zpos (digits2_pos p).
Proof.
  induction p as [p IH|p IH|]; cbn [digits2_pos]; [| |reflexivity];
    rewrite Pos2Z.inj_succ, Z.pow_succ_r by lia; lia.
Qed.

Lemma digits2_pos_le (p : positive) : 2 ^ (Zpos (digits2_pos p) - 1) <= Zpos p.
Proof.
  induction p as [p IH|p IH|]; cbn [digits2_pos]; [| |discriminate];
    rewrite Pos2Z.inj_succ;
    replace (Z.succ (Zpos (digits2_pos p)) - 1)
      with (Z.succ (Zpos (digits2_pos p) - 1)) by lia;
    rewrite Z.pow_succ_r by lia; lia.
Qed.

Lemma Zdigits2_gt (x : Z) : 0 <= x -> x < 2 ^ Zdigits2 x.
Proof.
  destruct x as [|p|p]; intros H; cbn [Zdigits2]; [reflexivity | | lia].
  apply digits2_pos_gt.
Qed.

Lemma Zdigits2_bound (x k : Z) : 0 <= x < 2 ^ k -> 0 <= k -> Zdigits2 x <= k.
Proof.
  intros [H0 Hk] Hk0. destruct x as [|p|p]; cbn [Zdigits2]; [lia | | lia].
  pose proof (digits2_pos_le p) as Hle.
  destruct (Z_le_gt_dec (Zpos (digits2_pos p)) k) as [|Hgt]; [assumption|].
  assert (2 ^ k <= 2 ^ (Zpos (digits2_pos p) - 1))
    by (apply Z.pow_le_mono_r; lia).
  lia.
Qed.

Lemma Zdigits2_nonneg (x : Z) : 0 <= Zdigits2 x.
Proof. destruct x; cbn [Zdigits2]; lia. Qed.

Lemma shr_1_bound (r : shr_record) :
  0 <= shr_m r -> 0 <= shr_m (shr_1 r) <= shr_m r.
Proof.
  destruct r as [m b s]. cbn [shr_m shr_1].
  destruct m as [|[p|p|]|[p|p|]]; cbn [shr_m]; lia.
Qed.

Lemma iter_pos_invariant {A} (f : A -> A) (P : A -> Prop) :
  (forall x, P x -> P (f x)) ->
  forall p x, P x -> P (iter_pos f p x).
Proof.
  intros Hf. induction p as [p IH|p IH|]; intros x Hx; cbn [iter_pos]; auto.
Qed.

Lemma shr_record_of_loc_m m l : shr_m (shr_record_of_loc m l) = m.
Proof. destruct l as [|[| |]]; reflexivity. Qed.

(** The first shift of a rounding: the mantissa does not grow, and the
    exponent is the old one or the canonical one. *)
Lemma shr_fexp_bound (m e : Z) (l : location) :
  0 <= m ->
  0 <= shr_m (fst (shr_fexp prec emax m e l)) <= m /\
  (snd (shr_fexp prec emax m e l) = e \/
   snd (shr_fexp prec emax m e l) = fexp prec emax (Zdigits2 m + e)).
Proof.
  intros Hm. unfold shr_fexp, shr.
  destruct (fexp prec emax (Zdigits2 m + e) - e) as [|k|k] eqn:Hk;
    cbn [fst snd]; rewrite ?shr_record_of_loc_m; try (split; [lia | now left]).
  split; [|right; lia].
  apply (iter_pos_invariant shr_1 (fun r => 0 <= shr_m r <= m)).
  - intros r Hr. pose proof (shr_1_bound r). lia.
  - rewrite shr_record_of_loc_m. lia.
Qed.

Lemma round_nearest_even_bound (x : Z) (l : location) :
  x <= round_nearest_even x l <= x + 1.
Proof.
  destruct l as [|[| |]]; cbn [round_nearest_even];
    try destruct (Z.even x); lia.
Qed.

(** Such a rounding does not overflow when this bound is in range. *)
Lemma binary_round_aux_finite (s : bool) (m e : Z) (l : location) (d b : Z) :
  0 <= m -> Zdigits2 m <= d -> e <= b -> 0 <= d -> -1074 <= b ->
  round_bound d b <= 971 ->
  finite_below s (round_bound d b) (binary_round_aux prec emax s m e l).
Proof.
  unfold round_bound.
  intros Hm Hd He Hd0 Hb Hrange. unfold binary_round_aux.
  pose proof (@shr_fexp_bound m e l Hm) as [Hm1 He1].
  destruct (shr_fexp prec emax m e l) as [r1 e1]. cbn [fst snd] in Hm1, He1.
  set (m2 := round_nearest_even (shr_m r1) (loc_of_shr_record r1)).
  pose proof (round_nearest_even_bound (shr_m r1) (loc_of_shr_record r1))
    as Hm2. fold m2 in Hm2.
  assert (Hm2' : 0 <= m2) by lia.
  pose proof (@shr_fexp_bound m2 e1 loc_Exact Hm2') as [Hm3 He2].
  destruct (shr_fexp prec emax m2 e1 loc_Exact) as [r2 e2].
  cbn [fst snd] in Hm3, He2.
  assert (He1' : e1 <= Z.max b (d + b - 53)).
  { unfold fexp, SpecFloat.emin, prec, emax in He1. lia. }
  assert (Hd2 : Zdigits2 m2 <= d + 1).
  { apply Zdigits2_bound; [|lia].
    pose proof (@Zdigits2_gt m Hm) as Hlt.
    assert (2 ^ Zdigits2 m <= 2 ^ d)
      by (apply Z.pow_le_mono_r; [lia | assumption]).
    rewrite Z.pow_add_r by lia. change (2 ^ 1) with 2. lia. }
  assert (He2' : e2 <= Z.max (Z.max b (d + b - 53))
                            (Z.max b (d + b - 53) + d - 52)).
  { unfold fexp, SpecFloat.emin, prec, emax in He2. lia. }
  destruct (shr_m r2) as [|p|p]; [now left | | lia].
  assert (Hle : (e2 <=? emax - prec) = true)
    by (apply Z.leb_le; unfold emax, prec; lia).
  rewrite Hle. right. now exists p, e2.
Qed.

(** ** [float(int)] below [2^63] *)

Lemma digits2_pos_iter_xO (p d : positive) :
  digits2_pos (Pos.iter xO p d) = (digits2_pos p + d)%positive.
Proof.
  induction d as [|d IH] using Pos.peano_ind.
  - cbn [Pos.iter digits2_pos]. lia.
  - rewrite Pos.iter_succ. cbn [digits2_pos]. rewrite IH. lia.
Qed.

(** Aligning a mantissa keeps digits plus exponent, and the exponent does
    not grow. *)
Lemma shl_align_bound (p : positive) (e e' : Z) :
  snd (shl_align p e e') <= e /\
  Z.min e e' <= snd (shl_align p e e') /\
  Zpos (digits2_pos (fst (shl_align p e e'))) + snd (shl_align p e e')
  = Zpos (digits2_pos p) + e.
Proof.
  unfold shl_align. destruct (e' - e) as [|k|k] eqn:Hk; cbn [fst snd];
    try lia.
  rewrite digits2_pos_iter_xO. lia.
Qed.

(** [float(z)] for [0 <= z < 2^63] is zero or finite and positive, with an
    exponent of at most 21. *)
Lemma binary_normalize_small (z : Z) :
  0 <= z < 2 ^ 63 ->
  finite_below false 21 (binary_normalize prec emax z 0 false).
Proof.
  intros [H0 H63]. destruct z as [|p|p]; [now left | | lia].
  cbn [binary_normalize]. unfold binary_round.
  assert (Hp : Zpos (digits2_pos p) <= 63)
    by (apply (@Zdigits2_bound (Zpos p) 63); lia).
  pose proof (shl_align_bound p 0 (fexp prec emax (Zpos (digits2_pos p) + 0)))
    as (Hez & Hez' & Hsum).
  destruct (shl_align p 0 (fexp prec emax (Zpos (digits2_pos p) + 0)))
    as [mz ez]. cbn [fst snd] in Hez, Hez', Hsum.
  unfold fexp, SpecFloat.emin, prec, emax in Hez'.
  change 21 with (round_bound 63 0).
  apply binary_round_aux_finite; cbn [Zdigits2]; try lia.
  unfold round_bound. lia.
Qed.

Lemma float_of_small_int (z : Z) :
  0 <= z < 2 ^ 63 ->
  Prim2SF (of_uint63 (Uint63.of_Z z)) = binary_normalize prec emax z 0 false.
Proof.
  intros Hz. rewrite of_uint63_spec.
  change Uint63Axioms.to_Z with Uint63.to_Z.
  rewrite Uint63.of_Z_spec, Z.mod_small; [reflexivity|].
  change wB with (2 ^ 63). exact Hz.
Qed.

(** ** Products with a ratio of [0..1] *)

Lemma valid_binary_digits (x : float) (s : bool) (m : positive) (e : Z) :
  Prim2SF x = S754_finite s m e -> Zpos (digits2_pos m) <= 53.
Proof.
  intros Hx. pose proof (Prim2SF_valid x) as Hv. rewrite Hx in Hv.
  cbn [SpecFloat.valid_binary] in Hv. unfold bounded in Hv.
  apply andb_true_iff in Hv as [Hc _]. unfold canonical_mantissa in Hc.
  apply Z.eqb_eq in Hc.
  unfold fexp, SpecFloat.emin, prec, emax in Hc. lia.
Qed.

Lemma Prim2SF_one : Prim2SF 1 = S754_finite false 4503599627370496 (-52).
Proof. reflexivity. Qed.

(** A float of [0..1] is a zero, or positive with an exponent of at most
    [-52]. *)
Lemma unit_interval (r : float) :
  (0 <=? r)%float = true -> (r <=? 1)%float = true ->
  (exists s, Prim2SF r = S754_zero s) \/
  exists m e, Prim2SF r = S754_finite false m e /\ e <= -52.
Proof.
  rewrite !FloatAxioms.leb_spec, Prim2SF_zero, Prim2SF_one.
  unfold SFleb, SFcompare.
  destruct (Prim2SF r) as [s|s| |s m e]; cbv beta iota.
  - intros _ _. left. now exists s.
  - destruct s; intros H0 H1; discriminate.
  - intros H0; discriminate.
  - destruct s; [intros H0; discriminate|].
    intros _ H. right. exists m, e. split; [reflexivity|].
    destruct (Z.compare_spec e (-52)) as [Hc|Hc|Hc]; [lia | lia |].
    discriminate H.
Qed.

(** The product of a ratio of [0..1] and the float of an integer below
    [2^63] is such a float: it is neither negative, nor infinite, nor a
    NaN. *)
Lemma mul_unit_interval (r n : float) :
  (0 <=? r)%float = true -> (r <=? 1)%float = true ->
  finite_below false 21 (Prim2SF n) ->
  nonnegative (Prim2SF (r * n)%float).
Proof.
  intros H0 H1 Hn. rewrite mul_spec. unfold SF64mul.
  destruct (@unit_interval r H0 H1) as [[s Hr]|(m & e & Hr & He)];
    destruct Hn as [Hn|(m' & e' & Hn & He')].
  - rewrite Hr, Hn. left. eexists. reflexivity.
  - rewrite Hr, Hn. left. eexists. reflexivity.
  - rewrite Hr, Hn. left. eexists. reflexivity.
  - pose proof (@valid_binary_digits _ _ _ _ Hr) as Hd.
    pose proof (@valid_binary_digits _ _ _ _ Hn) as Hd'.
    rewrite Hr, Hn. cbn [SFmul xorb].
    assert (Hfin : finite_below false (round_bound 106 (-31))
              (binary_round_aux prec emax false (Zpos (m * m')) (e + e')
                                loc_Exact)).
    { apply binary_round_aux_finite; try lia.
      - apply Zdigits2_bound; [|lia]. split; [lia|].
        pose proof (digits2_pos_gt m) as Hm.
        pose proof (digits2_pos_gt m') as Hm'.
        assert (2 ^ Zpos (digits2_pos m) <= 2 ^ 53)
          by (apply Z.pow_le_mono_r; lia).
        assert (2 ^ Zpos (digits2_pos m') <= 2 ^ 53)
          by (apply Z.pow_le_mono_r; lia).
        rewrite Pos2Z.inj_mul. change (2 ^ 106) with (2 ^ 53 * 2 ^ 53).
        apply Z.mul_lt_mono_nonneg; lia.
      - unfold round_bound. lia. }
    destruct Hfin as [Hz|(m2 & e2 & Hf & _)].
    + left. now exists false.
    + right. now exists m2, e2.
Qed.

(** ** The order of the floats that are no NaN *)

Lemma SFcompare_antisym (x y : spec_float) :
  SFcompare x y = option_map CompOpp (SFcompare y x).
Proof.
  destruct x as [sx|sx| |sx mx ex], y as [sy|sy| |sy my ey];
    try destruct sx; try destruct sy; try reflexivity.
  all: cbn [SFcompare option_map]; f_equal;
    rewrite (Z.compare_antisym ey ex);
    destruct (ey ?= ex); cbn [CompOpp]; try reflexivity;
    rewrite !Pos.compare_cont_spec, (Pos.compare_antisym my mx);
    destruct (my ?= mx)%positive; reflexivity.
Qed.

Lemma rank_le_trans a b c : rank_le a b -> rank_le b c -> rank_le a c.
Proof.
  destruct a as [[c1 e1] m1], b as [[c2 e2] m2], c as [[c3 e3] m3].
  unfold rank_le. lia.
Qed.

Lemma SFleb_rank (x y : spec_float) :
  x <> S754_nan -> y <> S754_nan ->
  (SFleb x y = true <-> rank_le (rank x) (rank y)).
Proof.
  intros Hx Hy. unfold SFleb.
  destruct x as [sx|sx| |sx mx ex], y as [sy|sy| |sy my ey];
    try congruence; try destruct sx; try destruct sy;
    cbn [SFcompare rank rank_le];
    try (split; [intros _; lia | reflexivity]);
    try (split; [discriminate | lia]).
  - rewrite Pos.compare_cont_spec. cbn [Pos.switch_Eq].
    destruct (Z.compare_spec ex ey) as [He|He|He];
      [destruct (Pos.compare_spec mx my) as [Hm|Hm|Hm]; cbn [CompOpp]| |];
      (split; [try discriminate; intros _; lia | try reflexivity; lia]).
  - rewrite Pos.compare_cont_spec. cbn [Pos.switch_Eq].
    destruct (Z.compare_spec ex ey) as [He|He|He];
      [destruct (Pos.compare_spec mx my) as [Hm|Hm|Hm]| |];
      (split; [try discriminate; intros _; lia | try reflexivity; lia]).
Qed.

(** [x == x] fails for the NaN only. *)
Lemma not_nan (x : float) : (x =? x)%float = true -> Prim2SF x <> S754_nan.
Proof.
  rewrite FloatAxioms.eqb_spec. intros H Hn. rewrite Hn in H. discriminate H.
Qed.

Lemma leb_trans (x y z : float) :
  (x =? x)%float = true -> (y =? y)%float = true -> (z =? z)%float = true ->
  (x <=? y)%float = true -> (y <=? z)%float = true -> (x <=? z)%float = true.
Proof.
  intros Hx Hy Hz. apply not_nan in Hx, Hy, Hz.
  rewrite !FloatAxioms.leb_spec, !SFleb_rank by assumption.
  apply rank_le_trans.
Qed.

Lemma ltb_leb (x y : float) :
  (x <? y)%float = true -> (x <=? y)%float = true.
Proof.
  rewrite FloatAxioms.ltb_spec, FloatAxioms.leb_spec. unfold SFltb, SFleb.
  destruct (SFcompare (Prim2SF x) (Prim2SF y)) as [[| |]|]; congruence.
Qed.

(** Among floats that are no NaN, [not (y < x)] is [x <= y]. *)
Lemma not_ltb_leb (x y : float) :
  (x =? x)%float = true -> (y =? y)%float = true ->
  (y <? x)%float = false -> (x <=? y)%float = true.
Proof.
  intros Hx Hy. apply not_nan in Hx, Hy.
  rewrite FloatAxioms.ltb_spec, FloatAxioms.leb_spec. unfold SFltb, SFleb.
  rewrite (SFcompare_antisym (Prim2SF x) (Prim2SF y)).
  destruct (SFcompare (Prim2SF y) (Prim2SF x)) as [[| |]|] eqn:Hc;
    cbn [option_map CompOpp]; try congruence.
  intros _. exfalso.
  destruct (Prim2SF x) as [sx|sx| |sx mx ex], (Prim2SF y) as [sy|sy| |sy my ey];
    try congruence; try destruct sx; try destruct sy; discriminate Hc.
Qed.

(** ** Multiplication by one *)

Lemma shr_52 (m : positive) :
  iter_pos shr_1 52 (shr_record_of_loc (Zpos (Pos.iter xO m 52)) loc_Exact)
  = {| shr_m := Zpos m; shr_r := false; shr_s := false |}.
Proof. reflexivity. Qed.

(** Rounding [2^52 * m] at the exponent [e - 52] gives [m] at [e] back. *)
Lemma binary_round_aux_one (s : bool) (m : positive) (e : Z) :
  bounded prec emax m e = true ->
  binary_round_aux prec emax s (Zpos (4503599627370496 * m)) (-52 + e)
                   loc_Exact
  = S754_finite s m e.
Proof.
  intros Hb. unfold bounded, canonical_mantissa in Hb.
  apply andb_true_iff in Hb as [Hc He]. apply Z.eqb_eq in Hc.
  change (4503599627370496 * m)%positive with (Pos.iter xO m 52).
  unfold binary_round_aux, shr_fexp.
  cbn [Zdigits2]. rewrite digits2_pos_iter_xO.
  replace (Zpos (digits2_pos m + 52) + (-52 + e))
    with (Zpos (digits2_pos m) + e) by lia.
  rewrite Hc.
  replace (e - (-52 + e)) with 52 by lia.
  cbn [shr]. rewrite shr_52.
  cbn [shr_m loc_of_shr_record round_nearest_even].
  replace (-52 + e + 52) with e by lia.
  cbn [Zdigits2]. rewrite Hc, Z.sub_diag. cbn [shr shr_record_of_loc shr_m].
  now rewrite He.
Qed.

(** [1.0 * v] is [v], bit for bit. *)
Lemma mul_one_l (v : float) : (1 * v)%float = v.
Proof.
  apply Prim2SF_inj. rewrite mul_spec, Prim2SF_one.
  pose proof (Prim2SF_valid v) as Hv.
  destruct (Prim2SF v) as [s|s| |s m e]; try reflexivity.
  cbn [SpecFloat.valid_binary] in Hv.
  unfold SF64mul, SFmul. cbn [xorb].
  now apply binary_round_aux_one.
Qed.

End F64_facts.

(* ================================================================== *)
(** * Facts about strings                                               *)
(* ================================================================== *)

Module PyStr_facts.

Import PyStr.
Local Open Scope string_scope.

Lemma append_assoc (a b c : string) : (a ++ b) ++ c = a ++ (b ++ c).
Proof. induction a as [|x a IH]; simpl; [reflexivity | now rewrite IH]. Qed.

Lemma append_empty_r (a : string) : a ++ "" = a.
Proof. induction a as [|x a IH]; simpl; [reflexivity | now rewrite IH]. Qed.

Lemma append_eq_empty (a b : string) : a ++ b = "" -> a = "" /\ b = "".
Proof. destruct a; simpl; [auto | discriminate]. Qed.

Lemma all_chars_app p a b :
  all_chars p (a ++ b) = all_chars p a && all_chars p b.
Proof.
  induction a as [|x a IH]; simpl; [reflexivity|].
  now rewrite IH, andb_assoc.
Qed.

Lemma prefix_app (sub b : string) : prefix sub (sub ++ b) = true.
Proof.
  induction sub as [|x sub IH]; simpl.
  - now destruct b.
  - destruct (ascii_dec x x) as [_|n]; [exact IH | now elim n].
Qed.

Lemma contains_prefix sub s : prefix sub s = true -> contains sub s = true.
Proof. intros H. destruct s; cbn [contains]; rewrite H; reflexivity. Qed.

Lemma contains_cons sub c s :
  contains sub s = true -> contains sub (String c s) = true.
Proof. intros H. cbn [contains]. rewrite H. apply orb_true_r. Qed.

(** [sub in a + sub + b] *)
Lemma contains_app (a sub b : string) : contains sub (a ++ sub ++ b) = true.
Proof.
  induction a as [|x a IH]; cbn [append].
  - apply contains_prefix, prefix_app.
  - now apply contains_cons.
Qed.

(** ** [split] *)

Lemma split_from_blank word s :
  all_chars isspace s = true -> split_from word s = split_from word "".
Proof.
  revert word. induction s as [|c s IH]; intros word H; [reflexivity|].
  cbn [all_chars] in H. apply andb_true_iff in H as [Hc Hs].
  cbn [split_from]. rewrite Hc. rewrite (IH "" Hs).
  destruct word; reflexivity.
Qed.

Lemma split_from_lstrip s : split_from "" (lstrip s) = split_from "" s.
Proof.
  induction s as [|c s IH]; [reflexivity|].
  cbn [lstrip split_from]. destruct (isspace c) eqn:Hc; [exact IH|].
  cbn [split_from]. now rewrite Hc.
Qed.

Lemma split_from_cons word c s :
  split_from word (String c s) =
  if isspace c then
    match word with
    | "" => split_from "" s
    | _ => word :: split_from "" s
    end
  else split_from (word ++ String c "") s.
Proof. reflexivity. Qed.

Lemma split_from_rstrip s : forall word,
  split_from word (rstrip s) = split_from word s.
Proof.
  induction s as [|c s IH]; intros word; [reflexivity|].
  cbn [rstrip]. destruct (rstrip s) as [|r0 r] eqn:Hr.
  - rewrite (split_from_cons word c s).
    destruct (isspace c) eqn:Hc.
    + rewrite <- (IH ""). destruct word; reflexivity.
    + rewrite split_from_cons, Hc. now rewrite <- IH.
  - rewrite (split_from_cons word c (String r0 r)), (split_from_cons word c s).
    rewrite !IH. reflexivity.
Qed.

(** [s.strip().split() == s.split()] *)
Lemma split_strip s : split (strip s) = split s.
Proof.
  unfold split, strip. now rewrite split_from_rstrip, split_from_lstrip.
Qed.

(** A run of non-blank characters is read into the current word. *)
Lemma split_from_word w : forall word s,
  all_chars (fun c => negb (isspace c)) w = true ->
  split_from word (w ++ s) = split_from (word ++ w) s.
Proof.
  induction w as [|c w IH]; intros word s H; cbn [append].
  - now rewrite append_empty_r.
  - cbn [all_chars] in H. apply andb_true_iff in H as [Hc Hw].
    apply negb_true_iff in Hc. cbn [split_from]. rewrite Hc.
    rewrite (IH _ _ Hw), append_assoc. reflexivity.
Qed.

(** The last item of [s.split()] when [s] ends with a blank, the word [w]
    and blanks. *)
Lemma split_from_last (a w tail : string) (sp : ascii) : forall word,
  isspace sp = true -> w <> "" ->
  all_chars (fun c => negb (isspace c)) w = true ->
  all_chars isspace tail = true ->
  exists l, split_from word (a ++ String sp (w ++ tail)) = (l ++ [w])%list.
Proof.
  intros word Hsp Hw Hns Htail. revert word.
  assert (Hend : split_from "" (w ++ tail) = [w]).
  { rewrite split_from_word by assumption. cbn [append].
    rewrite split_from_blank by assumption.
    destruct w; [now elim Hw | reflexivity]. }
  induction a as [|c a IH]; intros word; cbn [append split_from].
  - rewrite Hsp, Hend. destruct word; [now exists [] | now exists [String a word]].
  - destruct (isspace c).
    + destruct (IH "") as [l Hl]. rewrite Hl.
      destruct word; [now exists l | now exists (String a0 word :: l)].
    + apply IH.
Qed.

Lemma last_item_app (l : list string) (w : string) :
  last_item (l ++ [w]) = ret w.
Proof. unfold last_item. now rewrite rev_app_distr. Qed.

Lemma drop_last_app (t : string) (c : ascii) :
  drop_last (t ++ String c "") = t.
Proof.
  induction t as [|x t IH]; [reflexivity|].
  cbn [append drop_last]. rewrite IH.
  destruct t; reflexivity.
Qed.

(** [(a + " " + t + c + tail).strip().split()[-1][:-1] == t] *)
Lemma trailing_token (a t tail : string) (sp c : ascii) :
  isspace sp = true ->
  all_chars (fun c => negb (isspace c)) (t ++ String c "") = true ->
  all_chars isspace tail = true ->
  (tok <- last_item (split (strip (a ++ String sp ((t ++ String c "") ++ tail)))) ;;
   ret (drop_last tok)) = ret t.
Proof.
  intros Hsp Hns Htail. rewrite split_strip. unfold split.
  destruct (@split_from_last a (t ++ String c "") tail sp "" Hsp) as [l Hl];
    try assumption.
  - intros H. apply append_eq_empty in H as [_ H]. discriminate H.
  - rewrite Hl, last_item_app. cbn [bind ret]. now rewrite drop_last_app.
Qed.

End PyStr_facts.

(* ================================================================== *)
(** * Facts about regular expressions                                   *)
(* ================================================================== *)

Module Re_facts.

Import PyStr Re.
Local Open Scope string_scope.

Lemma fullmatch_Void s : fullmatch Void s = false.
Proof. induction s as [|c s IH]; [reflexivity | exact IH]. Qed.

Lemma fullmatch_Eps s : fullmatch Eps s = true -> s = "".
Proof.
  destruct s as [|c s]; [reflexivity|]. cbn [fullmatch deriv].
  now rewrite fullmatch_Void.
Qed.

Lemma fullmatch_Alt r1 r2 s :
  fullmatch (Alt r1 r2) s = fullmatch r1 s || fullmatch r2 s.
Proof.
  revert r1 r2. induction s as [|c s IH]; intros r1 r2; [reflexivity|].
  cbn [fullmatch deriv]. apply IH.
Qed.

Lemma fullmatch_Class p s :
  fullmatch (Class p) s = true -> exists c, s = String c "" /\ p c = true.
Proof.
  destruct s as [|c s]; [discriminate|]. cbn [fullmatch deriv].
  destruct (p c) eqn:Hp; [|now rewrite fullmatch_Void].
  intros H. apply fullmatch_Eps in H as ->. now exists c.
Qed.

(** A word of [r1 r2] is a word of [r1] followed by a word of [r2]. *)
Lemma fullmatch_Cat s : forall r1 r2,
  fullmatch (Cat r1 r2) s = true ->
  exists s1 s2, s = s1 ++ s2 /\
                fullmatch r1 s1 = true /\ fullmatch r2 s2 = true.
Proof.
  induction s as [|c s IH]; intros r1 r2 H.
  - cbn [fullmatch nullable] in H. apply andb_true_iff in H as [H1 H2].
    now exists "", "".
  - cbn [fullmatch deriv] in H. destruct (nullable r1) eqn:Hn.
    + rewrite fullmatch_Alt in H. apply orb_true_iff in H as [H|H].
      * apply IH in H as (s1 & s2 & -> & H1 & H2).
        now exists (String c s1), s2.
      * exists "", (String c s). now repeat split.
    + apply IH in H as (s1 & s2 & -> & H1 & H2).
      now exists (String c s1), s2.
Qed.

Lemma fullmatch_Opt r s :
  fullmatch (Opt r) s = true -> fullmatch r s = true \/ s = "".
Proof.
  unfold Opt. rewrite fullmatch_Alt. intros H.
  apply orb_true_iff in H as [H|H]; [now left | right].
  now apply fullmatch_Eps.
Qed.

(** The words of a starred class. *)
Lemma fullmatch_Star_Class p s :
  fullmatch (Star (Class p)) s = true -> all_chars p s = true.
Proof.
  induction s as [|c s IH]; [reflexivity|]. cbn [fullmatch deriv all_chars].
  intros H. apply fullmatch_Cat in H as (s1 & s2 & -> & H1 & H2).
  destruct (p c); [|now rewrite fullmatch_Void in H1].
  apply fullmatch_Eps in H1 as ->. now apply IH.
Qed.

Lemma fullmatch_Plus_Class p s :
  fullmatch (Plus (Class p)) s = true -> s <> "" /\ all_chars p s = true.
Proof.
  unfold Plus. intros H. apply fullmatch_Cat in H as (s1 & s2 & -> & H1 & H2).
  apply fullmatch_Class in H1 as (c & -> & Hc).
  apply fullmatch_Star_Class in H2. cbn [append all_chars].
  rewrite Hc, H2. now split.
Qed.

Lemma fullmatch_OneOf cs s :
  fullmatch (OneOf cs) s = true -> exists c, s = String c "" /\ In c cs.
Proof.
  unfold OneOf. intros H. apply fullmatch_Class in H as (c & -> & Hc).
  exists c. split; [reflexivity|].
  apply existsb_exists in Hc as (x & Hx & Heq).
  apply Ascii.eqb_eq in Heq. now subst.
Qed.

End Re_facts.

(* ================================================================== *)
(** * Numeric strings are floats                                        *)
(* ================================================================== *)

Module numeric_facts.

Import PyStr Re Re_facts PyFloat utils numeric_props.
Local Open Scope string_scope.

(** ** The characters of a word *)

Lemma deriv_within Q c r : classes_within Q r -> classes_within Q (deriv c r).
Proof.
  induction r as [| |p|r1 IH1 r2 IH2|r1 IH1 r2 IH2|r IH]; cbn [deriv classes_within].
  - trivial.
  - trivial.
  - intros _. destruct (p c); exact I.
  - intros [H1 H2]. destruct (nullable r1); cbn [classes_within]; auto.
  - intros [H1 H2]. auto.
  - intros H. auto.
Qed.

Lemma first_within Q c r : forall s,
  classes_within Q r -> fullmatch (deriv c r) s = true -> Q c = true.
Proof.
  induction r as [| |p|r1 IH1 r2 IH2|r1 IH1 r2 IH2|r IH]; intros s;
    cbn [deriv classes_within].
  - intros _. now rewrite fullmatch_Void.
  - intros _. now rewrite fullmatch_Void.
  - intros Hp. destruct (p c) eqn:Hc; [auto | now rewrite fullmatch_Void].
  - intros [H1 H2] H. destruct (nullable r1).
    + rewrite fullmatch_Alt in H. apply orb_true_iff in H as [H|H].
      * apply fullmatch_Cat in H as (s1 & s2 & _ & Hs1 & _). eauto.
      * eauto.
    + apply fullmatch_Cat in H as (s1 & s2 & _ & Hs1 & _). eauto.
  - intros [H1 H2] H. rewrite fullmatch_Alt in H.
    apply orb_true_iff in H as [H|H]; eauto.
  - intros Hr H. apply fullmatch_Cat in H as (s1 & s2 & _ & Hs1 & _). eauto.
Qed.

(** The characters of a word of [r] are characters of its classes. *)
Lemma fullmatch_within Q s : forall r,
  classes_within Q r -> fullmatch r s = true -> all_chars Q s = true.
Proof.
  induction s as [|c s IH]; intros r Hr H; [reflexivity|].
  cbn [fullmatch all_chars] in *.
  rewrite (first_within Q c r s Hr H). cbn [andb].
  apply (IH (deriv c r)); [now apply deriv_within | exact H].
Qed.

Lemma isdigit_code c : isdigit c = true -> (48 <= code c <= 57)%N.
Proof.
  unfold isdigit. intros H. apply andb_true_iff in H as [H1 H2].
  apply N.leb_le in H1, H2. lia.
Qed.

Lemma isdigit_nonblank c : isdigit c = true -> nonblank c = true.
Proof.
  intros H. apply isdigit_code in H. unfold nonblank, isspace.
  apply negb_true_iff.
  repeat (apply orb_false_iff; split);
    try (apply andb_false_iff; left; apply N.leb_gt; lia);
    try (apply andb_false_iff; right; apply N.leb_gt; lia);
    apply N.eqb_neq; lia.
Qed.

Lemma OneOf_within (Q : ascii -> bool) (cs : list ascii) :
  forallb Q cs = true ->
  forall c, existsb (Ascii.eqb c) cs = true -> Q c = true.
Proof.
  intros HQ c Hc. apply existsb_exists in Hc as (x & Hx & Heq).
  apply Ascii.eqb_eq in Heq. subst x.
  rewrite forallb_forall in HQ. now apply HQ.
Qed.

Lemma pattern_nonblank : classes_within nonblank pattern.
Proof.
  unfold pattern, Opt, Plus, OneOf, digit. cbn [classes_within].
  repeat split; try exact isdigit_nonblank;
    apply OneOf_within; reflexivity.
Qed.

(** ** [strip] on text without blanks *)

Lemma rstrip_nonblank s : all_chars nonblank s = true -> rstrip s = s.
Proof.
  induction s as [|c s IH]; [reflexivity|]. cbn [all_chars rstrip].
  intros H. apply andb_true_iff in H as [Hc Hs]. rewrite (IH Hs).
  unfold nonblank in Hc. apply negb_true_iff in Hc. rewrite Hc.
  destruct s; reflexivity.
Qed.

Lemma lstrip_nonblank s : all_chars nonblank s = true -> lstrip s = s.
Proof.
  destruct s as [|c s]; [reflexivity|]. cbn [all_chars lstrip].
  intros H. apply andb_true_iff in H as [Hc _].
  unfold nonblank in Hc. apply negb_true_iff in Hc. now rewrite Hc.
Qed.

Lemma strip_nonblank s : all_chars nonblank s = true -> strip s = s.
Proof.
  intros H. unfold strip. now rewrite lstrip_nonblank, rstrip_nonblank.
Qed.

Lemma rstrip_newline s :
  all_chars nonblank s = true -> rstrip (s ++ String newline "") = s.
Proof.
  induction s as [|c s IH]; [reflexivity|]. cbn [all_chars append rstrip].
  intros H. apply andb_true_iff in H as [Hc Hs]. rewrite (IH Hs).
  unfold nonblank in Hc. apply negb_true_iff in Hc. rewrite Hc.
  destruct s; reflexivity.
Qed.

Lemma strip_newline s :
  s <> "" -> all_chars nonblank s = true ->
  strip (s ++ String newline "") = s.
Proof.
  intros Hne H. unfold strip. destruct s as [|c s]; [now elim Hne|].
  pose proof H as H'. cbn [all_chars] in H'.
  apply andb_true_iff in H' as [Hc _].
  unfold nonblank in Hc. apply negb_true_iff in Hc.
  cbn [append lstrip]. rewrite Hc.
  now apply (rstrip_newline (String c s)).
Qed.

(** ** The shape of a numeric string *)

Lemma sign_shape s :
  fullmatch (Opt (OneOf ["-"; "+"]%char)) s = true -> is_sign s.
Proof.
  intros H. apply fullmatch_Opt in H as [H|H]; [|now left].
  apply fullmatch_OneOf in H as (c & -> & [<-|[<-|[]]]);
    [right; now left | right; now right].
Qed.

Lemma point_shape s : fullmatch (OneOf ["."%char]) s = true -> s = ".".
Proof.
  intros H. now apply fullmatch_OneOf in H as (c & -> & [<-|[]]).
Qed.

Lemma mantissa_of_pattern s :
  fullmatch (Alt (Cat (Plus digit)
                      (Opt (Cat (OneOf ["."%char]) (Star digit))))
                 (Cat (OneOf ["."%char]) (Plus digit))) s = true ->
  mantissa_shape s.
Proof.
  rewrite fullmatch_Alt. intros H. apply orb_true_iff in H as [H|H].
  - apply fullmatch_Cat in H as (a & f & -> & Ha & Hf).
    apply fullmatch_Plus_Class in Ha as [Hne Ha].
    exists a, f. repeat split; try assumption.
    apply fullmatch_Opt in Hf as [Hf| ->]; [right | now left].
    apply fullmatch_Cat in Hf as (p & b & -> & Hp & Hb).
    apply point_shape in Hp as ->. apply fullmatch_Star_Class in Hb.
    exists b. repeat split; auto.
  - apply fullmatch_Cat in H as (p & b & -> & Hp & Hb).
    apply point_shape in Hp as ->. apply fullmatch_Plus_Class in Hb as [Hne Hb].
    exists "", ("." ++ b). repeat split. right.
    exists b. repeat split; auto.
Qed.

Lemma exponent_of_pattern s :
  fullmatch (Opt (Cat (OneOf ["e"; "E"]%char)
                      (Cat (Opt (OneOf ["-"; "+"]%char)) (Plus digit)))) s
  = true ->
  exponent_shape s.
Proof.
  intros H. apply fullmatch_Opt in H as [H| ->]; [right | now left].
  apply fullmatch_Cat in H as (c0 & r & -> & Hc & Hr).
  apply fullmatch_OneOf in Hc as (c & -> & Hc).
  apply fullmatch_Cat in Hr as (sg & ds & -> & Hsg & Hds).
  apply sign_shape in Hsg. apply fullmatch_Plus_Class in Hds as [Hne Hds].
  exists c, sg, ds. repeat split; try assumption.
  destruct Hc as [<-|[<-|[]]]; auto.
Qed.

(** A word of the pattern: a sign, a mantissa, an exponent. *)
Lemma pattern_shape s :
  fullmatch pattern s = true ->
  exists sg mant ex, s = sg ++ mant ++ ex /\
    is_sign sg /\ mantissa_shape mant /\ exponent_shape ex.
Proof.
  unfold pattern. intros H.
  apply fullmatch_Cat in H as (sg & r & -> & Hsg & Hr).
  apply fullmatch_Cat in Hr as (mant & ex & -> & Hm & He).
  exists sg, mant, ex. split; [reflexivity|].
  split; [now apply sign_shape|].
  split; [now apply mantissa_of_pattern | now apply exponent_of_pattern].
Qed.

(** ** The parser on such a string *)

Lemma digitpart_digits ds : forall rest acc cnt,
  digits ds -> stops rest ->
  exists v, digitpart (ds ++ rest) acc cnt
            = (v, (cnt + Z.of_nat (String.length ds))%Z, rest).
Proof.
  induction ds as [|d ds IH]; intros rest acc cnt Hds Hrest.
  - cbn [append String.length]. exists acc.
    rewrite Z.add_0_r. destruct rest as [|c rest]; [reflexivity|].
    destruct Hrest as [Hc Hu]. cbn [digitpart]. rewrite Hc.
    apply Ascii.eqb_neq in Hu. now rewrite Hu.
  - unfold digits in Hds. cbn [all_chars] in Hds.
    apply andb_true_iff in Hds as [Hd Hds].
    cbn [append digitpart String.length]. rewrite Hd.
    destruct (IH rest (10 * acc + digit_value d)%Z (cnt + 1)%Z Hds Hrest)
      as [v Hv].
    exists v. rewrite Hv. f_equal. f_equal. lia.
Qed.

Lemma nonempty_length s : s <> "" -> (0 < Z.of_nat (String.length s))%Z.
Proof. destruct s; [now intros [] | cbn [String.length]; lia]. Qed.

Lemma isdigit_neq c x : isdigit c = true -> isdigit x = false ->
  (c =? x)%char = false.
Proof.
  intros Hc Hx. apply Ascii.eqb_neq. intros ->. congruence.
Qed.

(** The sign of a string that begins with a digit or a point. *)
Lemma sign_none c s :
  isdigit c = true \/ c = "."%char -> sign (String c s) = (false, String c s).
Proof.
  intros [H| ->]; [|reflexivity]. cbn [sign].
  rewrite (@isdigit_neq c "-" H eq_refl), (@isdigit_neq c "+" H eq_refl).
  reflexivity.
Qed.

Lemma exponent_ok ex :
  exponent_shape ex -> exists e, exponent ex = Some (e, "").
Proof.
  intros [->|(c & sg & ds & -> & Hc & Hsg & Hds & Hne)]; [now exists 0%Z|].
  cbn [exponent].
  assert (Hce : ((c =? "e")%char || (c =? "E")%char) = true)
    by (destruct Hc as [->| ->]; reflexivity).
  rewrite Hce.
  assert (Hsign : exists neg, sign (sg ++ ds) = (neg, ds)).
  { destruct Hsg as [->|[->| ->]]; [|now exists true | now exists false].
    exists false. cbn [append]. destruct ds as [|d ds]; [now elim Hne|].
    unfold digits in Hds. cbn [all_chars] in Hds.
    apply andb_true_iff in Hds as [Hd _]. apply sign_none. now left. }
  destruct Hsign as [neg ->].
  destruct (@digitpart_digits ds "" 0%Z 0%Z Hds I) as [v Hv].
  rewrite PyStr_facts.append_empty_r in Hv. rewrite Hv.
  pose proof (nonempty_length Hne) as Hlen.
  apply Z.ltb_lt in Hlen. cbn [Z.add]. rewrite Hlen. eauto.
Qed.

Lemma exponent_stops ex : exponent_shape ex -> stops ex.
Proof.
  intros [->|(c & sg & ds & -> & Hc & _)]; [exact I|].
  destruct Hc as [->| ->]; split; (reflexivity || discriminate).
Qed.

Lemma exponent_no_point ex :
  exponent_shape ex ->
  match ex with
  | String c _ => (c =? ".")%char = false
  | "" => True
  end.
Proof.
  intros [->|(c & sg & ds & -> & Hc & _)]; [exact I|].
  destruct Hc as [->| ->]; reflexivity.
Qed.

Lemma floatnumber_ok mant ex :
  mantissa_shape mant -> exponent_shape ex ->
  exists m e, floatnumber (mant ++ ex) = Some (m, e).
Proof.
  intros (a & f & -> & Ha & Hf) Hex. unfold floatnumber.
  rewrite PyStr_facts.append_assoc.
  destruct (exponent_ok Hex) as [e He].
  destruct Hf as [[-> Hne]|(b & -> & Hb & Hne)].
  - cbn [append].
    destruct (@digitpart_digits a ex 0%Z 0%Z Ha (exponent_stops Hex)) as [ip ->].
    pose proof (exponent_no_point Hex) as Hp.
    assert (Hfrac : match ex with
                    | String c s1' =>
                        if (c =? ".")%char then digitpart s1' ip 0 else (ip, 0%Z, ex)
                    | "" => (ip, 0%Z, ex)
                    end = (ip, 0%Z, ex)).
    { destruct ex as [|c ex]; [reflexivity | now rewrite Hp]. }
    rewrite Hfrac, He.
    pose proof (nonempty_length Hne) as Hlen.
    assert (Hpos : (0 <? 0 + Z.of_nat (String.length a) + 0)%Z = true)
      by (apply Z.ltb_lt; lia).
    rewrite Hpos. eauto.
  - assert (Hstop : stops (String "." b ++ ex))
      by (split; [reflexivity | discriminate]).
    destruct (@digitpart_digits a (String "." b ++ ex) 0%Z 0%Z Ha Hstop)
      as [ip ->].
    cbn [append]. cbn [Ascii.eqb Bool.eqb].
    destruct (@digitpart_digits b ex ip 0%Z Hb (exponent_stops Hex)) as [m ->].
    rewrite He.
    assert (Hpos : (0 <? 0 + Z.of_nat (String.length a)
                         + (0 + Z.of_nat (String.length b)))%Z = true).
    { apply Z.ltb_lt. destruct Hne as [Hne|Hne];
        pose proof (nonempty_length Hne); lia. }
    rewrite Hpos. eauto.
Qed.

(** A mantissa begins with a digit or a point. *)
Lemma mantissa_first mant ex :
  mantissa_shape mant ->
  exists c rest, mant ++ ex = String c rest /\
                 (isdigit c = true \/ c = "."%char).
Proof.
  intros (a & f & -> & Ha & Hf). destruct a as [|d a].
  - destruct Hf as [[_ Hne]|(b & -> & _)]; [now elim Hne|].
    cbn [append]. eauto.
  - unfold digits in Ha. cbn [all_chars] in Ha.
    apply andb_true_iff in Ha as [Hd _]. cbn [append]. eauto.
Qed.

Lemma lower_first c :
  isdigit c = true \/ c = "."%char ->
  (lower c =? "i")%char = false /\ (lower c =? "n")%char = false.
Proof.
  intros [H| ->]; [|split; reflexivity].
  assert (Hl : lower c = c).
  { unfold lower. apply isdigit_code in H.
    assert (Hup : (65 <=? code c)%N = false) by (apply N.leb_gt; lia).
    now rewrite Hup. }
  rewrite Hl. split; apply isdigit_neq; auto.
Qed.

(** [float] reads a word of the pattern as a decimal number. *)
Lemma float_of_pattern s :
  fullmatch pattern s = true ->
  forall t, strip t = s ->
  exists neg m e, float_of_string t = ret (SF2Prim (round_decimal neg m e)).
Proof.
  intros H t Ht. apply pattern_shape in H as (sg & mant & ex & -> & Hsg & Hm & He).
  unfold float_of_string. rewrite Ht.
  destruct (mantissa_first ex Hm) as (c & rest & Hbody & Hc).
  assert (Hsign : exists neg, sign (sg ++ mant ++ ex) = (neg, mant ++ ex)).
  { destruct Hsg as [->|[->| ->]]; [|now exists true | now exists false].
    exists false. cbn [append]. rewrite Hbody. now apply sign_none. }
  destruct Hsign as [neg ->].
  destruct (floatnumber_ok Hm He) as (m & e & Hf).
  rewrite Hbody in *. cbn [lowercase String.eqb].
  destruct (lower_first Hc) as [-> ->]. cbn [orb].
  rewrite Hf. now exists neg, m, e.
Qed.

(** [float] accepts every name [is_numeric_string] accepts. *)
Theorem numeric_string_is_decimal s :
  is_numeric_string s = true ->
  exists neg m e, float_of_string s = ret (SF2Prim (round_decimal neg m e)).
Proof.
  unfold is_numeric_string, match_anchored. intros H.
  destruct (fullmatch pattern s) eqn:Hp.
  - apply (float_of_pattern Hp). apply strip_nonblank.
    exact (fullmatch_within nonblank s pattern pattern_nonblank Hp).
  - cbn [orb] in H.
    destruct (fullmatch (Cat pattern (Class (Ascii.eqb newline))) s) eqn:Hn;
      [|discriminate].
    apply fullmatch_Cat in Hn as (s1 & s2 & -> & H1 & H2).
    apply fullmatch_Class in H2 as (c & -> & Hc).
    apply Ascii.eqb_eq in Hc. subst c.
    apply (float_of_pattern H1). apply strip_newline.
    + intros ->. discriminate H1.
    + exact (fullmatch_within nonblank s1 pattern pattern_nonblank H1).
Qed.

(** ** The float read is no NaN *)

Local Open Scope Z_scope.
Import F64_facts.

Lemma binary_round_aux_not_nan (s : bool) (m e : Z) (l : location) :
  0 <= m -> binary_round_aux prec emax s m e l <> S754_nan.
Proof.
  intros Hm. unfold binary_round_aux.
  pose proof (@shr_fexp_bound m e l Hm) as [Hm1 _].
  destruct (shr_fexp prec emax m e l) as [r1 e1]. cbn [fst] in Hm1.
  pose proof (round_nearest_even_bound (shr_m r1) (loc_of_shr_record r1))
    as Hm2.
  assert (Hm2' : 0 <= round_nearest_even (shr_m r1) (loc_of_shr_record r1))
    by lia.
  pose proof (@shr_fexp_bound _ e1 loc_Exact Hm2') as [Hm3 _].
  destruct (shr_fexp prec emax _ e1 loc_Exact) as [r2 e2]. cbn [fst] in Hm3.
  destruct (shr_m r2) as [|p|p]; [discriminate | | lia].
  destruct (e2 <=? emax - prec); discriminate.
Qed.

Lemma binary_round_not_nan (s : bool) (m : positive) (e : Z) :
  binary_round prec emax s m e <> S754_nan.
Proof.
  unfold binary_round. destruct (shl_align m e _) as [mz ez].
  apply binary_round_aux_not_nan. lia.
Qed.

Lemma SFdiv_finite_not_nan (sx sy : bool) (mx my : positive) (ex ey : Z) :
  SF64div (S754_finite sx mx ex) (S754_finite sy my ey) <> S754_nan.
Proof.
  unfold SF64div, SFdiv, SFdiv_core_binary.
  set (sh := ex - ey - _).
  set (m' := match sh with Z0 => Zpos mx | Zpos _ => Z.shiftl (Zpos mx) sh
                         | Zneg _ => 0 end).
  assert (Hm' : 0 <= m').
  { unfold m'. destruct sh; try lia. apply Z.shiftl_nonneg. lia. }
  pose proof (Z.div_pos m' (Zpos my) Hm' ltac:(lia)) as Hq.
  unfold Z.div in Hq.
  destruct (Z.div_eucl m' (Zpos my)) as [q r].
  now apply binary_round_aux_not_nan.
Qed.

Lemma round_decimal_not_nan (neg : bool) (m e : Z) :
  round_decimal neg m e <> S754_nan.
Proof.
  unfold round_decimal. destruct m as [|p|p]; try discriminate.
  destruct (0 <=? e).
  - apply binary_round_not_nan.
  - apply SFdiv_finite_not_nan.
Qed.

Lemma SFopp_not_nan x : x <> S754_nan -> SFopp x <> S754_nan.
Proof. destruct x; cbn [SFopp]; congruence. Qed.

Lemma SFldexp_not_nan x e : x <> S754_nan -> SFldexp prec emax x e <> S754_nan.
Proof.
  destruct x as [s|s| |s m ex]; cbn [SFldexp]; try congruence.
  intros _. apply binary_round_not_nan.
Qed.

Lemma of_uint63_not_nan (i : int) : Prim2SF (of_uint63 i) <> S754_nan.
Proof.
  rewrite of_uint63_spec. change Uint63Axioms.to_Z with Uint63.to_Z.
  pose proof (Uint63.to_Z_bounded i) as [H0 _].
  destruct (Uint63.to_Z i) as [|p|p]; cbn [binary_normalize];
    [discriminate | apply binary_round_not_nan | lia].
Qed.

(** [SF2Prim] yields a NaN for the NaN only. *)
Lemma SF2Prim_not_nan (x : spec_float) :
  x <> S754_nan -> Prim2SF (SF2Prim x) <> S754_nan.
Proof.
  destruct x as [[|]|[|]| |s m e]; try discriminate; [congruence|].
  intros _. cbn [SF2Prim].
  assert (Hf : Prim2SF (Z.ldexp (of_uint63 (Uint63.of_Z (Zpos m))) e)
               <> S754_nan).
  { rewrite Z_ldexp_spec. apply SFldexp_not_nan, of_uint63_not_nan. }
  destruct s; [|exact Hf]. rewrite opp_spec. now apply SFopp_not_nan.
Qed.

Lemma SFcompare_refl (x : spec_float) :
  x <> S754_nan -> SFcompare x x = Some Eq.
Proof.
  destruct x as [s|[|]| |[|] m e]; try reflexivity; try congruence;
    intros _; cbn [SFcompare];
    rewrite Z.compare_refl, Pos.compare_cont_spec, Pos.compare_refl;
    reflexivity.
Qed.

Lemma eqb_refl (x : float) :
  Prim2SF x <> S754_nan -> (x =? x)%float = true.
Proof.
  intros H. rewrite FloatAxioms.eqb_spec. unfold SFeqb.
  now rewrite SFcompare_refl.
Qed.

(** [float] reads every name [is_numeric_string] accepts, and none as a
    NaN. *)
Theorem numeric_string_float (s : string) :
  is_numeric_string s = true ->
  exists k, float_of_string s = ret k /\ (k =? k)%float = true.
Proof.
  intros H. apply numeric_string_is_decimal in H as (neg & m & e & ->).
  eexists. split; [reflexivity|].
  apply eqb_refl, SF2Prim_not_nan, round_decimal_not_nan.
Qed.

End numeric_facts.


(* ================================================================== *)
(** * Properties of the case-parameter deriver                          *)
(* ================================================================== *)

Module oneDflame_setup_facts.

Import oneDflame_setup fixtures.
Local Open Scope string_scope.
Local Open Scope float_scope.

(** The value returned once the three guards are passed. *)
Lemma update_case_parameters_guarded mp gs fs ft :
  mp <> ""%string -> (fs <=? 0) = false -> (ft <=? 0) = false ->
  update_case_parameters mp gs fs ft =
  ret {| mechanism_path := mp;
         cp_gas_state := gs;
         flame_speed := fs;
         flame_thickness := ft;
         domain_width := ft * 5;
         domain_length := ft * 5 * 10;
         half_domain_length := ft * 5 * 10 / 2;
         target_time_step := 0x1.0c6f7a0b5ed8dp-20;
         chemical_time_scale := ft / fs;
         sample_time_steps := 100%Z;
         estimated_time_step := ft / fs / 10;
         estimated_sim_time := ft / fs / 10 * 100;
         estimated_write_time_step := ft / fs / 10 |}.
Proof.
  intros Hmp Hfs Hft. unfold update_case_parameters.
  apply String.eqb_neq in Hmp. rewrite Hmp, Hfs, Hft.
  rewrite (F64_facts.truediv_nonzero _ (y := 2)) by reflexivity.
  cbn [bind ret].
  rewrite (F64_facts.truediv_nonzero _ (y := fs)) by now apply F64_facts.not_le0_not_zero.
  cbn [bind ret].
  rewrite (F64_facts.truediv_nonzero _ (y := 10)) by reflexivity.
  reflexivity.
Qed.

(** C1 (as amended): for a non-empty mechanism path, [flame_speed > 0]
    and [flame_thickness > 0] the deriver returns a bundle with
    [domain_width = 5 * flame_thickness],
    [domain_length = 10 * domain_width] (so [10 * (5 * flame_thickness)],
    each product rounded to binary64),
    [half_domain_length = domain_length / 2],
    [chemical_time_scale = flame_thickness / flame_speed],
    [estimated_time_step = chemical_time_scale / 10] and
    [estimated_sim_time = estimated_time_step * 100]. *)
Theorem update_case_parameters_derived mp gs fs ft :
  mp <> ""%string -> (0 <? fs) = true -> (0 <? ft) = true ->
  exists cp,
    update_case_parameters mp gs fs ft = ret cp /\
    domain_width cp = 5 * ft /\
    domain_length cp = 10 * domain_width cp /\
    domain_length cp = 10 * (5 * ft) /\
    half_domain_length cp = domain_length cp / 2 /\
    chemical_time_scale cp = ft / fs /\
    estimated_time_step cp = chemical_time_scale cp / 10 /\
    estimated_sim_time cp = estimated_time_step cp * 100 /\
    estimated_sim_time cp = ft / fs / 10 * 100.
Proof.
  intros Hmp Hfs Hft.
  eexists. split.
  - apply update_case_parameters_guarded;
      [exact Hmp | now apply F64_facts.pos_not_le0 ..].
  - cbn [domain_width domain_length half_domain_length chemical_time_scale
         estimated_time_step estimated_sim_time].
    rewrite (F64_facts.mul_comm 5 ft), (F64_facts.mul_comm 10 (ft * 5)).
    repeat split.
Qed.

Lemma update_case_parameters_derived_witness :
  exists cp,
    update_case_parameters "mechanisms/h2.yaml" [] 2 0x1p-11 = ret cp /\
    domain_width cp = 5 * 0x1p-11 /\
    domain_length cp = 10 * domain_width cp /\
    domain_length cp = 10 * (5 * 0x1p-11) /\
    half_domain_length cp = domain_length cp / 2 /\
    chemical_time_scale cp = 0x1p-11 / 2 /\
    estimated_time_step cp = chemical_time_scale cp / 10 /\
    estimated_sim_time cp = estimated_time_step cp * 100 /\
    estimated_sim_time cp = 0x1p-11 / 2 / 10 * 100.
Proof.
  apply (@update_case_parameters_derived "mechanisms/h2.yaml" [] 2 0x1p-11).
  - discriminate.
  - reflexivity.
  - reflexivity.
Defined.

(** C1 (as stated) fails: at [flame_thickness = 1 + 2^-52] the returned
    [domain_length], the twice rounded [(flame_thickness * 5) * 10], is not
    the once rounded [50 * flame_thickness]. *)
Lemma domain_length_not_50_times :
  exists cp,
    update_case_parameters "mechanisms/h2.yaml" [] 1 one_plus_ulp = ret cp /\
    (0 <? 1) = true /\ (0 <? one_plus_ulp) = true /\
    domain_length cp <> 50 * one_plus_ulp /\
    (domain_length cp =? 50 * one_plus_ulp) = false.
Proof.
  eexists. split; [reflexivity|].
  repeat split; try reflexivity.
  cbn [domain_length]. intro H.
  apply (f_equal Prim2SF) in H. vm_compute in H. discriminate H.
Qed.

(** C6: a non-positive flame speed or a non-positive flame thickness makes
    the deriver raise [ValueError] (the spec's InvalidParameter); no
    bundle is returned. *)
Theorem update_case_parameters_rejects mp gs fs ft :
  (fs <=? 0) = true \/ (ft <=? 0) = true ->
  (exists msg, update_case_parameters mp gs fs ft = raise (ValueError msg)) /\
  forall cp, update_case_parameters mp gs fs ft <> ret cp.
Proof.
  intros H. unfold update_case_parameters.
  destruct (mp =? "")%string.
  - split; [eexists; reflexivity | discriminate].
  - destruct (fs <=? 0) eqn:Hfs.
    + split; [eexists; reflexivity | discriminate].
    + destruct H as [H|H]; [discriminate H|]. rewrite H.
      split; [eexists; reflexivity | discriminate].
Qed.

Lemma update_case_parameters_rejects_witness :
  (exists msg,
      update_case_parameters "mechanisms/h2.yaml" [] (-1) 0x1p-11
      = raise (ValueError msg)) /\
  forall cp,
    update_case_parameters "mechanisms/h2.yaml" [] (-1) 0x1p-11 <> ret cp.
Proof.
  apply (@update_case_parameters_rejects "mechanisms/h2.yaml" [] (-1) 0x1p-11).
  left. reflexivity.
Defined.

End oneDflame_setup_facts.
(* ================================================================== *)
(** * The time directories                                              *)
(* ================================================================== *)

Module time_dirs_facts.

Import oneD_sampler fixtures sampler_props.
Local Open Scope string_scope.

(** For directories named 0, 2 and 10, met in any order among other
    entries, the processed order is 2, 10. *)
Lemma time_dirs_0_2_10 :
  Forall (fun cwd => (ds <- time_dirs cwd ;; ret (map name ds)) = ret ["2"; "10"])
    [ [dir "0" []; dir "2" []; dir "10" []];
      [dir "0" []; dir "10" []; dir "2" []];
      [dir "2" []; dir "0" []; dir "10" []];
      [dir "2" []; dir "10" []; dir "0" []];
      [dir "10" []; dir "0" []; dir "2" []];
      [dir "10" []; dir "2" []; dir "0" []];
      [dir "constant" []; dir "10" []; file "Allrun"; dir "system" [];
       dir "2" []; file "log.reconstructPar"; dir "0" []] ].
Proof. repeat constructor. Qed.

(** What [[1:]] drops is the first entry in the order.  In a listing
    with a directory named -1, which no simulation leaves, that entry
    is the first. *)
Lemma time_dirs_keeps_zero_time :
  (ds <- time_dirs [dir "2" []; dir "0" []; dir "-1" []] ;; ret (map name ds))
  = ret ["0"; "2"].
Proof. reflexivity. Qed.

(** In a listing without a directory for time zero, which no
    simulation leaves either, the first entry is the first time. *)
Lemma time_dirs_drops_first_sample :
  (ds <- time_dirs [dir "1" []; dir "2" []; dir "3" []] ;; ret (map name ds))
  = ret ["2"; "3"].
Proof. reflexivity. Qed.

(** ** The order of the time directories in general *)

Lemma insert_keyed_Permutation {A} (x : float * A) (l : list (float * A)) :
  Permutation (insert_keyed x l) (x :: l).
Proof.
  induction l as [|y l IH]; cbn [insert_keyed]; [reflexivity|].
  destruct (fst y <? fst x)%float; [|reflexivity].
  rewrite IH. apply perm_swap.
Qed.

Lemma sort_keyed_Permutation {A} (l : list (float * A)) :
  Permutation (sort_keyed l) l.
Proof.
  induction l as [|x l IH]; cbn [sort_keyed]; [reflexivity|].
  rewrite insert_keyed_Permutation. now apply perm_skip.
Qed.

Lemma insert_keyed_sorted {A} (x : float * A) (l : list (float * A)) :
  no_nan x -> Forall no_nan l -> StronglySorted key_le l ->
  StronglySorted key_le (insert_keyed x l).
Proof.
  intros Hx Hl Hs. induction Hs as [|y l Hs IH Hy]; cbn [insert_keyed].
  - constructor; constructor.
  - inversion Hl as [|y' l' Hny Hnl]; subst.
    destruct (fst y <? fst x)%float eqn:Hlt.
    + constructor; [now apply IH|].
      eapply Permutation_Forall;
        [symmetry; apply insert_keyed_Permutation|].
      constructor; [|assumption]. now apply F64_facts.ltb_leb.
    + assert (Hxy : key_le x y) by now apply F64_facts.not_ltb_leb.
      constructor; [now constructor|].
      constructor; [assumption|].
      rewrite Forall_forall in Hy, Hnl |- *. intros z Hz.
      apply (@F64_facts.leb_trans (fst x) (fst y) (fst z));
        [exact Hx | exact Hny | exact (Hnl z Hz) | exact Hxy | exact (Hy z Hz)].
Qed.

Lemma sort_keyed_sorted {A} (l : list (float * A)) :
  Forall no_nan l -> StronglySorted key_le (sort_keyed l).
Proof.
  induction 1 as [|x l Hx Hl IH]; cbn [sort_keyed]; [constructor|].
  apply insert_keyed_sorted; try assumption.
  eapply Permutation_Forall; [symmetry; apply sort_keyed_Permutation|].
  assumption.
Qed.

(** The keys [sorted] attaches are those of the items. *)
Lemma keyed_items {A} (key : A -> result float) (l : list A) :
  forall keyed,
    mapM (fun a => k <- key a ;; ret (k, a)) l = ret keyed ->
    map snd keyed = l /\
    Forall (fun ka => key (snd ka) = ret (fst ka)) keyed.
Proof.
  induction l as [|a l IH]; intros keyed H; cbn [mapM] in H.
  - injection H as <-. split; constructor.
  - destruct (key a) as [e|k] eqn:Hk; cbn [bind ret] in H; [discriminate|].
    destruct (mapM _ l) as [e|keyed'] eqn:Hm; cbn [bind ret] in H;
      [discriminate|].
    injection H as <-. destruct (IH keyed' eq_refl) as [Hsnd Hkeys].
    cbn [map snd]. split; [now rewrite Hsnd | now constructor].
Qed.

Lemma StronglySorted_tl {A} (R : A -> A -> Prop) (l : list A) :
  StronglySorted R l -> StronglySorted R (tl l).
Proof. destruct 1; [constructor | assumption]. Qed.

Lemma StronglySorted_map {A B} (f : A -> B) (R : A -> A -> Prop)
    (S : B -> B -> Prop) (l : list A) :
  (forall a b, In a l -> In b l -> R a b -> S (f a) (f b)) ->
  StronglySorted R l -> StronglySorted S (map f l).
Proof.
  intros HRS Hs. induction Hs as [|x l Hs IH Hx]; cbn [map]; constructor.
  - apply IH. intros a b Ha Hb. apply HRS; now right.
  - rewrite Forall_forall in Hx |- *. intros y Hy.
    apply in_map_iff in Hy as (z & <- & Hz).
    apply HRS; [now left | now right | now apply Hx].
Qed.

Lemma mapM_returns {A B} (f : A -> result B) (l : list A) :
  (forall a, In a l -> exists b, f a = ret b) ->
  exists bs, mapM f l = ret bs.
Proof.
  induction l as [|a l IH]; intros Hf; [now exists []|].
  destruct (Hf a (or_introl eq_refl)) as [b Hb].
  destruct IH as [bs Hbs]; [intros x Hx; apply Hf; now right|].
  exists (b :: bs). cbn [mapM]. rewrite Hb. cbn [bind ret].
  rewrite Hbs. reflexivity.
Qed.

Lemma numeric_dirs_numeric (cwd : directory) (d : dir_entry) :
  In d (numeric_dirs cwd) ->
  is_dir d = true /\ utils.is_numeric_string (name d) = true.
Proof.
  unfold numeric_dirs. intros H. apply filter_In in H as [_ H].
  now apply andb_true_iff in H.
Qed.

(** [time_dirs] returns for every working directory.  What it returns
    are the directories with a numeric name in ascending order of the
    numeric values, without the first of them in this order. *)
Theorem time_dirs_sorted (cwd : directory) :
  exists all ds,
    time_dirs cwd = ret ds /\ ds = tl all /\
    Permutation all (numeric_dirs cwd) /\
    StronglySorted time_le all /\ StronglySorted time_le ds /\
    Forall (fun d => is_dir d = true /\
                     utils.is_numeric_string (name d) = true) ds.
Proof.
  unfold time_dirs, sorted. fold (numeric_dirs cwd).
  destruct (@mapM_returns _ _
              (fun d => k <- PyFloat.float_of_string (name d) ;; ret (k, d))
              (numeric_dirs cwd)) as [keyed Hm].
  { intros d Hd. apply numeric_dirs_numeric in Hd as [_ Hd].
    apply numeric_facts.numeric_string_float in Hd as (k & -> & _).
    now exists (k, d). }
  rewrite Hm. cbn [bind ret].
  destruct (keyed_items _ _ Hm) as [Hsnd Hkeys].
  assert (Hperm : Permutation (map snd (sort_keyed keyed)) (numeric_dirs cwd)).
  { rewrite <- Hsnd. apply Permutation_map, sort_keyed_Permutation. }
  assert (Hnan : Forall no_nan keyed).
  { rewrite Forall_forall in Hkeys |- *. intros ka Hka. unfold no_nan.
    assert (Hd : In (snd ka) (numeric_dirs cwd))
      by (rewrite <- Hsnd; now apply in_map).
    apply numeric_dirs_numeric in Hd as [_ Hd].
    apply numeric_facts.numeric_string_float in Hd as (k & Hk & Hkk).
    rewrite (Hkeys ka Hka) in Hk. injection Hk as <-. exact Hkk. }
  assert (Hkeys' : Forall (fun ka =>
            PyFloat.float_of_string (name (snd ka)) = ret (fst ka))
            (sort_keyed keyed)).
  { eapply Permutation_Forall; [symmetry; apply sort_keyed_Permutation|].
    exact Hkeys. }
  assert (Hsorted : StronglySorted time_le (map snd (sort_keyed keyed))).
  { rewrite Forall_forall in Hkeys'.
    apply (@StronglySorted_map _ _ snd key_le).
    - intros a b Ha Hb Hab. exists (fst a), (fst b).
      repeat split; [now apply Hkeys' | now apply Hkeys' | exact Hab].
    - now apply sort_keyed_sorted. }
  exists (map snd (sort_keyed keyed)), (tl (map snd (sort_keyed keyed))).
  repeat split; try assumption.
  - now apply StronglySorted_tl.
  - rewrite Forall_forall. intros d Hd. apply numeric_dirs_numeric with cwd.
    apply (Permutation_in _ Hperm).
    destruct (map snd (sort_keyed keyed)); [contradiction | now right].
Qed.

End time_dirs_facts.

(* ================================================================== *)
(** * The directory of time zero                                     *)
(* ================================================================== *)

Module zero_time_facts.

Import oneD_sampler fixtures sampler_props time_props.
Local Open Scope string_scope.

(** Nothing behind zero is at most a zero. *)
Lemma after_zero_not_below (a b : float) :
  (0 <? a)%float = true -> (b =? 0)%float = true ->
  (a <=? b)%float = false.
Proof.
  rewrite FloatAxioms.ltb_spec, FloatAxioms.eqb_spec, FloatAxioms.leb_spec.
  rewrite F64_facts.Prim2SF_zero. unfold SFltb, SFeqb, SFleb.
  destruct (Prim2SF b) as [sb|[|]| |[|] mb eb]; cbn [SFcompare];
    try discriminate.
  destruct (Prim2SF a) as [sa|[|]| |[|] ma ea]; cbn [SFcompare];
    congruence.
Qed.

Lemma not_both_times (d : dir_entry) :
  at_time_zero d -> after_time_zero d -> False.
Proof.
  intros (k & Hk & H0) (k' & Hk' & Hpos).
  rewrite Hk in Hk'. injection Hk' as <-.
  apply F64_facts.pos_not_le0, F64_facts.not_le0_not_zero in Hpos.
  congruence.
Qed.

(** C2: the scan of a working directory as the simulation leaves it,
    with the directory of time zero, whose name reads as zero, and the
    other directories of a numeric name at times behind zero.  The
    time directories processed are the directories with a numeric name
    other than the one of time zero, these and no others, in ascending
    order of the numeric value of the name: the zero-time entry is
    excluded. *)
Theorem time_dirs_excludes_zero_time
    (cwd : directory) (before after : list dir_entry) (zero : dir_entry) :
  numeric_dirs cwd = (before ++ zero :: after)%list ->
  at_time_zero zero ->
  Forall after_time_zero (before ++ after) ->
  exists ds,
    time_dirs cwd = ret ds /\
    Permutation ds (before ++ after) /\
    StronglySorted time_le ds /\
    ~ In zero ds /\
    forall d,
      In d ds <->
      In d cwd /\ is_dir d = true /\
      utils.is_numeric_string (name d) = true /\ d <> zero.
Proof.
  intros Hdirs Hzero Hlater.
  unfold time_dirs, sorted. fold (numeric_dirs cwd).
  destruct (@time_dirs_facts.mapM_returns _ _
              (fun d => k <- PyFloat.float_of_string (name d) ;; ret (k, d))
              (numeric_dirs cwd)) as [keyed Hm].
  { intros d Hd. apply time_dirs_facts.numeric_dirs_numeric in Hd as [_ Hd].
    apply numeric_facts.numeric_string_float in Hd as (k & -> & _).
    now exists (k, d). }
  rewrite Hm. cbn [bind ret].
  destruct (time_dirs_facts.keyed_items _ _ Hm) as [Hsnd Hkeys].
  pose proof (time_dirs_facts.sort_keyed_Permutation keyed) as Hperm.
  assert (Hnan : Forall no_nan keyed).
  { rewrite Forall_forall in Hkeys |- *. intros ka Hka. unfold no_nan.
    assert (Hd : In (snd ka) (numeric_dirs cwd))
      by (rewrite <- Hsnd; now apply in_map).
    apply time_dirs_facts.numeric_dirs_numeric in Hd as [_ Hd].
    apply numeric_facts.numeric_string_float in Hd as (k & Hk & Hkk).
    rewrite (Hkeys ka Hka) in Hk. injection Hk as <-. exact Hkk. }
  pose proof (time_dirs_facts.sort_keyed_sorted Hnan) as Hsorted.
  assert (Hkeys' : Forall (fun ka =>
            PyFloat.float_of_string (name (snd ka)) = ret (fst ka))
            (sort_keyed keyed)).
  { eapply Permutation_Forall; [symmetry; exact Hperm | exact Hkeys]. }
  assert (Hall : Permutation (map snd (sort_keyed keyed))
                             (before ++ zero :: after)).
  { rewrite <- Hdirs, <- Hsnd. now apply Permutation_map. }
  (* the first of the sorted directories is the one of time zero *)
  destruct (sort_keyed keyed) as [|h t] eqn:Hs.
  { apply Permutation_nil in Hall. now destruct before. }
  assert (Hh : snd h = zero).
  { assert (Hin : In (snd h) (before ++ zero :: after))
      by (apply (Permutation_in _ Hall); now left).
    apply in_app_or in Hin as [Hin|[Heq|Hin]]; [|now symmetry|].
    all: assert (Hlate : after_time_zero (snd h))
      by (rewrite Forall_forall in Hlater; apply Hlater;
          apply in_or_app; auto).
    all: exfalso; destruct Hlate as (k & Hk & Hpos).
    all: pose proof (Forall_inv Hkeys') as Hkh;
      pose proof (Forall_inv_tail Hkeys') as Hkt; cbn beta in Hkh.
    all: rewrite Hkh in Hk; injection Hk as <-.
    all: assert (Hz : In zero (map snd (h :: t)))
      by (apply (Permutation_in _ (Permutation_sym Hall));
          apply in_or_app; right; now left).
    all: destruct Hz as [Hz|Hz];
      [apply (@not_both_times zero); [exact Hzero|]; rewrite <- Hz;
       now exists (fst h)|].
    all: apply in_map_iff in Hz as (z & Hz & Hzt).
    all: apply StronglySorted_inv in Hsorted as [_ Hle].
    all: rewrite Forall_forall in Hle, Hkt.
    all: pose proof (Hle z Hzt) as Hhz; pose proof (Hkt z Hzt) as Hkz.
    all: destruct Hzero as (k0 & Hk0 & H0).
    all: rewrite Hz, Hk0 in Hkz; injection Hkz as Hkz.
    all: unfold key_le in Hhz; rewrite <- Hkz in Hhz.
    all: rewrite (after_zero_not_below Hpos H0) in Hhz;
      discriminate Hhz. }
  cbn [map tl] in Hall |- *. rewrite Hh in Hall.
  apply Permutation_cons_app_inv in Hall.
  assert (Hnot : ~ In zero (map snd t)).
  { intros Hin. apply (Permutation_in _ Hall) in Hin.
    rewrite Forall_forall in Hlater.
    exact (not_both_times Hzero (Hlater _ Hin)). }
  exists (map snd t). split; [reflexivity|]. split; [exact Hall|].
  split; [|split; [exact Hnot|]].
  - apply StronglySorted_inv in Hsorted as [Ht _].
    pose proof (Forall_inv_tail Hkeys') as Hkt.
    rewrite Forall_forall in Hkt.
    apply (@time_dirs_facts.StronglySorted_map _ _ snd key_le);
      [|exact Ht].
    intros a b Ha Hb Hab. exists (fst a), (fst b).
    repeat split; [now apply Hkt | now apply Hkt | exact Hab].
  - intros d. split.
    + intros Hd.
      assert (Hd' : In d (numeric_dirs cwd)).
      { rewrite Hdirs. apply (Permutation_in _ Hall) in Hd.
        apply in_app_or in Hd as [Hd|Hd]; apply in_or_app;
          [now left | right; now right]. }
      unfold numeric_dirs in Hd'. apply filter_In in Hd' as [Hc Hf].
      apply andb_true_iff in Hf as [Hf1 Hf2].
      repeat split; try assumption. intros ->. contradiction.
    + intros (Hc & Hdir & Hnum & Hne).
      assert (Hd' : In d (numeric_dirs cwd)).
      { unfold numeric_dirs. apply filter_In. split; [exact Hc|].
        now rewrite Hdir, Hnum. }
      rewrite Hdirs in Hd'.
      apply (Permutation_in _ (Permutation_sym Hall)).
      apply in_app_or in Hd' as [Hd'|[Hd'|Hd']]; apply in_or_app;
        [now left | now subst | now right].
Qed.

Lemma time_dirs_excludes_zero_time_witness :
  time_dirs [dir "constant" []; dir "10" []; file "Allrun";
             dir "system" []; dir "2" []; file "log.reconstructPar";
             dir "0" []] = ret [dir "2" []; dir "10" []] /\
  exists ds,
    time_dirs [dir "constant" []; dir "10" []; file "Allrun";
               dir "system" []; dir "2" []; file "log.reconstructPar";
               dir "0" []] = ret ds /\
    Permutation ds ([dir "10" []; dir "2" []] ++ []) /\
    StronglySorted time_le ds /\
    ~ In (dir "0" []) ds /\
    forall d,
      In d ds <->
      In d [dir "constant" []; dir "10" []; file "Allrun";
            dir "system" []; dir "2" []; file "log.reconstructPar";
            dir "0" []] /\
      is_dir d = true /\
      utils.is_numeric_string (name d) = true /\ d <> dir "0" [].
Proof.
  split; [reflexivity|].
  apply (@time_dirs_excludes_zero_time
           [dir "constant" []; dir "10" []; file "Allrun";
            dir "system" []; dir "2" []; file "log.reconstructPar";
            dir "0" []]
           [dir "10" []; dir "2" []] [] (dir "0" [])).
  - reflexivity.
  - eexists. split; reflexivity.
  - repeat constructor; eexists; split; reflexivity.
Defined.

End zero_time_facts.

(* ================================================================== *)
(** * Uniform fields                                                    *)
(* ================================================================== *)

Module broadcast_facts.

Import oneD_sampler fixtures np.
Local Open Scope string_scope.
Local Open Scope float_scope.

(** A non-uniform field of five values followed by a uniform field: five
    rows, the uniform value in each. *)
Lemma uniform_after_nonuniform :
  collect [] [dir "0" []; dir "1" [("T", T5); ("p", uniform_file "101325")]]
  = ret {| ncols := 2;
           rows := [[300; 101325]; [310; 101325]; [320; 101325];
                    [330; 101325]; [340; 101325]] |}.
Proof. vm_compute. reflexivity. Qed.

(** C3 (the code against the claim): a uniform field read before the
    non-uniform field of its time step is replicated [data_shape = 0]
    times, and the concatenation of the time step is rejected. *)
Lemma uniform_before_nonuniform :
  collect [] [dir "0" [];
              dir "1" [("T", uniform_file "300");
                       ("p", nonuniform_file "5" ["1"; "2"; "3"; "4"; "5"])]]
  = dimension_mismatch.
Proof. vm_compute. reflexivity. Qed.

(** In a later time step the uniform field takes the length left behind by
    the time step before it. *)
Lemma uniform_takes_stale_shape :
  collect []
    [dir "0" [];
     dir "1" [("T", nonuniform_file "2" ["300"; "310"]);
              ("p", nonuniform_file "2" ["1"; "2"])];
     dir "2" [("T", uniform_file "300");
              ("p", nonuniform_file "3" ["1"; "2"; "3"])]]
  = dimension_mismatch.
Proof. vm_compute. reflexivity. Qed.

End broadcast_facts.

(* ================================================================== *)
(** * Access to the sampled data                                        *)
(* ================================================================== *)

Module sampler_facts.

Import oneD_sampler fixtures np.
Local Open Scope string_scope.

(** C8: while [self.data] is [None], that is until a call of [sample] has
    returned, [get_data] and [save] raise [ValueError] (the spec's
    NotYetSampledError) and nothing is saved; once [sample] has returned,
    [get_data] returns the array [sample] assembled. *)
Theorem get_data_requires_sample
    (species_names : string -> result (list string))
    (case_setup : OneDSampler -> world -> result (string * directory))
    (raw_data_dir : string) (self : OneDSampler) (w : world) :
  data self = None ->
  get_data self
  = raise (ValueError "Data not sampled yet. Call sample() first.") /\
  (forall output_dir,
      save raw_data_dir self output_dir w
      = raise (ValueError "No data to save. Run `sample()` first.")) /\
  (forall self' w',
      sample species_names case_setup self w = ret (self', w') ->
      exists path names d,
        case_setup self w = ret (path, cwd w') /\
        species_names path = ret names /\
        collect names (cwd w') = ret d /\
        data self' = Some d /\
        get_data self' = ret d).
Proof.
  intros Hnone. unfold get_data, save. rewrite Hnone.
  split; [reflexivity|]. split; [reflexivity|].
  intros self' w'. unfold sample, _run_case_setup.
  destruct (case_setup self w) as [e|[path dir0]] eqn:Hsetup; [discriminate|].
  cbn [bind ret]. unfold _collect_data.
  cbn [mechanism_path_for_cantera cwd].
  destruct (species_names path) as [e|names] eqn:Hnames; [discriminate|].
  cbn [bind].
  destruct (collect names dir0) as [e|d] eqn:Hcollect; [discriminate|].
  cbn [bind ret]. intros H. injection H as <- <-.
  exists path, names, d. cbn [cwd data get_data].
  repeat split; assumption.
Qed.

Lemma get_data_requires_sample_witness :
  get_data fresh_sampler
  = raise (ValueError "Data not sampled yet. Call sample() first.") /\
  (forall output_dir,
      save "1DFlameRawData" fresh_sampler output_dir empty_world
      = raise (ValueError "No data to save. Run `sample()` first.")) /\
  (forall self' w',
      sample h2_species h2_setup fresh_sampler empty_world = ret (self', w') ->
      exists path names d,
        h2_setup fresh_sampler empty_world = ret (path, cwd w') /\
        h2_species path = ret names /\
        collect names (cwd w') = ret d /\
        data self' = Some d /\
        get_data self' = ret d).
Proof.
  apply (@get_data_requires_sample h2_species h2_setup "1DFlameRawData"
           fresh_sampler empty_world).
  reflexivity.
Defined.

(** The sample run of the witness does return. *)
Lemma sample_h2_returns :
  exists self' w',
    sample h2_species h2_setup fresh_sampler empty_world = ret (self', w') /\
    option_map (fun d => List.length (rows d)) (data self') = Some 5.
Proof. eexists. eexists. split; vm_compute; reflexivity. Qed.

End sampler_facts.


(* ================================================================== *)
(** * The uniform value of a field file                                 *)
(* ================================================================== *)

Module uniform_facts.

Import PyStr oneD_sampler fixtures sampler_props.
Local Open Scope string_scope.

(** Such lines are run through, and [start] and [end] keep their
    bindings. *)
Lemma scan_lines_passes (pre : list string) :
  forall rest i sample_started st en,
    passes sample_started pre = true ->
    scan_lines (pre ++ rest) i sample_started st en
    = scan_lines rest (i + List.length pre)
                 (started_after sample_started pre) st en.
Proof.
  induction pre as [|l pre IH]; intros rest i started st en H.
  - cbn [app List.length started_after]. now rewrite Nat.add_0_r.
  - cbn [passes] in H. apply andb_true_iff in H as [Hl Hpre].
    cbn [app scan_lines started_after List.length].
    set (s := if contains "internalField" l then true else started) in *.
    assert (Hu : contains " uniform" l && s = false
                 /\ contains "(" l && s = false
                 /\ contains ")" l && s = false).
    { destruct s; cbn [negb orb] in Hl.
      - apply negb_true_iff in Hl.
        apply orb_false_iff in Hl as [Hl H3].
        apply orb_false_iff in Hl as [H1 H2].
        rewrite H1, H2, H3. auto.
      - rewrite !andb_false_r. auto. }
    destruct Hu as (-> & -> & ->).
    rewrite (IH rest (S i) s st en Hpre).
    f_equal. lia.
Qed.

(** C5: in a field file whose lines before [line] are run through, and
    where the internal-values marker has been met by the end of [line], a
    [line] that holds the uniform marker and ends with a blank, the token
    [t] with one more character [c] appended, and blanks, ends the scan
    with [float(t)] as the uniform value: the trailing token is taken, its
    last character stripped, the remainder parsed, whatever the character
    [c].  [start] and [end] are left as they were. *)
Theorem uniform_value_strips_one_character
    (pre rest : list string) (line before t tail : string) (sp c : ascii)
    (i : nat) (sample_started : bool) (st en : option nat) :
  passes sample_started pre = true ->
  started_after sample_started (pre ++ [line]) = true ->
  contains " uniform" line = true ->
  line = before ++ String sp ((t ++ String c "") ++ tail) ->
  isspace sp = true ->
  all_chars (fun x => negb (isspace x)) (t ++ String c "") = true ->
  all_chars isspace tail = true ->
  scan_lines (pre ++ line :: rest) i sample_started st en
  = (uniform_value <- PyFloat.float_of_string t ;;
     ret (Some uniform_value, st, en)).
Proof.
  intros Hpre Hstarted Hu Hline Hsp Hns Htail.
  rewrite scan_lines_passes by assumption.
  cbn [scan_lines].
  assert (Hs : (if contains "internalField" line then true
                else started_after sample_started pre) = true).
  { clear -Hstarted. revert sample_started Hstarted.
    induction pre as [|l pre IH]; intros s H; cbn [app started_after] in *.
    - exact H.
    - now apply IH. }
  rewrite Hs, Hu. cbn [andb].
  pose proof (@PyStr_facts.trailing_token before t tail sp c Hsp Hns Htail)
    as Htok.
  rewrite <- Hline in Htok.
  destruct (last_item (split (strip line))) as [e|tok];
    cbn [bind ret] in Htok |- *; [discriminate Htok|].
  injection Htok as ->. reflexivity.
Qed.

Lemma uniform_value_strips_one_character_witness :
  scan_lines (text foam_header
              ++ ("internalField   uniform 101325;" ++ nl)
                 :: text foam_boundary) 0 false None None
  = (uniform_value <- PyFloat.float_of_string "101325" ;;
     ret (Some uniform_value, None, None)).
Proof.
  apply (@uniform_value_strips_one_character
           (text foam_header) (text foam_boundary)
           ("internalField   uniform 101325;" ++ nl)
           "internalField   uniform" "101325" nl " " ";"
           0 false None None);
    reflexivity.
Defined.

(** One delimiter is stripped and no more: one semicolon gives the value,
    two give [ValueError], and without a delimiter the last digit goes. *)
Lemma uniform_value_delimiters :
  scan_lines ["internalField   uniform 300;" ++ nl] 0 false None None
  = ret (Some 300%float, None, None) /\
  scan_lines ["internalField   uniform 300;;" ++ nl] 0 false None None
  = PyFloat.could_not_convert "300;" /\
  scan_lines ["internalField   uniform 300" ++ nl] 0 false None None
  = ret (Some 30%float, None, None).
Proof. repeat split; vm_compute; reflexivity. Qed.

End uniform_facts.

(* ================================================================== *)
(** * The assembled array                                               *)
(* ================================================================== *)

Module collect_facts.

Import PyStr oneD_sampler fixtures np sampler_props.
Local Open Scope string_scope.

Lemma bind_ret_inv {A B} (m : result A) (k : A -> result B) (b : B) :
  bind m k = ret b -> exists a, m = ret a /\ k a = ret b.
Proof. destruct m as [e|a]; cbn; [discriminate | eauto]. Qed.

Lemma bind_raises {A B} (m : result A) (k : A -> result B) :
  raises m -> raises (bind m k).
Proof. intros [e ->]. now exists e. Qed.

Lemma raises_not_ret {A} (m : result A) : raises m -> forall a, m <> ret a.
Proof. intros [e ->] a. discriminate. Qed.


Lemma time_arrays_fields time_dir dims : forall l arrays l',
  time_arrays time_dir dims l = ret (arrays, l') ->
  Forall2 (field_of time_dir) dims arrays.
Proof.
  induction dims as [|var dims IH]; intros l arrays l' H; cbn [time_arrays] in H.
  - injection H as <- <-. constructor.
  - apply bind_ret_inv in H as (a & Ha & H).
    destruct (field_array a l) as [e|[dim_array l1]] eqn:Hf;
      cbn [bind] in H; [discriminate|].
    destruct (time_arrays time_dir dims l1) as [e|[arrays' l2]] eqn:Ht;
      cbn [bind ret] in H; [discriminate|].
    injection H as <- <-. constructor.
    + now exists a, l, l1.
    + now apply (IH l1 arrays' l2).
Qed.

Lemma same_lengths_Forall {A} n (l : list (list A)) :
  same_lengths n l = true <-> Forall (fun c => List.length c = n) l.
Proof.
  unfold same_lengths. rewrite forallb_forall, Forall_forall.
  split; intros H x Hx; specialize (H x Hx); now apply Nat.eqb_eq.
Qed.

Lemma concatenate_axis1_ret arrays a :
  concatenate_axis1 arrays = ret a ->
  exists n, Forall (fun c => List.length c = n) arrays /\
            ncols a = List.length arrays /\ rows a = rows_of arrays n.
Proof.
  unfold concatenate_axis1. destruct arrays as [|c cs]; [discriminate|].
  destruct (same_lengths (List.length c) (c :: cs)) eqn:Hs; [|discriminate].
  intros H. injection H as <-. exists (List.length c).
  split; [now apply same_lengths_Forall | split; reflexivity].
Qed.

Lemma time_array_block time_dir dims l a l' :
  time_array time_dir dims l = ret (a, l') -> block_of dims time_dir a.
Proof.
  unfold time_array. intros H.
  destruct (time_arrays time_dir dims l) as [e|[arrays l1]] eqn:Ht;
    cbn [bind] in H; [discriminate|].
  apply bind_ret_inv in H as (a0 & Ha & H). injection H as <- <-.
  apply concatenate_axis1_ret in Ha as (n & Hn & Hc & Hr).
  apply time_arrays_fields in Ht.
  exists arrays, n. repeat split; try assumption.
  rewrite Hc. symmetry. exact (Forall2_length Ht).
Qed.

Lemma data_collector_blocks dirs dims : forall l blocks,
  data_collector dirs dims l = ret blocks ->
  Forall2 (block_of dims) dirs blocks.
Proof.
  induction dirs as [|d dirs IH]; intros l blocks H; cbn [data_collector] in H.
  - injection H as <-. constructor.
  - destruct (time_array d dims l) as [e|[a l1]] eqn:Ht;
      cbn [bind] in H; [discriminate|].
    apply bind_ret_inv in H as (more & Ha & H). injection H as <-.
    constructor.
    + exact (time_array_block _ _ _ Ht).
    + exact (IH _ _ Ha).
Qed.

(** C7: when [_collect_data] assembles an array, its columns are those of
    [sample_dims = ['T', 'p'] + species_names], in this order: the array
    has [2 + len(species_names)] columns, its rows are the rows of the
    time directories one after the other, and the rows of one time
    directory are built from one array per entry of [sample_dims], the
    [j]-th cell of a row coming from the file named by the [j]-th entry. *)
Theorem columns_follow_sample_dims
    (species_names : list string) (cwd : directory) (data : array2) :
  collect species_names cwd = ret data ->
  sample_dims species_names = "T" :: "p" :: species_names /\
  ncols data = 2 + List.length species_names /\
  exists dirs blocks,
    time_dirs cwd = ret dirs /\
    Forall2 (block_of (sample_dims species_names)) dirs blocks /\
    rows data = List.concat (map rows blocks).
Proof.
  unfold collect. intros H. split; [reflexivity|].
  apply bind_ret_inv in H as (dirs & Ha & H).
  apply bind_ret_inv in H as (blocks & Ha0 & H).
  apply data_collector_blocks in Ha0.
  unfold concatenate_axis0 in H. destruct blocks as [|b bs]; [discriminate|].
  destruct (forallb _ (b :: bs)); [|discriminate].
  injection H as <-. cbn [ncols rows]. split.
  - inversion Ha0 as [|d b' ds bs' Hb _]; subst.
    destruct Hb as (arrays & n & _ & _ & Hc & _). exact Hc.
  - now exists dirs, (b :: bs).
Qed.

Lemma columns_follow_sample_dims_witness :
  sample_dims ["A"; "B"; "C"] = ["T"; "p"; "A"; "B"; "C"] /\
  ncols {| ncols := 5;
           rows := [[300; 1; 0x1p-1; 0x1p-2; 7];
                    [310; 1; 0x1p-1; 0x1p-2; 8]]%float |}
  = 2 + List.length ["A"; "B"; "C"] /\
  exists dirs blocks,
    time_dirs [dir "0" [];
               dir "1" [("B", uniform_file "0.25");
                        ("C", nonuniform_file "2" ["7"; "8"]);
                        ("T", nonuniform_file "2" ["300"; "310"]);
                        ("A", uniform_file "0.5");
                        ("p", uniform_file "1")]] = ret dirs /\
    Forall2 (block_of (sample_dims ["A"; "B"; "C"])) dirs blocks /\
    rows {| ncols := 5;
            rows := [[300; 1; 0x1p-1; 0x1p-2; 7];
                     [310; 1; 0x1p-1; 0x1p-2; 8]]%float |}
    = List.concat (map rows blocks).
Proof.
  apply (@columns_follow_sample_dims ["A"; "B"; "C"]).
  vm_compute. reflexivity.
Defined.

(** ** Fields of differing lengths *)

Lemma scan_lines_end_bound lines : forall i b st s' e,
  scan_lines lines i b st None = ret (None, s', Some e) ->
  forall en, scan_lines lines i b st en = ret (None, s', Some e).
Proof.
  induction lines as [|line rest IH]; intros i b st s' e H en;
    cbn [scan_lines] in *; [discriminate|].
  set (b' := if contains "internalField" line then true else b) in *.
  destruct (contains " uniform" line && b').
  - destruct (last_item (split (strip line))) as [x|tok];
      cbn [bind] in H; [discriminate|].
    destruct (PyFloat.float_of_string (drop_last tok));
      cbn [bind] in H; discriminate.
  - destruct (contains ")" line && b'); [exact H|].
    now apply IH.
Qed.

Lemma scan_lines_start_bound lines : forall i b en s oe,
  scan_lines lines i b None en = ret (None, Some s, oe) ->
  forall st, scan_lines lines i b st en = ret (None, Some s, oe).
Proof.
  induction lines as [|line rest IH]; intros i b en s oe H st;
    cbn [scan_lines] in *; [discriminate|].
  set (b' := if contains "internalField" line then true else b) in *.
  destruct (contains " uniform" line && b').
  - destruct (last_item (split (strip line))) as [x|tok];
      cbn [bind] in H; [discriminate|].
    destruct (PyFloat.float_of_string (drop_last tok));
      cbn [bind] in H; discriminate.
  - destruct (contains "(" line && b'); [exact H|].
    destruct (contains ")" line && b'); [discriminate|].
    now apply IH.
Qed.

(** A file with non-uniform values yields them whatever the locals. *)
Lemma field_array_nonuniform lines values l :
  nonuniform_values lines values ->
  exists l', field_array lines l = ret (values, l').
Proof.
  intros (s & e & Hscan & Hload). unfold field_array.
  apply scan_lines_end_bound with (en := end_ l) in Hscan.
  apply scan_lines_start_bound with (st := start l) in Hscan.
  rewrite Hscan. cbn [bind ret]. rewrite Hload. cbn [bind ret]. eauto.
Qed.

Lemma Forall2_In_l {A B} (R : A -> B -> Prop) l1 l2 a :
  Forall2 R l1 l2 -> In a l1 -> exists b, In b l2 /\ R a b.
Proof.
  induction 1 as [|x y l1 l2 Hxy _ IH]; intros Hin; [contradiction|].
  destruct Hin as [->|Hin].
  - exists y. split; [now left | assumption].
  - destruct (IH Hin) as (b & Hb & Hr). exists b. split; [now right|assumption].
Qed.

Lemma nonuniform_array_in time_dir dims arrays var lines values :
  Forall2 (field_of time_dir) dims arrays ->
  In var dims -> readlines time_dir var = ret lines ->
  nonuniform_values lines values -> In values arrays.
Proof.
  intros HF Hin Hread Hval.
  destruct (@Forall2_In_l _ _ _ _ _ var HF Hin)
    as (array & Harr & lines' & l & l' & Hr & Hf).
  rewrite Hread in Hr. injection Hr as <-.
  destruct (field_array_nonuniform l Hval) as (l'' & Hf').
  rewrite Hf in Hf'. injection Hf' as <- _. exact Harr.
Qed.

Lemma concatenate_axis1_mismatch arrays c1 c2 :
  In c1 arrays -> In c2 arrays -> List.length c1 <> List.length c2 ->
  concatenate_axis1 arrays = dimension_mismatch.
Proof.
  intros H1 H2 Hne. unfold concatenate_axis1.
  destruct arrays as [|c cs]; [contradiction|].
  destruct (same_lengths (List.length c) (c :: cs)) eqn:Hs; [|reflexivity].
  apply same_lengths_Forall in Hs. rewrite Forall_forall in Hs.
  elim Hne. now rewrite (Hs c1 H1), (Hs c2 H2).
Qed.

Lemma data_collector_raises dirs dims time_dir :
  In time_dir dirs ->
  (forall l, raises (time_array time_dir dims l)) ->
  forall l, raises (data_collector dirs dims l).
Proof.
  intros Hin Hraise. induction dirs as [|d dirs IH]; intros l; [contradiction|].
  cbn [data_collector]. destruct Hin as [->|Hin].
  - apply bind_raises, Hraise.
  - destruct (time_array d dims l) as [e|[a l1]]; [now exists e|].
    cbn [bind]. apply bind_raises, (IH Hin).
Qed.

(** C4: when two fields of one processed time directory are read as
    non-uniform with differing numbers of values, the time step is
    rejected by the concatenation ([ValueError], the spec's
    InconsistentFieldLength) as soon as all its fields have been read, and
    [_collect_data] raises: no array, truncated or padded, is returned. *)
Theorem differing_field_lengths_raise
    (species_names : list string) (cwd : directory) (dirs : list dir_entry)
    (time_dir : dir_entry) (var1 var2 : string) (lines1 lines2 : list string)
    (values1 values2 : column) :
  time_dirs cwd = ret dirs -> In time_dir dirs ->
  In var1 (sample_dims species_names) ->
  In var2 (sample_dims species_names) ->
  readlines time_dir var1 = ret lines1 ->
  readlines time_dir var2 = ret lines2 ->
  nonuniform_values lines1 values1 ->
  nonuniform_values lines2 values2 ->
  List.length values1 <> List.length values2 ->
  (forall l arrays l',
      time_arrays time_dir (sample_dims species_names) l = ret (arrays, l') ->
      In values1 arrays /\ In values2 arrays /\
      time_array time_dir (sample_dims species_names) l = dimension_mismatch) /\
  raises (collect species_names cwd) /\
  forall data, collect species_names cwd <> ret data.
Proof.
  intros Hdirs Hin Hv1 Hv2 Hr1 Hr2 Hn1 Hn2 Hne.
  assert (Hstep : forall l arrays l',
    time_arrays time_dir (sample_dims species_names) l = ret (arrays, l') ->
    In values1 arrays /\ In values2 arrays /\
    time_array time_dir (sample_dims species_names) l = dimension_mismatch).
  { intros l arrays l' Ht. pose proof (time_arrays_fields _ _ _ Ht) as HF.
    assert (H1 : In values1 arrays)
      by (eapply nonuniform_array_in; [exact HF | exact Hv1 | eassumption ..]).
    assert (H2 : In values2 arrays)
      by (eapply nonuniform_array_in; [exact HF | exact Hv2 | eassumption ..]).
    repeat split; try assumption.
    unfold time_array. rewrite Ht. cbn [bind ret].
    now rewrite (@concatenate_axis1_mismatch arrays values1 values2 H1 H2 Hne). }
  assert (Hraise : raises (collect species_names cwd)).
  { unfold collect. rewrite Hdirs. cbn [bind ret].
    apply bind_raises. eapply data_collector_raises; [exact Hin|].
    intros l.
    destruct (time_arrays time_dir (sample_dims species_names) l)
      as [e|[arrays l']] eqn:Ht.
    - unfold time_array. rewrite Ht. now exists e.
    - destruct (Hstep _ _ _ Ht) as (_ & _ & ->). eexists. reflexivity. }
  split; [exact Hstep|]. split; [exact Hraise|].
  now apply raises_not_ret.
Qed.

Lemma differing_field_lengths_raise_witness :
  (forall l arrays l',
      time_arrays (dir "1" [("T", T5);
            ("p", nonuniform_file "6" ["1"; "2"; "3"; "4"; "5"; "6"])])
        (sample_dims []) l = ret (arrays, l') ->
      In [300; 310; 320; 330; 340]%float arrays /\
      In [1; 2; 3; 4; 5; 6]%float arrays /\
      time_array (dir "1" [("T", T5);
            ("p", nonuniform_file "6" ["1"; "2"; "3"; "4"; "5"; "6"])])
        (sample_dims []) l = dimension_mismatch) /\
  raises (collect [] five_and_six) /\
  forall data, collect [] five_and_six <> ret data.
Proof.
  apply (@differing_field_lengths_raise [] five_and_six
           [dir "1" [("T", T5);
              ("p", nonuniform_file "6" ["1"; "2"; "3"; "4"; "5"; "6"])]]
           (dir "1" [("T", T5);
              ("p", nonuniform_file "6" ["1"; "2"; "3"; "4"; "5"; "6"])])
           "T" "p" T5 (nonuniform_file "6" ["1"; "2"; "3"; "4"; "5"; "6"])
           [300; 310; 320; 330; 340]%float [1; 2; 3; 4; 5; 6]%float).
  - reflexivity.
  - left. reflexivity.
  - left. reflexivity.
  - right. left. reflexivity.
  - reflexivity.
  - reflexivity.
  - exists 11, 16. split; vm_compute; reflexivity.
  - exists 11, 17. split; vm_compute; reflexivity.
  - cbn [List.length]. lia.
Defined.

(** Lengths 5 and 6: the error the run ends with. *)
Lemma five_and_six_mismatch : collect [] five_and_six = dimension_mismatch.
Proof. vm_compute. reflexivity. Qed.

(** ** A uniform field behind a non-uniform one *)

Lemma scan_lines_uniform lines : forall i b st en v s e,
  scan_lines lines i b st en = ret (Some v, s, e) ->
  forall st2 en2, exists s2 e2,
    scan_lines lines i b st2 en2 = ret (Some v, s2, e2).
Proof.
  induction lines as [|line rest IH]; intros i b st en v s e H st2 en2;
    cbn [scan_lines] in *; [discriminate|].
  set (b' := if contains "internalField" line then true else b) in *.
  destruct (contains " uniform" line && b').
  - destruct (last_item (split (strip line))) as [x|tok];
      cbn [bind] in H |- *; [discriminate|].
    destruct (PyFloat.float_of_string (drop_last tok)) as [x|u];
      cbn [bind ret] in H |- *; [discriminate|].
    injection H as -> _ _. eauto.
  - destruct (contains ")" line && b'); [discriminate|].
    eapply IH. exact H.
Qed.

(** [np.ones((n, 1)) * v] holds [v] in every row. *)
Lemma ones_times_repeat (n : nat) (v : float) : ones_times n v = repeat v n.
Proof. unfold ones_times. now rewrite F64_facts.mul_one_l. Qed.

(** A uniform field becomes [data_shape] copies of its value. *)
Lemma field_array_uniform lines v l :
  uniform_value lines v ->
  exists l', field_array lines l = ret (repeat v (data_shape l), l') /\
             data_shape l' = data_shape l.
Proof.
  intros (s & e & Hscan). unfold field_array.
  destruct (scan_lines_uniform _ _ _ _ _ Hscan (start l) (end_ l))
    as (s2 & e2 & ->).
  cbn [bind ret]. rewrite ones_times_repeat. eauto.
Qed.

Lemma field_array_nonuniform_shape lines values l :
  nonuniform_values lines values ->
  exists l', field_array lines l = ret (values, l') /\
             data_shape l' = List.length values.
Proof.
  intros (s & e & Hscan & Hload). unfold field_array.
  apply scan_lines_end_bound with (en := end_ l) in Hscan.
  apply scan_lines_start_bound with (st := start l) in Hscan.
  rewrite Hscan. cbn [bind ret]. rewrite Hload. cbn [bind ret]. eauto.
Qed.

Lemma rows_with_uniform (values : column) (v : float) :
  map (row_at [values; repeat v (List.length values)])
      (seq 0 (List.length values))
  = map (fun x => [x; v]) values.
Proof.
  unfold row_at. induction values as [|x xs IH]; [reflexivity|].
  cbn [List.length seq map repeat nth]. f_equal.
  rewrite <- seq_shift, map_map. exact IH.
Qed.

(** A time step that reads a non-uniform field of [N] values and then a
    uniform field yields [N] rows, the uniform value in each of them. *)
Theorem uniform_follows_nonuniform
    (time_dir : dir_entry) (var1 var2 : string) (lines1 lines2 : list string)
    (values : column) (v : float) (l : locals) :
  readlines time_dir var1 = ret lines1 ->
  readlines time_dir var2 = ret lines2 ->
  nonuniform_values lines1 values ->
  uniform_value lines2 v ->
  exists l',
    time_array time_dir [var1; var2] l
    = ret ({| ncols := 2; rows := map (fun x => [x; v]) values |}, l').
Proof.
  intros Hr1 Hr2 Hn Hu. unfold time_array. cbn [time_arrays].
  rewrite Hr1. cbn [bind ret].
  destruct (field_array_nonuniform_shape l Hn) as (l1 & -> & Hshape).
  cbn [bind ret]. rewrite Hr2. cbn [bind ret].
  destruct (field_array_uniform l1 Hu) as (l2 & -> & _).
  cbn [bind ret]. rewrite Hshape. unfold concatenate_axis1.
  exists l2. cbv beta iota.
  match goal with
  | |- context [same_lengths ?n ?cols] =>
      assert (Hsame : same_lengths n cols = true)
        by (apply same_lengths_Forall; repeat constructor;
            apply repeat_length);
      rewrite Hsame
  end.
  cbn [bind ret List.length].
  now rewrite rows_with_uniform.
Qed.

Lemma uniform_follows_nonuniform_witness :
  exists l',
    time_array (dir "1" [("T", T5); ("p", uniform_file "101325")])
               ["T"; "p"] initial_locals
    = ret ({| ncols := 2;
              rows := map (fun x => [x; 101325%float])
                          [300; 310; 320; 330; 340]%float |}, l').
Proof.
  apply (@uniform_follows_nonuniform
           (dir "1" [("T", T5); ("p", uniform_file "101325")])
           "T" "p" T5 (uniform_file "101325")
           [300; 310; 320; 330; 340]%float 101325%float initial_locals).
  - reflexivity.
  - reflexivity.
  - exists 11, 16. split; vm_compute; reflexivity.
  - exists None, None. vm_compute. reflexivity.
Defined.

End collect_facts.

(* ================================================================== *)
(** * Shuffling                                                         *)
(* ================================================================== *)

Module shuffle_facts.

Import np_random PyNum container fixtures.

Lemma assign_at (a b : list nat) (y v : nat) :
  assign (a ++ y :: b) (List.length a) v = a ++ v :: b.
Proof.
  unfold assign. induction a as [|x a IH]; [reflexivity|].
  cbn [app List.length firstn skipn] in *. now rewrite IH.
Qed.

(** Two cells [j <= i] of [x] exchanged. *)
Lemma swap_Permutation (x : list nat) (i j : nat) :
  j <= i -> i < List.length x -> Permutation (swap x i j) x.
Proof.
  intros Hji Hi. unfold swap.
  remember (nth j x 0) as xj eqn:Hxj. remember (nth i x 0) as xi eqn:Hxi.
  destruct (Nat.eq_dec j i) as [Heq|Hne].
  - subst j. rewrite <- Hxj in Hxi. subst xi.
    destruct (nth_split x 0 Hi) as (a & b & Hx & Ha).
    rewrite <- Hxj in Hx. clear Hxj. subst x i.
    rewrite (assign_at a b xj xj), (assign_at a b xj xj). reflexivity.
  - assert (Hj : j < List.length x) by lia.
    destruct (nth_split x 0 Hj) as (a & b & Hx & Ha).
    rewrite <- Hxj in Hx.
    assert (Hb : i - j - 1 < List.length b).
    { rewrite Hx, length_app in Hi. cbn [List.length] in Hi. lia. }
    destruct (nth_split b 0 Hb) as (m1 & m2 & Hbm & Hm1).
    assert (Hxi' : xi = nth (i - j - 1) b 0).
    { rewrite Hxi, Hx. rewrite app_nth2 by lia. rewrite Ha.
      destruct (i - j) as [|d] eqn:Hd; [lia|].
      cbn [nth]. f_equal. lia. }
    rewrite <- Hxi' in Hbm. clear Hxi Hxj Hxi'. subst b x.
    assert (Hi' : i = List.length (a ++ xj :: m1)).
    { rewrite length_app. cbn [List.length]. lia. }
    change (a ++ xj :: m1 ++ xi :: m2) with (a ++ (xj :: m1) ++ xi :: m2).
    rewrite app_assoc, Hi', (assign_at (a ++ xj :: m1) m2 xi xj), <- !app_assoc.
    cbn [app]. rewrite <- Ha, (assign_at a (m1 ++ xj :: m2) xj xi).
    apply Permutation_app_head.
    transitivity (xi :: xj :: m1 ++ m2).
    + apply perm_skip. symmetry. apply Permutation_middle.
    + rewrite perm_swap. apply perm_skip. apply Permutation_middle.
Qed.

Section Generator.

Variable G : generator.

Lemma shuffle_down_Permutation (i : nat) : forall x g,
  i < List.length x -> Permutation (fst (shuffle_down G i x g)) x.
Proof.
  induction i as [|i IH]; intros x g Hi; cbn [shuffle_down]; [reflexivity|].
  pose proof (interval_le G g (S i)) as Hj.
  destruct (interval G g (S i)) as [j g']. cbn [fst] in Hj.
  assert (Hp : Permutation (swap x (S i) j) x) by now apply swap_Permutation.
  rewrite <- Hp at 2. apply IH.
  rewrite (Permutation_length Hp). lia.
Qed.

(** [np.random.permutation(n)] is a permutation of [0..n-1]. *)
Lemma permutation_Permutation (n : nat) (g : state G) :
  Permutation (fst (permutation G n g)) (seq 0 n).
Proof.
  unfold permutation. destruct n as [|n]; [reflexivity|].
  apply shuffle_down_Permutation. rewrite length_seq. lia.
Qed.

Lemma seed_accepted (s : Z) :
  (0 <= s < 2 ^ 32)%Z -> np_random.seed G s = ret (np_random.init G s).
Proof.
  intros [H0 H1]. unfold np_random.seed.
  apply Z.leb_le in H0. apply Z.ltb_lt in H1. now rewrite H0, H1.
Qed.

Variable A : Type.

Lemma subscript_nat (X : Type) (l : list X) (i : nat) (x : X) :
  nth_error l i = Some x -> subscript l (Z.of_nat i) = ret x.
Proof.
  intros H. unfold subscript.
  destruct (Z.of_nat i <? 0)%Z eqn:Hneg; [apply Z.ltb_lt in Hneg; lia|].
  rewrite Hneg, Nat2Z.id, H. reflexivity.
Qed.

(** The last cell of a row that has one. *)
Lemma subscript_last (X : Type) (row : list X) :
  row <> [] -> exists x, subscript row (-1) = ret x.
Proof.
  intros Hrow. unfold subscript. cbn [Z.ltb Z.compare].
  assert (Hlen : 0 < List.length row) by (destruct row; [easy | cbn; lia]).
  destruct (-1 + Z.of_nat (List.length row) <? 0)%Z eqn:Hneg;
    [apply Z.ltb_lt in Hneg; lia|].
  destruct (nth_error row (Z.to_nat (-1 + Z.of_nat (List.length row))))
    as [x|] eqn:Hx; [now exists x|].
  apply nth_error_None in Hx. lia.
Qed.

(** C10 (as amended): for a seed [np.random.seed] accepts, that is
    [0 <= seed < 2^32], two containers over data of the same number [n] of
    rows that each call [shuffle(seed)], whatever the generator state and
    their index arrays before, end with the same index array; it is a
    permutation of [0..n-1], so every item access [i < n] reads a row of
    the data. *)
Theorem shuffle_seeded_is_deterministic
    (c1 c2 : Container A) (s : Z) (g1 g2 : state G) :
  shape0 c1 = shape0 c2 -> (0 <= s < 2 ^ 32)%Z ->
  exists idx g',
    shuffle G c1 (Some s) g1 = ret ({| data := data c1; dataIdx := idx |}, g') /\
    shuffle G c2 (Some s) g2 = ret ({| data := data c2; dataIdx := idx |}, g') /\
    Permutation idx (seq 0 (shape0 c1)) /\
    forall i, i < shape0 c1 ->
      exists k row,
        nth_error idx i = Some k /\ k < shape0 c1 /\
        nth_error (data c1) k = Some row /\
        getModelFeatures {| data := data c1; dataIdx := idx |} (Z.of_nat k)
        = ret (slice_to row (-1)) /\
        (row <> [] ->
         exists x,
           __getitem__ {| data := data c1; dataIdx := idx |} (Z.of_nat i)
           = ret (slice_to row (-1), [x])).
Proof.
  intros Hn Hs.
  pose proof (permutation_Permutation (shape0 c1) (np_random.init G s)) as Hperm.
  unfold shuffle. cbn [bind]. rewrite (seed_accepted Hs). cbn [bind ret].
  rewrite <- Hn.
  destruct (permutation G (shape0 c1) (np_random.init G s)) as [idx g'].
  cbn [fst] in Hperm. exists idx, g'.
  split; [reflexivity|]. split; [reflexivity|]. split; [exact Hperm|].
  intros i Hi.
  assert (Hlen : List.length idx = shape0 c1)
    by now rewrite (Permutation_length Hperm), length_seq.
  destruct (nth_error idx i) as [k|] eqn:Hk;
    [|apply nth_error_None in Hk; lia].
  assert (Hkn : k < shape0 c1).
  { apply nth_error_In in Hk. apply (Permutation_in _ Hperm) in Hk.
    apply in_seq in Hk. lia. }
  destruct (nth_error (data c1) k) as [row|] eqn:Hrow;
    [|apply nth_error_None in Hrow; unfold shape0 in Hkn; lia].
  exists k, row. repeat split; try assumption.
  - unfold getModelFeatures. cbn [data].
    now rewrite (@subscript_nat _ _ _ _ Hrow).
  - intros Hne. destruct (@subscript_last _ _ Hne) as [x Hx]. exists x.
    unfold __getitem__, getModelFeatures, getModelLabels. cbn [data dataIdx].
    rewrite (@subscript_nat _ _ _ _ Hk). cbn [bind ret].
    rewrite (@subscript_nat _ _ _ _ Hrow). cbn [bind ret].
    rewrite Hx. reflexivity.
Qed.

End Generator.

Lemma shuffle_seeded_is_deterministic_witness :
  exists idx g',
    shuffle fixtures.counter_generator (init four_rows) (Some 42%Z) 0
    = ret ({| data := four_rows; dataIdx := idx |}, g') /\
    shuffle fixtures.counter_generator
            {| data := four_rows; dataIdx := [0; 1] |} (Some 42%Z) 99
    = ret ({| data := four_rows; dataIdx := idx |}, g') /\
    Permutation idx (seq 0 (shape0 (init four_rows))) /\
    forall i, i < shape0 (init four_rows) ->
      exists k row,
        nth_error idx i = Some k /\ k < shape0 (init four_rows) /\
        nth_error four_rows k = Some row /\
        getModelFeatures {| data := four_rows; dataIdx := idx |} (Z.of_nat k)
        = ret (slice_to row (-1)) /\
        (row <> [] ->
         exists x,
           __getitem__ {| data := four_rows; dataIdx := idx |} (Z.of_nat i)
           = ret (slice_to row (-1), [x])).
Proof.
  apply (@shuffle_seeded_is_deterministic fixtures.counter_generator nat
           (init four_rows) {| data := four_rows; dataIdx := [0; 1] |}
           42%Z 0 99).
  - reflexivity.
  - lia.
Defined.

(** What the witness computes. *)
Lemma shuffle_42 :
  exists g',
    shuffle fixtures.counter_generator (init four_rows) (Some 42%Z) 0
    = ret ({| data := four_rows; dataIdx := [3; 0; 1; 2] |}, g').
Proof. eexists. vm_compute. reflexivity. Qed.

(** C10 (as stated) fails: [shuffle(-1)] raises in [np.random.seed], the
    two containers over the same four rows keep index arrays that differ,
    and one of them is no permutation of [0..3]. *)
Lemma shuffle_negative_seed_raises :
  shape0 (init four_rows)
  = shape0 {| data := four_rows; dataIdx := [0; 1] |} /\
  shuffle fixtures.counter_generator (init four_rows) (Some (-1)%Z) 0
  = raise (ValueError "Seed must be between 0 and 2**32 - 1") /\
  shuffle fixtures.counter_generator
          {| data := four_rows; dataIdx := [0; 1] |} (Some (-1)%Z) 0
  = raise (ValueError "Seed must be between 0 and 2**32 - 1") /\
  dataIdx (init four_rows) <> [0; 1] /\
  ~ Permutation [0; 1] (seq 0 (shape0 (init four_rows))).
Proof.
  repeat split; try reflexivity.
  - discriminate.
  - intros H. apply Permutation_length in H. discriminate H.
Qed.

End shuffle_facts.

(* ================================================================== *)
(** * Splitting a container                                             *)
(* ================================================================== *)

Module split_facts.

Import PyNum container F64_props F64_facts fixtures.
Local Open Scope Z_scope.

Lemma float_of_int_small (z : Z) :
  0 <= z < 2 ^ 63 -> float_of_int z = ret (of_uint63 (Uint63.of_Z z)).
Proof.
  intros Hz. unfold float_of_int.
  pose proof (binary_normalize_small Hz) as Hfin.
  rewrite <- (float_of_small_int Hz) in Hfin |- *.
  destruct Hfin as [Hn|(m & e & Hn & _)]; rewrite Hn, <- Hn;
    now rewrite SF2Prim_Prim2SF.
Qed.

Lemma int_of_float_nonnegative (x : float) :
  nonnegative (Prim2SF x) -> exists k, int_of_float x = ret k /\ 0 <= k.
Proof.
  unfold int_of_float. intros [[s Hx]|(m & e & Hx)]; rewrite Hx.
  - exists 0. split; [reflexivity | lia].
  - exists (Z.shiftl (Zpos m) e). split; [reflexivity|].
    apply Z.shiftl_nonneg. lia.
Qed.

Lemma slice_to_nonneg {X} (l : list X) (c : Z) :
  0 <= c -> slice_to l c = firstn (Z.to_nat c) l.
Proof.
  intros Hc. unfold slice_to, slice_bound.
  destruct (c <? 0) eqn:Hneg; [apply Z.ltb_lt in Hneg; lia|].
  destruct (Nat.le_ge_cases (Z.to_nat c) (List.length l)) as [Hle|Hge].
  - now rewrite Nat.min_l.
  - rewrite Nat.min_r by assumption. now rewrite !firstn_all2 by lia.
Qed.

Lemma slice_from_nonneg {X} (l : list X) (c : Z) :
  0 <= c -> slice_from l c = skipn (Z.to_nat c) l.
Proof.
  intros Hc. unfold slice_from, slice_bound.
  destruct (c <? 0) eqn:Hneg; [apply Z.ltb_lt in Hneg; lia|].
  destruct (Nat.le_ge_cases (Z.to_nat c) (List.length l)) as [Hle|Hge].
  - now rewrite Nat.min_l.
  - rewrite Nat.min_r by assumption. now rewrite !skipn_all2 by lia.
Qed.

(** [l[:c] + l[c:] == l] *)
Lemma slice_to_from {X} (l : list X) (c : Z) :
  (slice_to l c ++ slice_from l c)%list = l.
Proof. apply firstn_skipn. Qed.

Section Container.

Variable A : Type.

(** C9: for a container over a tensor of [n] rows (a tensor dimension,
    so [n < 2^63]) and a [split_ratio] of [0..1], [train_test_split]
    returns a training set whose index array holds the first
    [int(split_ratio * n)] entries of the container's index array and a
    validation set whose index array holds the others: the two index
    arrays one after the other give the index array back, and the two
    lengths add up to the length of the container.  Both sets hold the
    data of the container. *)
Theorem train_test_split_partitions
    (self : Container A) (split_ratio : float) :
  Z.of_nat (shape0 self) < 2 ^ 63 ->
  (0 <=? split_ratio)%float = true -> (split_ratio <=? 1)%float = true ->
  exists (n : float) (cutoffIdx : Z) (trainDS validDS : Container A),
    float_of_int (Z.of_nat (shape0 self)) = ret n /\
    int_of_float (split_ratio * n)%float = ret cutoffIdx /\
    0 <= cutoffIdx /\
    train_test_split self split_ratio = ret (trainDS, validDS) /\
    dataIdx trainDS = firstn (Z.to_nat cutoffIdx) (dataIdx self) /\
    dataIdx validDS = skipn (Z.to_nat cutoffIdx) (dataIdx self) /\
    (dataIdx trainDS ++ dataIdx validDS)%list = dataIdx self /\
    (__len__ trainDS + __len__ validDS)%nat = __len__ self /\
    data trainDS = data self /\ data validDS = data self.
Proof.
  intros Hn H0 H1.
  assert (Hz : 0 <= Z.of_nat (shape0 self) < 2 ^ 63) by lia.
  pose proof (float_of_int_small Hz) as Hfloat.
  set (n := of_uint63 (Uint63.of_Z (Z.of_nat (shape0 self)))) in *.
  assert (Hfin : finite_below false 21 (Prim2SF n)).
  { unfold n. rewrite (float_of_small_int Hz).
    now apply binary_normalize_small. }
  destruct (@int_of_float_nonnegative _ (@mul_unit_interval split_ratio n H0 H1 Hfin))
    as (k & Hint & Hk).
  exists n, k.
  exists {| data := data self; dataIdx := slice_to (dataIdx self) k |}.
  exists {| data := data self; dataIdx := slice_from (dataIdx self) k |}.
  unfold train_test_split. rewrite Hfloat. cbn [bind ret].
  rewrite Hint. cbn [bind ret dataIdx data __len__].
  repeat split; try assumption.
  - now apply slice_to_nonneg.
  - now apply slice_from_nonneg.
  - apply slice_to_from.
  - unfold __len__. cbn [dataIdx].
    rewrite <- length_app, slice_to_from. reflexivity.
Qed.

End Container.

Lemma train_test_split_partitions_witness :
  exists (n : float) (cutoffIdx : Z) (trainDS validDS : Container nat),
    float_of_int (Z.of_nat (shape0 (init ten_rows))) = ret n /\
    int_of_float (0.75 * n)%float = ret cutoffIdx /\
    0 <= cutoffIdx /\
    train_test_split (init ten_rows) 0.75 = ret (trainDS, validDS) /\
    dataIdx trainDS = firstn (Z.to_nat cutoffIdx) (dataIdx (init ten_rows)) /\
    dataIdx validDS = skipn (Z.to_nat cutoffIdx) (dataIdx (init ten_rows)) /\
    (dataIdx trainDS ++ dataIdx validDS)%list = dataIdx (init ten_rows) /\
    (__len__ trainDS + __len__ validDS)%nat = __len__ (init ten_rows) /\
    data trainDS = data (init ten_rows) /\
    data validDS = data (init ten_rows).
Proof.
  apply (@train_test_split_partitions nat (init ten_rows) 0.75%float).
  - reflexivity.
  - reflexivity.
  - reflexivity.
Defined.

(** The split of the witness: [int(0.75 * 10) = 7]. *)
Lemma train_test_split_ten_rows :
  train_test_split (init ten_rows) 0.75
  = ret ({| data := ten_rows; dataIdx := [0; 1; 2; 3; 4; 5; 6]%nat |},
         {| data := ten_rows; dataIdx := [7; 8; 9]%nat |}).
Proof. vm_compute. reflexivity. Qed.

(** A split of a split takes [int(split_ratio * n)] with [n] the rows of
    the data, not the length of the index array it cuts. *)
Lemma train_test_split_of_validation :
  train_test_split {| data := ten_rows; dataIdx := [7; 8; 9]%nat |} 0.5
  = ret ({| data := ten_rows; dataIdx := [7; 8; 9]%nat |},
         {| data := ten_rows; dataIdx := [] |}).
Proof. vm_compute. reflexivity. Qed.

End split_facts.

(* ================================================================== *)
(** * The strings [is_numeric_string] accepts                           *)
(* ================================================================== *)

Module pattern_facts.

Import PyStr Re utils numeric_props fixtures.
Local Open Scope string_scope.

Lemma fullmatch_Eps_empty : fullmatch Eps "" = true.
Proof. reflexivity. Qed.

(** A word of [r2] is a word of [r1 r2] when [r1] holds the empty
    word. *)
Lemma fullmatch_Cat_nullable r1 r2 s :
  nullable r1 = true -> fullmatch r2 s = true ->
  fullmatch (Cat r1 r2) s = true.
Proof.
  intros Hn H. destruct s as [|c s]; cbn [fullmatch deriv nullable] in *.
  - now rewrite Hn, H.
  - rewrite Hn, Re_facts.fullmatch_Alt, H. apply orb_true_r.
Qed.

(** A word of [r1] followed by a word of [r2] is a word of [r1 r2]. *)
Lemma fullmatch_Cat_app s1 : forall r1 r2 s2,
  fullmatch r1 s1 = true -> fullmatch r2 s2 = true ->
  fullmatch (Cat r1 r2) (s1 ++ s2) = true.
Proof.
  induction s1 as [|c s1 IH]; intros r1 r2 s2 H1 H2.
  - now apply fullmatch_Cat_nullable.
  - cbn [append fullmatch deriv] in *.
    destruct (nullable r1).
    + rewrite Re_facts.fullmatch_Alt, IH by assumption. reflexivity.
    + now apply IH.
Qed.

Lemma fullmatch_Class_char (p : ascii -> bool) (c : ascii) :
  p c = true -> fullmatch (Class p) (String c "") = true.
Proof. intros H. cbn [fullmatch deriv]. now rewrite H. Qed.

Lemma fullmatch_Star_all p s :
  all_chars p s = true -> fullmatch (Star (Class p)) s = true.
Proof.
  induction s as [|c s IH]; [reflexivity|]. cbn [all_chars]. intros H.
  apply andb_true_iff in H as [Hc Hs]. cbn [fullmatch deriv]. rewrite Hc.
  apply fullmatch_Cat_nullable; [reflexivity | now apply IH].
Qed.

Lemma fullmatch_Plus_all p s :
  s <> "" -> all_chars p s = true -> fullmatch (Plus (Class p)) s = true.
Proof.
  destruct s as [|c s]; [easy|]. intros _ H. cbn [all_chars] in H.
  apply andb_true_iff in H as [Hc Hs]. unfold Plus.
  change (String c s) with (String c "" ++ s).
  apply fullmatch_Cat_app; [now apply fullmatch_Class_char|].
  now apply fullmatch_Star_all.
Qed.

Lemma fullmatch_Opt_empty r : fullmatch (Opt r) "" = true.
Proof. unfold Opt. cbn [fullmatch nullable]. apply orb_true_r. Qed.

Lemma fullmatch_Opt_word r s :
  fullmatch r s = true -> fullmatch (Opt r) s = true.
Proof. intros H. unfold Opt. now rewrite Re_facts.fullmatch_Alt, H. Qed.

Lemma sign_matches sg :
  is_sign sg -> fullmatch (Opt (OneOf ["-"; "+"]%char)) sg = true.
Proof. intros [->|[->| ->]]; reflexivity. Qed.

Lemma mantissa_matches mant :
  mantissa_shape mant ->
  fullmatch (Alt (Cat (Plus digit)
                      (Opt (Cat (OneOf ["."%char]) (Star digit))))
                 (Cat (OneOf ["."%char]) (Plus digit))) mant = true.
Proof.
  intros (a & f & -> & Ha & [[-> Hne]|(b & -> & Hb & Hab)]).
  - rewrite Re_facts.fullmatch_Alt.
    rewrite fullmatch_Cat_app; [reflexivity | | apply fullmatch_Opt_empty].
    now apply fullmatch_Plus_all.
  - rewrite Re_facts.fullmatch_Alt.
    destruct a as [|c a].
    + destruct Hab as [Hab|Hab]; [easy|].
      apply orb_true_iff. right. cbn [append].
      change (String "." b) with ("." ++ b).
      apply fullmatch_Cat_app; [reflexivity|].
      now apply fullmatch_Plus_all.
    + apply orb_true_iff. left.
      apply fullmatch_Cat_app; [now apply fullmatch_Plus_all|].
      apply fullmatch_Opt_word.
      change (String "." b) with ("." ++ b).
      apply fullmatch_Cat_app; [reflexivity|].
      now apply fullmatch_Star_all.
Qed.

Lemma exponent_matches ex :
  exponent_shape ex ->
  fullmatch (Opt (Cat (OneOf ["e"; "E"]%char)
                      (Cat (Opt (OneOf ["-"; "+"]%char)) (Plus digit)))) ex
  = true.
Proof.
  intros [->|(c & sg & ds & -> & Hc & Hsg & Hds & Hne)];
    [apply fullmatch_Opt_empty|].
  apply fullmatch_Opt_word.
  change (String c (sg ++ ds)) with (String c "" ++ (sg ++ ds)).
  apply fullmatch_Cat_app.
  - destruct Hc as [->| ->]; reflexivity.
  - apply fullmatch_Cat_app; [now apply sign_matches|].
    now apply fullmatch_Plus_all.
Qed.

Lemma pattern_matches sg mant ex :
  is_sign sg -> mantissa_shape mant -> exponent_shape ex ->
  fullmatch pattern (sg ++ mant ++ ex) = true.
Proof.
  intros Hsg Hm He. unfold pattern.
  apply fullmatch_Cat_app; [now apply sign_matches|].
  apply fullmatch_Cat_app;
    [now apply mantissa_matches | now apply exponent_matches].
Qed.

(** Among the strings of characters with code points below 256, where
    the digits of the pattern are [0] to [9], the strings
    [is_numeric_string] accepts are a sign or none, digits with or
    without a point and at least one digit, an exponent or none, and one
    newline or none behind them: these and no others. *)
Theorem is_numeric_string_iff (s : string) :
  is_numeric_string s = true <->
  exists sg mant ex,
    (s = sg ++ mant ++ ex \/ s = (sg ++ mant ++ ex) ++ nl) /\
    is_sign sg /\ mantissa_shape mant /\ exponent_shape ex.
Proof.
  unfold is_numeric_string, match_anchored. split.
  - intros H.
    destruct (fullmatch pattern s) eqn:Hp.
    + apply numeric_facts.pattern_shape in Hp
        as (sg & mant & ex & -> & Hsg & Hm & He).
      exists sg, mant, ex. auto.
    + cbn [orb] in H.
      destruct (fullmatch (Cat pattern (Class (Ascii.eqb newline))) s)
        eqn:Hn; [|discriminate].
      apply Re_facts.fullmatch_Cat in Hn as (s1 & s2 & -> & H1 & H2).
      apply Re_facts.fullmatch_Class in H2 as (c & -> & Hc).
      apply Ascii.eqb_eq in Hc. subst c.
      apply numeric_facts.pattern_shape in H1
        as (sg & mant & ex & -> & Hsg & Hm & He).
      exists sg, mant, ex. auto.
  - intros (sg & mant & ex & [->| ->] & Hsg & Hm & He).
    + now rewrite pattern_matches.
    + rewrite (@fullmatch_Cat_app (sg ++ mant ++ ex) pattern
                 (Class (Ascii.eqb newline)) nl).
      * now rewrite orb_true_r.
      * now apply pattern_matches.
      * reflexivity.
Qed.

End pattern_facts.

(* ================================================================== *)
(** * Field files                                                       *)
(* ================================================================== *)

Module field_file_facts.

Import PyStr np oneD_sampler fixtures sampler_props field_props.
Local Open Scope string_scope.

(** Plain lines are run through once the scan has started. *)
Lemma passes_plain (values : list string) :
  forallb plain values = true ->
  passes true values = true /\ started_after true values = true.
Proof.
  induction values as [|v values IH]; intros H; [now split|].
  cbn [forallb] in H. apply andb_true_iff in H as [Hv H].
  destruct (IH H) as [Hp Hs].
  cbn [passes started_after].
  destruct (contains "internalField" v); cbn [negb orb];
    unfold plain in Hv; rewrite Hv; now split.
Qed.

Lemma slice_middle {X} (a b c : list X) :
  slice (a ++ b ++ c) (List.length a) (List.length a + List.length b) = b.
Proof.
  unfold slice. rewrite skipn_app, skipn_all, Nat.sub_diag. cbn [skipn app].
  replace (List.length a + List.length b - List.length a)
    with (List.length b) by lia.
  rewrite firstn_app, firstn_all, Nat.sub_diag. cbn [firstn].
  apply app_nil_r.
Qed.

(** The values of a non-uniform field are the lines between the line
    with the opening parenthesis and the line with the closing one,
    whatever the lines before say. *)
Theorem values_between_parentheses
    (pre values rest : list string) (open close : string) (l : locals) :
  passes false pre = true ->
  started_after false pre = true ->
  contains " uniform" open = false ->
  contains "(" open = true -> contains ")" open = false ->
  forallb plain values = true ->
  contains " uniform" close = false ->
  contains "(" close = false -> contains ")" close = true ->
  field_array (pre ++ open :: values ++ close :: rest) l
  = (dim_array <- loadtxt_reshape values ;;
     ret (dim_array,
          {| data_shape := List.length dim_array;
             start := Some (S (List.length pre));
             end_ := Some (S (List.length pre) + List.length values) |})).
Proof.
  intros Hpre Hstarted Hu Ho Hoc Hvalues Hcu Hco Hc.
  destruct (passes_plain _ Hvalues) as [Hp Hs].
  assert (Hscan :
    scan_lines (pre ++ open :: values ++ close :: rest) 0 false
               (start l) (end_ l)
    = ret (None, Some (S (List.length pre)),
           Some (S (List.length pre) + List.length values))).
  { rewrite uniform_facts.scan_lines_passes by assumption.
    rewrite Hstarted. cbn [scan_lines].
    replace (if contains "internalField" open then true else true)
      with true by now destruct (contains "internalField" open).
    rewrite Hu, Ho, Hoc. cbn [andb].
    rewrite uniform_facts.scan_lines_passes by assumption.
    rewrite Hs. cbn [scan_lines].
    replace (if contains "internalField" close then true else true)
      with true by now destruct (contains "internalField" close).
    rewrite Hcu, Hco, Hc. cbn [andb]. repeat f_equal; lia. }
  unfold field_array. rewrite Hscan. cbn [bind ret].
  change (pre ++ open :: values ++ close :: rest)%list
    with (pre ++ [open] ++ values ++ close :: rest)%list.
  rewrite (app_assoc pre [open]).
  replace (S (List.length pre)) with (List.length (pre ++ [open]))
    by (rewrite length_app; cbn [List.length]; lia).
  now rewrite slice_middle.
Qed.

Lemma started_after_last (pre : list string) (line : string) :
  forall b,
    started_after b (pre ++ [line])
    = if contains "internalField" line then true else started_after b pre.
Proof.
  induction pre as [|p pre IH]; intros b; cbn [app started_after];
    [reflexivity | apply IH].
Qed.

(** A list written on one line, both parentheses on it, is read as no
    values at all. *)
Theorem list_on_one_line_reads_empty
    (pre rest : list string) (line : string) (l : locals) :
  passes false pre = true ->
  started_after false (pre ++ [line]) = true ->
  contains " uniform" line = false ->
  contains "(" line = true -> contains ")" line = true ->
  field_array (pre ++ line :: rest) l
  = ret ([], {| data_shape := 0;
                start := Some (S (List.length pre));
                end_ := Some (List.length pre) |}).
Proof.
  intros Hpre Hstarted Hu Ho Hc.
  assert (Hs : (if contains "internalField" line then true
                else started_after false pre) = true).
  { now rewrite <- started_after_last. }
  unfold field_array.
  rewrite uniform_facts.scan_lines_passes by assumption.
  cbn [scan_lines]. rewrite Hs, Hu, Ho, Hc. cbn [andb bind ret].
  unfold slice.
  replace (0 + List.length pre - (0 + List.length pre + 1)) with 0 by lia.
  cbn [firstn]. unfold loadtxt_reshape.
  cbn [loadtxt_rows bind ret List.length].
  repeat f_equal; lia.
Qed.

(** A file without the marker of the internal field: the first field
    read fails on the unbound [start]; behind a non-uniform field the
    file is read between the lines that field had bound. *)
Theorem field_without_marker (lines : list string) :
  forallb (fun line => negb (contains "internalField" line)) lines = true ->
  field_array lines initial_locals = unbound "start" /\
  forall shape s e,
    field_array lines {| data_shape := shape; start := Some s;
                         end_ := Some e |}
    = (dim_array <- loadtxt_reshape (slice lines s e) ;;
       ret (dim_array, {| data_shape := List.length dim_array;
                          start := Some s; end_ := Some e |})).
Proof.
  intros H.
  assert (Hscan : forall i st en,
            scan_lines lines i false st en = ret (None, st, en)).
  { induction lines as [|line lines IH]; intros i st en; [reflexivity|].
    cbn [forallb] in H. apply andb_true_iff in H as [Hl H].
    apply negb_true_iff in Hl. cbn [scan_lines]. rewrite Hl.
    rewrite !andb_false_r. now apply IH. }
  split.
  - unfold field_array. now rewrite Hscan.
  - intros shape s e. unfold field_array. now rewrite Hscan.
Qed.

(** With at most one directory of a numeric name there is no time
    directory left to read, and [np.concatenate] is handed no array. *)
Theorem collect_needs_two_numeric_directories
    (species_names : list string) (cwd : directory) :
  List.length (numeric_dirs cwd) <= 1 ->
  time_dirs cwd = ret [] /\
  collect species_names cwd
  = raise (ValueError "need at least one array to concatenate").
Proof.
  intros Hlen.
  assert (Ht : time_dirs cwd = ret []).
  { unfold time_dirs, sorted. fold (numeric_dirs cwd).
    destruct (@time_dirs_facts.mapM_returns _ _
                (fun d => k <- PyFloat.float_of_string (name d) ;; ret (k, d))
                (numeric_dirs cwd)) as [keyed Hm].
    { intros d Hd. apply time_dirs_facts.numeric_dirs_numeric in Hd as [_ Hd].
      apply numeric_facts.numeric_string_float in Hd as (k & -> & _).
      now exists (k, d). }
    rewrite Hm. cbn [bind ret].
    destruct (time_dirs_facts.keyed_items _ _ Hm) as [Hsnd _].
    assert (Hl : List.length (map snd (sort_keyed keyed)) <= 1).
    { rewrite length_map.
      rewrite (Permutation_length (time_dirs_facts.sort_keyed_Permutation keyed)).
      now rewrite <- (length_map snd), Hsnd. }
    destruct (map snd (sort_keyed keyed)) as [|d [|d' ds]];
      [reflexivity | reflexivity | cbn [List.length] in Hl; lia]. }
  split; [exact Ht|].
  unfold collect. rewrite Ht. reflexivity.
Qed.

Lemma collect_needs_two_numeric_directories_witness :
  time_dirs [file "Allrun"; dir "constant" []; dir "0" [("T", T5)]] = ret [] /\
  collect ["H2"] [file "Allrun"; dir "constant" []; dir "0" [("T", T5)]]
  = raise (ValueError "need at least one array to concatenate").
Proof.
  apply (@collect_needs_two_numeric_directories ["H2"]
           [file "Allrun"; dir "constant" []; dir "0" [("T", T5)]]).
  vm_compute. lia.
Defined.

Lemma values_between_parentheses_witness :
  field_array (nonuniform_file "3" ["300"; "310"; "320"; "330"; "340"])
              initial_locals
  = (dim_array <- loadtxt_reshape (text ["300"; "310"; "320"; "330"; "340"]) ;;
     ret (dim_array,
          {| data_shape := List.length dim_array;
             start := Some 11; end_ := Some 16 |})).
Proof.
  apply (@values_between_parentheses
           (text (foam_header
                  ++ ["internalField   nonuniform List<scalar> "; "3"]))
           (text ["300"; "310"; "320"; "330"; "340"])
           (text (";" :: foam_boundary))
           ("(" ++ nl) (")" ++ nl) initial_locals);
    reflexivity.
Defined.

Lemma list_on_one_line_reads_empty_witness :
  field_array
    (text foam_header
     ++ ("internalField   nonuniform List<scalar> 3(300 310 320);" ++ nl)
        :: text foam_boundary) initial_locals
  = ret ([], {| data_shape := 0; start := Some 9; end_ := Some 8 |}).
Proof.
  apply (@list_on_one_line_reads_empty (text foam_header)
           (text foam_boundary)
           ("internalField   nonuniform List<scalar> 3(300 310 320);" ++ nl)
           initial_locals);
    reflexivity.
Defined.

Lemma field_without_marker_witness :
  field_array (text foam_header) initial_locals = unbound "start" /\
  forall shape s e,
    field_array (text foam_header)
                {| data_shape := shape; start := Some s; end_ := Some e |}
    = (dim_array <- loadtxt_reshape (slice (text foam_header) s e) ;;
       ret (dim_array, {| data_shape := List.length dim_array;
                          start := Some s; end_ := Some e |})).
Proof.
  apply (@field_without_marker (text foam_header)). reflexivity.
Defined.

End field_file_facts.

(* ================================================================== *)
(** * Containers: splits, shuffles, items, sources                      *)
(* ================================================================== *)

Module container_facts.

Import np_random PyNum container fixtures.

Section Container.

Variable A : Type.
Variable G : generator.

Lemma train_test_split_inv (self trainDS validDS : Container A) (r : float) :
  train_test_split self r = ret (trainDS, validDS) ->
  exists n cutoffIdx,
    float_of_int (Z.of_nat (shape0 self)) = ret n /\
    int_of_float (r * n)%float = ret cutoffIdx /\
    trainDS = {| data := data self;
                 dataIdx := slice_to (dataIdx self) cutoffIdx |} /\
    validDS = {| data := data self;
                 dataIdx := slice_from (dataIdx self) cutoffIdx |}.
Proof.
  unfold train_test_split. intros H.
  apply collect_facts.bind_ret_inv in H as (n & Hn & H).
  apply collect_facts.bind_ret_inv in H as (k & Hk & H).
  injection H as <- <-. now exists n, k.
Qed.

Lemma shuffle_inv (self self' : Container A) (seed : option Z)
    (g g' : state G) :
  shuffle G self seed g = ret (self', g') ->
  data self' = data self /\
  Permutation (dataIdx self') (seq 0 (shape0 self)).
Proof.
  unfold shuffle. intros H.
  apply collect_facts.bind_ret_inv in H as (g1 & _ & H).
  pose proof (shuffle_facts.permutation_Permutation G (shape0 self) g1) as Hp.
  destruct (permutation G (shape0 self) g1) as [idx g2].
  injection H as <- <-. now split.
Qed.

Lemma mul_nan_l (r n : float) :
  (r =? r)%float = false -> Prim2SF (r * n) = S754_nan.
Proof.
  intros H. rewrite FloatAxioms.eqb_spec in H. rewrite mul_spec.
  destruct (Prim2SF r) as [s|s| |s m e] eqn:Hr; try reflexivity.
  - destruct s; discriminate H.
  - destruct s; discriminate H.
  - exfalso. unfold SFeqb, SFcompare in H. destruct s.
    + rewrite Z.compare_refl, Pos.compare_cont_refl in H. discriminate.
    + rewrite Z.compare_refl, Pos.compare_cont_refl in H. discriminate.
Qed.

(** Whatever the ratio, a split that returns cuts the index array in
    two: the training index followed by the validation index is the
    index of the container, and both sets hold its data.  A negative
    ratio cuts from the end, a ratio above one leaves the validation set
    empty.  A NaN ratio raises [ValueError]. *)
Theorem train_test_split_any_ratio
    (self : Container A) (split_ratio : float) :
  (Z.of_nat (shape0 self) < 2 ^ 63)%Z ->
  (forall trainDS validDS,
     train_test_split self split_ratio = ret (trainDS, validDS) ->
     (dataIdx trainDS ++ dataIdx validDS)%list = dataIdx self /\
     (__len__ trainDS + __len__ validDS)%nat = __len__ self /\
     data trainDS = data self /\ data validDS = data self) /\
  ((split_ratio =? split_ratio)%float = false ->
   train_test_split self split_ratio
   = raise (ValueError "cannot convert float NaN to integer")).
Proof.
  intros Hn. split.
  - intros t v H. apply train_test_split_inv in H as (n & k & _ & _ & -> & ->).
    cbn [data dataIdx]. unfold __len__. cbn [dataIdx].
    rewrite <- length_app, split_facts.slice_to_from. now repeat split.
  - intros Hnan. unfold train_test_split.
    rewrite split_facts.float_of_int_small by lia. cbn [bind ret].
    unfold int_of_float. rewrite (mul_nan_l _ Hnan). reflexivity.
Qed.


(** Shuffling a training set draws a permutation of all the rows of the
    data: after it the set has the length of the data, and the rows of
    the validation set are items of it. *)
Theorem shuffle_after_split_covers_all_rows
    (self trainDS validDS trainDS' : Container A) (split_ratio : float)
    (seed : option Z) (g g' : state G) :
  train_test_split self split_ratio = ret (trainDS, validDS) ->
  shuffle G trainDS seed g = ret (trainDS', g') ->
  Permutation (dataIdx trainDS') (seq 0 (shape0 self)) /\
  __len__ trainDS' = shape0 self /\
  forall k, k < shape0 self -> In k (dataIdx trainDS').
Proof.
  intros Hsplit Hshuffle.
  apply train_test_split_inv in Hsplit as (n & c & _ & _ & -> & _).
  apply shuffle_inv in Hshuffle as [_ Hperm].
  unfold shape0 in Hperm. cbn [data] in Hperm. fold (shape0 self) in Hperm.
  split; [exact Hperm|]. split.
  - unfold __len__. now rewrite (Permutation_length Hperm), length_seq.
  - intros k Hk. apply (Permutation_in k (Permutation_sym Hperm)).
    apply in_seq. lia.
Qed.

(** A split of a shuffled container puts every row of the data in the
    training set or in the validation set, and no row in both. *)
Theorem split_after_shuffle_partitions_rows
    (self self' trainDS validDS : Container A) (split_ratio : float)
    (seed : option Z) (g g' : state G) :
  shuffle G self seed g = ret (self', g') ->
  train_test_split self' split_ratio = ret (trainDS, validDS) ->
  Permutation (dataIdx trainDS ++ dataIdx validDS) (seq 0 (shape0 self)) /\
  NoDup (dataIdx trainDS ++ dataIdx validDS) /\
  (forall k, In k (dataIdx trainDS) -> ~ In k (dataIdx validDS)) /\
  (forall k, k < shape0 self ->
             In k (dataIdx trainDS) \/ In k (dataIdx validDS)).
Proof.
  intros Hshuffle Hsplit.
  apply shuffle_inv in Hshuffle as [_ Hperm].
  apply train_test_split_inv in Hsplit as (n & c & _ & _ & -> & ->).
  cbn [dataIdx]. rewrite split_facts.slice_to_from.
  assert (Hnd : NoDup (dataIdx self')).
  { apply (Permutation_NoDup (Permutation_sym Hperm)), seq_NoDup. }
  split; [exact Hperm|]. split; [exact Hnd|]. split.
  - intros k Ht Hv.
    rewrite <- (split_facts.slice_to_from (dataIdx self') c) in Hnd.
    apply NoDup_app_remove_l in Hnd as Hv'.
    revert Hnd Ht Hv. generalize (slice_to (dataIdx self') c) as t.
    generalize (slice_from (dataIdx self') c) as v.
    intros v t. induction t as [|x t IH]; intros Hnd Ht Hv; [easy|].
    cbn [app] in Hnd. apply NoDup_cons_iff in Hnd as [Hx Hnd].
    destruct Ht as [->|Ht].
    + apply Hx. apply in_or_app. now right.
    + now apply IH.
  - intros k Hk. apply in_app_or.
    rewrite split_facts.slice_to_from.
    apply (Permutation_in k (Permutation_sym Hperm)), in_seq. lia.
Qed.

Lemma slice_bound_le (c : Z) (len : nat) : slice_bound c len <= len.
Proof.
  unfold slice_bound. destruct (c <? 0)%Z eqn:Hc; [|apply Nat.le_min_r].
  apply Z.ltb_lt in Hc. lia.
Qed.

(** A split of a training set cuts at [int(split_ratio * n)] for the
    [n] rows of the data, not for the length of the training set: where
    this cut is no smaller than the cut that made the training set, the
    second training set is the first and the second validation set is
    empty. *)
Theorem split_of_split_counts_all_rows
    (self t1 v1 t2 v2 : Container A) (r1 r2 n : float) (c1 c2 : Z) :
  float_of_int (Z.of_nat (shape0 self)) = ret n ->
  int_of_float (r1 * n)%float = ret c1 ->
  int_of_float (r2 * n)%float = ret c2 ->
  (0 <= c1 <= c2)%Z ->
  train_test_split self r1 = ret (t1, v1) ->
  train_test_split t1 r2 = ret (t2, v2) ->
  dataIdx t2 = dataIdx t1 /\ dataIdx v2 = [] /\ __len__ t2 = __len__ t1.
Proof.
  intros Hn Hc1 Hc2 [H0 Hle] H1 H2.
  apply train_test_split_inv in H1 as (n1 & k1 & Hn1 & Hk1 & -> & _).
  apply train_test_split_inv in H2 as (n2 & k2 & Hn2 & Hk2 & -> & ->).
  unfold shape0 in Hn2. cbn [data] in Hn2. fold (shape0 self) in Hn2.
  rewrite Hn in Hn1, Hn2. injection Hn1 as <-. injection Hn2 as <-.
  rewrite Hc1 in Hk1. rewrite Hc2 in Hk2.
  injection Hk1 as <-. injection Hk2 as <-.
  cbn [dataIdx data].
  assert (Hlen : List.length (slice_to (dataIdx self) c1)
                 <= slice_bound c2 (List.length (slice_to (dataIdx self) c1))).
  { unfold slice_to at 1 2. rewrite length_firstn.
    pose proof (slice_bound_le c1 (List.length (dataIdx self))) as Hb.
    rewrite Nat.min_l by exact Hb.
    unfold slice_bound.
    destruct (c1 <? 0)%Z eqn:E1; [apply Z.ltb_lt in E1; lia|].
    destruct (c2 <? 0)%Z eqn:E2; [apply Z.ltb_lt in E2; lia|].
    lia. }
  assert (Ht : slice_to (slice_to (dataIdx self) c1) c2
               = slice_to (dataIdx self) c1)
    by (unfold slice_to at 1; now apply firstn_all2).
  split; [exact Ht|]. split.
  - unfold slice_from. now apply skipn_all2.
  - unfold __len__. cbn [dataIdx]. now rewrite Ht.
Qed.

Lemma nth_error_seq (n i : nat) : i < n -> nth_error (seq 0 n) i = Some i.
Proof.
  intros Hi. rewrite (nth_error_nth' _ 0) by now rewrite length_seq.
  now rewrite seq_nth.
Qed.

Lemma firstn_last {X} (row : list X) (x : X) :
  nth_error row (List.length row - 1) = Some x ->
  (firstn (List.length row - 1) row ++ [x])%list = row.
Proof.
  assert (H : forall n, List.length row = S n ->
            nth_error row n = Some x -> (firstn n row ++ [x])%list = row).
  { induction row as [|y row IH]; intros n Hn Hx; [discriminate|].
    destruct n as [|n]; cbn [List.length firstn nth_error app] in *.
    - destruct row; [|discriminate]. now injection Hx as ->.
    - f_equal. apply IH; [lia | assumption]. }
  destruct row as [|y row]; [discriminate|].
  apply H. cbn [List.length]. lia.
Qed.

Lemma subscript_in_range {X} (l : list X) (i : Z) :
  (- Z.of_nat (List.length l) <= i < Z.of_nat (List.length l))%Z ->
  exists x,
    nth_error l (Z.to_nat (i mod Z.of_nat (List.length l))) = Some x /\
    subscript l i = ret x.
Proof.
  intros Hi. unfold subscript.
  set (n := Z.of_nat (List.length l)) in *.
  assert (Hj : (i mod n = if (i <? 0)%Z then i + n else i)%Z).
  { destruct (i <? 0)%Z eqn:Hneg.
    - apply Z.ltb_lt in Hneg.
      rewrite <- (Z.mod_small (i + n) n) by lia.
      rewrite <- (Z_mod_plus_full i 1 n). f_equal. lia.
    - apply Z.ltb_ge in Hneg. now rewrite Z.mod_small by lia. }
  rewrite <- Hj.
  assert (Hr : (0 <= i mod n < n)%Z) by (apply Z.mod_pos_bound; lia).
  destruct (i mod n <? 0)%Z eqn:Hneg; [apply Z.ltb_lt in Hneg; lia|].
  destruct (nth_error l (Z.to_nat (i mod n))) as [x|] eqn:Hx.
  - now exists x.
  - apply nth_error_None in Hx. lia.
Qed.

Lemma subscript_out_of_range {X} (l : list X) (i : Z) :
  (i < - Z.of_nat (List.length l) \/ Z.of_nat (List.length l) <= i)%Z ->
  subscript l i = raise (IndexError "index out of bounds").
Proof.
  intros Hi. unfold subscript.
  destruct (i <? 0)%Z eqn:Hneg.
  - apply Z.ltb_lt in Hneg.
    destruct (i + Z.of_nat (List.length l) <? 0)%Z eqn:Hneg';
      [reflexivity|].
    apply Z.ltb_ge in Hneg'. lia.
  - apply Z.ltb_ge in Hneg.
    destruct (i <? 0)%Z eqn:Hneg'; [reflexivity|].
    destruct (nth_error l (Z.to_nat i)) as [x|] eqn:Hx; [|reflexivity].
    assert (Z.to_nat i < List.length l)
      by (apply nth_error_Some; congruence).
    lia.
Qed.

(** Items of a container as [__init__] leaves it.  Item [idx] of
    [-n..n-1] is row [idx mod n] of the data, cut in its features, all
    cells but the last, and its label, the last cell: the two together
    are the row.  A row without cells and an [idx] outside [-n..n-1]
    raise [IndexError]. *)
Theorem getitem_of_fresh_container (tensor : list (list A)) (idx : Z) :
  ((- Z.of_nat (List.length tensor) <= idx < Z.of_nat (List.length tensor))%Z ->
   exists row,
     nth_error tensor (Z.to_nat (idx mod Z.of_nat (List.length tensor)))
     = Some row /\
     (row = [] ->
      __getitem__ (init tensor) idx
      = raise (IndexError "index out of bounds")) /\
     (row <> [] ->
      exists features label,
        __getitem__ (init tensor) idx = ret (features, [label]) /\
        (features ++ [label])%list = row)) /\
  ((idx < - Z.of_nat (List.length tensor)
    \/ Z.of_nat (List.length tensor) <= idx)%Z ->
   __getitem__ (init tensor) idx = raise (IndexError "index out of bounds")).
Proof.
  split.
  - intros Hi.
    assert (Hi' : (- Z.of_nat (List.length (seq 0 (List.length tensor))) <= idx
                   < Z.of_nat (List.length (seq 0 (List.length tensor))))%Z)
      by now rewrite length_seq.
    destruct (subscript_in_range _ Hi') as (k & Hk & Hsub).
    rewrite length_seq in Hk.
    assert (Hr : (0 <= idx mod Z.of_nat (List.length tensor)
                  < Z.of_nat (List.length tensor))%Z)
      by (apply Z.mod_pos_bound; lia).
    rewrite nth_error_seq in Hk by lia. injection Hk as <-.
    destruct (nth_error tensor
                (Z.to_nat (idx mod Z.of_nat (List.length tensor))))
      as [row|] eqn:Hrow; [|apply nth_error_None in Hrow; lia].
    exists row. split; [reflexivity|].
    unfold __getitem__, getModelFeatures, getModelLabels, init.
    cbn [dataIdx data]. rewrite Hsub. cbn [bind ret].
    rewrite (shuffle_facts.subscript_nat _ _ Hrow). cbn [bind ret].
    split.
    + intros ->. reflexivity.
    + intros Hne.
      assert (Hlen : 0 < List.length row)
        by (destruct row; [easy | cbn; lia]).
      assert (Hlast : (- Z.of_nat (List.length row) <= -1
                       < Z.of_nat (List.length row))%Z) by lia.
      destruct (subscript_in_range _ Hlast) as (x & Hx & Hsubx).
      rewrite Hsubx. cbn [bind ret].
      exists (slice_to row (-1)), x. split; [reflexivity|].
      replace (Z.to_nat (-1 mod Z.of_nat (List.length row)))
        with (List.length row - 1) in Hx.
      * unfold slice_to, slice_bound. cbn [Z.ltb Z.compare].
        replace (Z.to_nat (Z.max 0 (-1 + Z.of_nat (List.length row))))
          with (List.length row - 1) by lia.
        now apply firstn_last.
      * rewrite <- (Z_mod_plus_full (-1) 1).
        rewrite Z.mod_small by lia. lia.
  - intros Hi. unfold __getitem__, init. cbn [dataIdx].
    rewrite subscript_out_of_range; [reflexivity|].
    now rewrite length_seq.
Qed.

End Container.

Lemma train_test_split_any_ratio_witness :
  (forall trainDS validDS,
     train_test_split (init ten_rows) (-0.25) = ret (trainDS, validDS) ->
     (dataIdx trainDS ++ dataIdx validDS)%list = dataIdx (init ten_rows) /\
     (__len__ trainDS + __len__ validDS)%nat = __len__ (init ten_rows) /\
     data trainDS = data (init ten_rows) /\
     data validDS = data (init ten_rows)) /\
  (((-0.25) =? (-0.25))%float = false ->
   train_test_split (init ten_rows) (-0.25)
   = raise (ValueError "cannot convert float NaN to integer")).
Proof.
  apply (@train_test_split_any_ratio nat (init ten_rows) (-0.25)%float).
  reflexivity.
Defined.

Lemma shuffle_after_split_covers_all_rows_witness :
  Permutation [0; 3; 2; 1] (seq 0 (shape0 (init four_rows))) /\
  __len__ {| data := four_rows; dataIdx := [0; 3; 2; 1] |}
  = shape0 (init four_rows) /\
  forall k, k < shape0 (init four_rows) -> In k [0; 3; 2; 1].
Proof.
  apply (@shuffle_after_split_covers_all_rows nat counter_generator
           (init four_rows)
           {| data := four_rows; dataIdx := [0; 1] |}
           {| data := four_rows; dataIdx := [2; 3] |}
           {| data := four_rows; dataIdx := [0; 3; 2; 1] |}
           0.5%float None 1 400).
  - reflexivity.
  - reflexivity.
Defined.

Lemma split_after_shuffle_partitions_rows_witness :
  Permutation ([0; 3] ++ [2; 1]) (seq 0 (shape0 (init four_rows))) /\
  NoDup ([0; 3] ++ [2; 1]) /\
  (forall k, In k [0; 3] -> ~ In k [2; 1]) /\
  (forall k, k < shape0 (init four_rows) -> In k [0; 3] \/ In k [2; 1]).
Proof.
  apply (@split_after_shuffle_partitions_rows nat counter_generator
           (init four_rows)
           {| data := four_rows; dataIdx := [0; 3; 2; 1] |}
           {| data := four_rows; dataIdx := [0; 3] |}
           {| data := four_rows; dataIdx := [2; 1] |}
           0.5%float None 1 400).
  - reflexivity.
  - reflexivity.
Defined.

Lemma split_of_split_counts_all_rows_witness :
  dataIdx {| data := ten_rows; dataIdx := [0; 1; 2; 3; 4; 5; 6] |}
  = [0; 1; 2; 3; 4; 5; 6] /\
  dataIdx {| data := ten_rows; dataIdx := [] |} = [] /\
  __len__ {| data := ten_rows; dataIdx := [0; 1; 2; 3; 4; 5; 6] |}
  = __len__ {| data := ten_rows; dataIdx := [0; 1; 2; 3; 4; 5; 6] |}.
Proof.
  apply (@split_of_split_counts_all_rows nat (init ten_rows)
           {| data := ten_rows; dataIdx := [0; 1; 2; 3; 4; 5; 6] |}
           {| data := ten_rows; dataIdx := [7; 8; 9] |}
           {| data := ten_rows; dataIdx := [0; 1; 2; 3; 4; 5; 6] |}
           {| data := ten_rows; dataIdx := [] |}
           0.75%float 0.875%float 10%float 7%Z 8%Z).
  - reflexivity.
  - reflexivity.
  - reflexivity.
  - lia.
  - reflexivity.
  - reflexivity.
Defined.

Section Loading.

Import PyExc container_load container_props.

Variable isfile : string -> bool.
Variable A : Type.
Variable to_dtype : float -> A.

(** Induction on a source, with the hypothesis for every item of a
    list. *)
Lemma datasrc_induction (P : datasrc -> Prop) :
  (forall path, P (SrcStr path)) -> P SrcDataFrame ->
  (forall items, Forall P items -> P (SrcList items)) ->
  (forall a, P (SrcArray a)) -> P SrcOther ->
  forall src, P src.
Proof.
  intros Hstr Hdf Hlist Harr Hother.
  fix IH 1. intros [path| |items|a|].
  - apply Hstr.
  - apply Hdf.
  - apply Hlist. induction items as [|d items IHitems]; constructor.
    + apply IH.
    + exact IHitems.
  - apply Harr.
  - apply Hother.
Qed.

Lemma last_append {X} (l1 l2 : list X) (d : X) :
  last (l1 ++ l2) d = last l2 (last l1 d).
Proof.
  induction l1 as [|x l1 IH]; [reflexivity|].
  destruct l1 as [|y l1].
  - cbn [app last]. destruct l2 as [|z l2]; [reflexivity|].
    clear. revert z. induction l2 as [|w l2 IH]; intros z; [reflexivity|].
    cbn [last] in *. apply IH.
  - cbn [app last] in IH |- *. exact IH.
Qed.

(** What [load_data] leaves in [self.data]: the last of the arrays. *)
Lemma load_data_done (src : datasrc) : forall data data',
  load_data isfile src data = done data' <->
  exists arrs, leaves src = map SrcArray arrs /\
               data' = last (map Some arrs) data.
Proof.
  induction src as [path| |items IH|a|] using datasrc_induction;
    intros data data'.
  - cbn [load_data leaves]. split.
    + destruct (isfile path); [|discriminate].
      destruct (last_field path "" =? "npy")%string; [discriminate|].
      destruct (last_field path "" =? "yaml")%string; discriminate.
    + intros ([|a arrs] & H & _); discriminate H.
  - cbn [load_data leaves]. split; [discriminate|].
    intros ([|a arrs] & H & _); discriminate H.
  - cbn [load_data leaves]. revert data.
    induction IH as [|d items Hd _ IHitems]; intros data.
    + split.
      * intros [= <-]. now exists [].
      * intros ([|a arrs] & H & ->); [reflexivity | discriminate H].
    + split.
      * unfold and_then at 1.
        destruct (load_data isfile d data) as [e|data1] eqn:H1;
          [discriminate|].
        intros H2. apply Hd in H1 as (arrs1 & Hl1 & ->).
        apply IHitems in H2 as (arrs2 & Hl2 & ->).
        exists (arrs1 ++ arrs2)%list. rewrite Hl1, Hl2, !map_app.
        split; [reflexivity|]. now rewrite last_append.
      * intros (arrs & Hl & ->).
        symmetry in Hl.
        apply map_eq_app in Hl as (arrs1 & arrs2 & -> & Hl1 & Hl2).
        assert (H1 : load_data isfile d data
                     = done (last (map Some arrs1) data))
          by (apply Hd; now exists arrs1).
        unfold and_then at 1. rewrite H1.
        apply IHitems. exists arrs2. split; [now symmetry|].
        now rewrite map_app, last_append.
  - cbn [load_data leaves]. split.
    + intros [= <-]. now exists [a].
    + intros ([|b [|b' arrs]] & H & ->); try discriminate H.
      now injection H as <-.
  - cbn [load_data leaves]. split; [discriminate|].
    intros ([|a arrs] & H & _); discriminate H.
Qed.

(** The sources [Container(datasrc)] returns for, and what the
    container then holds. *)
Lemma container_returns_iff (src : datasrc) (c : Container A) :
  __init__ isfile to_dtype src = done c <->
  exists arrs a,
    leaves src = map SrcArray (arrs ++ [a]) /\
    c = init (map (map to_dtype) a).
Proof.
  unfold __init__. split.
  - unfold and_then.
    destruct (load_data isfile src None) as [e|data] eqn:H; [discriminate|].
    apply load_data_done in H as (arrs & Hl & ->).
    destruct arrs as [|a0 arrs]; [discriminate|].
    destruct (@exists_last _ (a0 :: arrs)) as (arrs' & a & Heq); [easy|].
    rewrite Heq in Hl |- *. rewrite map_app. cbn [map].
    rewrite last_last. intros [= <-]. now exists arrs', a.
  - intros (arrs & a & Hl & ->).
    assert (H : load_data isfile src None
                = done (last (map Some (arrs ++ [a])) None))
      by (apply load_data_done; now exists (arrs ++ [a])%list).
    rewrite H, map_app. cbn [map]. now rewrite last_last.
Qed.

End Loading.

End container_facts.

(* ================================================================== *)
(** * Containers: the sources that are refused                       *)
(* ================================================================== *)

Module container_source_facts.

Import PyExc container container_load container_props.
Local Open Scope string_scope.

Section Loading.

Variable isfile : string -> bool.
Variable A : Type.
Variable to_dtype : float -> A.

(** A list is loaded item by item. *)
Lemma load_data_cons (d : datasrc) (items : list datasrc)
    (data : option ndarray) :
  load_data isfile (SrcList (d :: items)) data
  = (data' <~ load_data isfile d data ;;
     load_data isfile (SrcList items) data').
Proof. reflexivity. Qed.

Lemma load_data_app (l1 l2 : list datasrc) : forall data,
  load_data isfile (SrcList (l1 ++ l2)) data
  = (data' <~ load_data isfile (SrcList l1) data ;;
     load_data isfile (SrcList l2) data').
Proof.
  induction l1 as [|d l1 IH]; intros data; [reflexivity|].
  cbn [app]. rewrite !load_data_cons.
  destruct (load_data isfile d data) as [e|data1]; cbn [and_then];
    [reflexivity | apply IH].
Qed.

(** Loading a source is loading its members that are no lists, one
    after the other. *)
Lemma load_data_leaves (src : datasrc) : forall data,
  load_data isfile src data = load_data isfile (SrcList (leaves src)) data.
Proof.
  induction src as [path| |items IH|a|]
    using container_facts.datasrc_induction; intros data.
  - cbn [leaves]. rewrite load_data_cons.
    now destruct (load_data isfile (SrcStr path) data).
  - reflexivity.
  - cbn [leaves]. revert data.
    induction IH as [|d items Hd _ IHitems]; intros data; [reflexivity|].
    rewrite load_data_cons, load_data_app, Hd.
    destruct (load_data isfile (SrcList (leaves d)) data) as [e|data1];
      cbn [and_then]; [reflexivity | apply IHitems].
  - reflexivity.
  - reflexivity.
Qed.

Lemma load_data_arrays (arrs : list ndarray) : forall data,
  load_data isfile (SrcList (map SrcArray arrs)) data
  = done (last (map Some arrs) data).
Proof.
  induction arrs as [|a arrs IH]; intros data; [reflexivity|].
  cbn [map]. rewrite load_data_cons.
  change (load_data isfile (SrcArray a) data) with (@done (option ndarray) (Some a)).
  cbn [and_then done]. rewrite IH. f_equal.
  change (Some a :: map Some arrs) with ([Some a] ++ map Some arrs)%list.
  now rewrite container_facts.last_append.
Qed.

(** The arrays before a member that is refused do not matter. *)
Lemma init_refused (src : datasrc) (arrs : list ndarray)
    (leaf : datasrc) (rest : list datasrc) (e : error) :
  leaves src = (map SrcArray arrs ++ leaf :: rest)%list ->
  (forall data, load_data isfile leaf data = throw e) ->
  __init__ isfile to_dtype src = throw e.
Proof.
  intros Hl He. unfold __init__.
  rewrite load_data_leaves, Hl, load_data_app, load_data_arrays.
  cbn [and_then done]. rewrite load_data_cons, He. reflexivity.
Qed.

(** [Container(datasrc)] over the members of [datasrc] that are no
    lists, in the order of the source.  It returns for the sources whose
    members are arrays, one at least, and for no others; the container
    then holds the last array, converted, and the index [0..n-1] of its
    rows.  A source without a member, a list of empty lists say, raises
    [AttributeError].  Otherwise the first member that is no array
    decides: a [DataFrame] and an object of another type raise
    [NotImplementedError]; a path raises [AssertionError] where there
    is no file, [NotImplementedError] for a file whose name ends in
    [npy] or [yaml], and [ValueError] for any other file. *)
Theorem container_of_the_last_array (src : datasrc) :
  (forall c,
     __init__ isfile to_dtype src = done c <->
     exists arrs a,
       leaves src = map SrcArray (arrs ++ [a]) /\
       c = init (map (map to_dtype) a)) /\
  (leaves src = [] ->
   __init__ isfile to_dtype src
   = throw (Builtin
       (AttributeError "'NoneType' object has no attribute 'shape'"))) /\
  (forall arrs leaf rest,
     leaves src = (map SrcArray arrs ++ leaf :: rest)%list ->
     (leaf = SrcDataFrame \/ leaf = SrcOther ->
      __init__ isfile to_dtype src = throw NotImplementedError) /\
     (forall path,
        leaf = SrcStr path ->
        __init__ isfile to_dtype src
        = if isfile path then
            if (last_field path "" =? "npy")
               || (last_field path "" =? "yaml")
            then throw NotImplementedError
            else throw (Builtin
                   (ValueError "File found but not a supported file type."))
          else
            throw (AssertionError
              ("Specified dataset is assumed to be a file address at, but no valid file is found at "
               ++ path ++ ".")))).
Proof.
  split; [intros c; apply container_facts.container_returns_iff|].
  split.
  - intros Hl. unfold __init__. now rewrite load_data_leaves, Hl.
  - intros arrs leaf rest Hl. split.
    + intros [-> | ->]; (eapply init_refused; [exact Hl|]); reflexivity.
    + intros path ->.
      destruct (isfile path) eqn:Hfile.
      * destruct (last_field path "" =? "npy") eqn:Hnpy;
          [|destruct (last_field path "" =? "yaml") eqn:Hyaml];
          cbn [orb]; (eapply init_refused; [exact Hl|]); intros data;
          cbn [load_data]; now rewrite Hfile, Hnpy, ?Hyaml.
      * eapply init_refused; [exact Hl|]. intros data. cbn [load_data].
        now rewrite Hfile.
Qed.

End Loading.

End container_source_facts.

(* ================================================================== *)
(** * Configurations and the zero-dimensional sampler                *)
(* ================================================================== *)

Module config_facts.

Import PyExc config_parser zeroD_sampler fixtures.
Local Open Scope string_scope.

Lemma required_done key d v :
  required key d = done v <-> lookup key d = Some v.
Proof.
  unfold required. destruct (lookup key d) as [w|]; split;
    try discriminate; now intros [= ->].
Qed.

Lemma and_then_done {A B} (m : outcome A) (k : A -> outcome B) (b : B) :
  (x <~ m ;; k x) = done b <-> exists a, m = done a /\ k a = done b.
Proof.
  destruct m as [e|a]; cbn [and_then]; split.
  - discriminate.
  - intros (a & H & _). discriminate H.
  - intros H. now exists a.
  - now intros (a' & [= <-] & H).
Qed.

(** [load_config] builds a configuration for the mappings whose
    [config_type] is ['0D'] and whose keys are the six fields, no key
    missing and no other key present; every other mapping with a
    [config_type], the ['1D'] ones among them, yields [None]. *)
Theorem load_config_returns (config_data : yaml) (r : option Config0D) :
  load_config config_data = done r <->
  exists d v,
    config_data = Map d /\ lookup "config_type" d = Some v /\
    match r with
    | None => v <> Str "0D"
    | Some c =>
        v = Str "0D" /\
        forallb (fun kv => is_field (fst kv)) d = true /\
        lookup "mechanism" d = Some (mechanism c) /\
        lookup "scenario_type" d = Some (scenario_type c) /\
        lookup "config_type" d = Some (config_type c) /\
        lookup "phi_range" d = Some (phi_range c) /\
        lookup "pressure_range" d = Some (pressure_range c) /\
        lookup "temperature_range" d = Some (temperature_range c)
    end.
Proof.
  assert (H0D : forall v, is_0D v = true <-> v = Str "0D").
  { intros v. destruct v; cbn [is_0D]; split; try discriminate.
    - intros H. apply String.eqb_eq in H. now subst.
    - intros [= ->]. reflexivity. }
  unfold load_config. rewrite and_then_done. split.
  - intros (v & Hget & H).
    destruct config_data as [| | | | | |d]; try discriminate Hget.
    cbn [getitem] in Hget.
    destruct (lookup "config_type" d) as [w|] eqn:Hl; [|discriminate].
    injection Hget as ->. exists d, v. split; [reflexivity|].
    split; [exact Hl|].
    destruct (is_0D v) eqn:Hv.
    + apply H0D in Hv. apply and_then_done in H as (c & Hc & [= <-]).
      split; [exact Hv|]. unfold Config0D_of in Hc.
      destruct (forallb _ d) eqn:Hkeys; [|discriminate].
      split; [reflexivity|].
      apply and_then_done in Hc as (x1 & H1%required_done & Hc).
      apply and_then_done in Hc as (x2 & H2%required_done & Hc).
      apply and_then_done in Hc as (x3 & H3%required_done & Hc).
      apply and_then_done in Hc as (x4 & H4%required_done & Hc).
      apply and_then_done in Hc as (x5 & H5%required_done & Hc).
      apply and_then_done in Hc as (x6 & H6%required_done & Hc).
      injection Hc as <-. cbn. now repeat split.
    + injection H as <-. intros Hv'. apply H0D in Hv'. congruence.
  - intros (d & v & -> & Hl & H). exists v. cbn [getitem]. rewrite Hl.
    split; [reflexivity|]. destruct r as [c|].
    + destruct H as (-> & Hkeys & H1 & H2 & H3 & H4 & H5 & H6).
      cbn [is_0D String.eqb Ascii.eqb Bool.eqb].
      apply and_then_done. exists c. split; [|reflexivity].
      unfold Config0D_of. rewrite Hkeys.
      repeat (apply and_then_done; eexists;
              split; [apply required_done; eassumption|]).
      now destruct c.
    + destruct (is_0D v) eqn:Hv; [|reflexivity].
      apply H0D in Hv. contradiction.
Qed.

(** The metadata of a sampler built on what [load_config] returned: the
    scenario of a ['0D'] configuration is the [scenario_type] of the
    file; for a mapping with another [config_type], a ['1D'] one say,
    [get_metadata] raises [AttributeError]. *)
Theorem metadata_of_loaded_config
    (d : list (yaml * yaml)) (v : yaml) (c : option Config0D) :
  lookup "config_type" d = Some v ->
  load_config (Map d) = done c ->
  (v = Str "0D" ->
   exists t, lookup "scenario_type" d = Some t /\
             get_metadata (sample (__init__ c))
             = done {| variables := ["temperature"; "pressure"; "..."];
                       scenario := t |}) /\
  (v <> Str "0D" ->
   get_metadata (sample (__init__ c))
   = throw (Builtin (AttributeError
       "'NoneType' object has no attribute 'scenario_type'"))).
Proof.
  intros Hl H. apply load_config_returns in H as (d' & v' & [= <-] & Hl' & H).
  rewrite Hl in Hl'. injection Hl' as <-.
  destruct c as [c|].
  - destruct H as (-> & _ & _ & Hs & _). split; [|congruence].
    intros _. exists (scenario_type c). now split.
  - split; [contradiction | reflexivity].
Qed.

Lemma metadata_of_loaded_config_witness :
  (Str "1D" = Str "0D" ->
   exists t, lookup "scenario_type" config_1D = Some t /\
             get_metadata (sample (zeroD_sampler.__init__ None))
             = done {| variables := ["temperature"; "pressure"; "..."];
                       scenario := t |}) /\
  (Str "1D" <> Str "0D" ->
   get_metadata (sample (zeroD_sampler.__init__ None))
   = throw (Builtin (AttributeError
       "'NoneType' object has no attribute 'scenario_type'"))).
Proof.
  apply (@config_facts.metadata_of_loaded_config config_1D (Str "1D") None);
    reflexivity.
Defined.

End config_facts.

(* ================================================================== *)
(** * Merging data sets                                              *)
(* ================================================================== *)

Module merger_facts.

Import PyExc np merger.
Local Open Scope Z_scope.

Lemma lift_done {A} (m : result A) (a : A) : lift m = done a <-> m = ret a.
Proof.
  destruct m as [e|x]; cbn [lift]; split; try discriminate;
    now intros [= ->].
Qed.

Lemma merge_done (datasets : list array2) (axis : Z) (a : array2) :
  merge datasets axis = done a <-> concatenate datasets axis = done a.
Proof.
  unfold merge. destruct (concatenate datasets axis); cbn [and_then];
    split; auto.
Qed.

Lemma concatenate_axis0_ret (blocks : list array2) (a : array2) :
  concatenate_axis0 blocks = ret a <->
  exists b rest, blocks = b :: rest /\
    Forall (fun b' => ncols b' = ncols b) blocks /\
    a = {| ncols := ncols b; rows := List.concat (map rows blocks) |}.
Proof.
  unfold concatenate_axis0. destruct blocks as [|b rest].
  - split; [discriminate | intros (b & rest & H & _); discriminate H].
  - destruct (forallb _ (b :: rest)) eqn:Hf.
    + split.
      * intros [= <-]. exists b, rest. split; [reflexivity|].
        split; [|reflexivity].
        rewrite forallb_forall in Hf. apply Forall_forall.
        intros x Hx. now apply Nat.eqb_eq, Hf.
      * intros (b' & rest' & [= <- <-] & _ & ->). reflexivity.
    + split; [discriminate|].
      intros (b' & rest' & [= <- <-] & Hall & _). exfalso.
      assert (Ht : forallb (fun b' => Nat.eqb (ncols b') (ncols b))
                           (b :: rest) = true).
      { apply forallb_forall. intros x Hx. apply Nat.eqb_eq.
        rewrite Forall_forall in Hall. now apply Hall. }
      congruence.
Qed.

Lemma concatenate_columns_ret (blocks : list array2) (a : array2) :
  concatenate_columns blocks = ret a <->
  exists b rest, blocks = b :: rest /\
    Forall (fun b' => List.length (rows b') = List.length (rows b)) blocks /\
    a = {| ncols := list_sum (map ncols blocks);
           rows := map (joined_row blocks) (seq 0 (List.length (rows b))) |}.
Proof.
  unfold concatenate_columns. destruct blocks as [|b rest].
  - split; [discriminate | intros (b & rest & H & _); discriminate H].
  - destruct (forallb _ (b :: rest)) eqn:Hf.
    + split.
      * intros [= <-]. exists b, rest. split; [reflexivity|].
        split; [|reflexivity].
        rewrite forallb_forall in Hf. apply Forall_forall.
        intros x Hx. now apply Nat.eqb_eq, Hf.
      * intros (b' & rest' & [= <- <-] & _ & ->). reflexivity.
    + split; [discriminate|].
      intros (b' & rest' & [= <- <-] & Hall & _). exfalso.
      assert (Ht : forallb (fun b' => Nat.eqb (List.length (rows b'))
                                              (List.length (rows b)))
                           (b :: rest) = true).
      { apply forallb_forall. intros x Hx. apply Nat.eqb_eq.
        rewrite Forall_forall in Hall. now apply Hall. }
      congruence.
Qed.

Lemma nth_map_seq {X} (f : nat -> X) (n i : nat) (d : X) :
  (i < n)%nat -> nth i (map f (seq 0 n)) d = f i.
Proof.
  intros Hi. rewrite (nth_indep _ d (f 0%nat))
    by now rewrite length_map, length_seq.
  now rewrite map_nth, seq_nth.
Qed.

Lemma Forall_eq_head {X} (f : X -> nat) (x y : X) (xs ys : list X) :
  Forall (fun b => f b = f x) ((x :: xs) ++ y :: ys) <->
  Forall (fun b => f b = f x) (x :: xs) /\
  Forall (fun b => f b = f y) (y :: ys) /\ f y = f x.
Proof.
  rewrite Forall_app. split.
  - intros [Hx Hy]. split; [exact Hx|].
    assert (Hyx : f y = f x) by now inversion Hy.
    split; [|exact Hyx].
    eapply Forall_impl; [|exact Hy]. cbn beta. intros b Hb. congruence.
  - intros (Hx & Hy & Hyx). split; [exact Hx|].
    eapply Forall_impl; [|exact Hy]. cbn beta. intros b Hb. congruence.
Qed.

(** Merging in two stages: some of the data sets first, the others
    next, and then the two results, yields what merging all of them at
    once yields, and fails where that fails. *)
Theorem merge_in_stages
    (xs ys : list array2) (axis : Z) (merged : array2) :
  xs <> [] -> ys <> [] ->
  (merge (xs ++ ys) axis = done merged <->
   exists a b, merge xs axis = done a /\ merge ys axis = done b /\
               merge [a; b] axis = done merged).
Proof.
  intros Hxs Hys.
  destruct xs as [|x xs]; [easy|]. destruct ys as [|y ys]; [easy|].
  setoid_rewrite merge_done. unfold concatenate.
  cbn [app].
  destruct ((axis =? 0) || (axis =? -2)) eqn:H0.
  - setoid_rewrite lift_done. setoid_rewrite concatenate_axis0_ret. split.
    + intros (b0 & rest & [= <- <-] & Hall & ->).
      change (x :: xs ++ y :: ys)%list with ((x :: xs) ++ y :: ys)%list
        in Hall |- *.
      apply (Forall_eq_head ncols) in Hall as (Hx & Hy & Hyx).
      exists {| ncols := ncols x; rows := List.concat (map rows (x :: xs)) |},
             {| ncols := ncols y; rows := List.concat (map rows (y :: ys)) |}.
      split; [now exists x, xs|]. split; [now exists y, ys|].
      eexists _, _. split; [reflexivity|]. cbn [ncols rows]. split.
      * repeat constructor. exact Hyx.
      * cbn [map List.concat]. now rewrite map_app, concat_app, app_nil_r.
    + intros (a & b & (x' & xs' & [= <- <-] & Hx & ->)
                     & (y' & ys' & [= <- <-] & Hy & ->)
                     & (a' & r' & [= <- <-] & Hab & ->)).
      cbn [ncols rows] in *.
      assert (Hyx : ncols y = ncols x).
      { inversion Hab as [|? ? _ Hb]. now inversion Hb. }
      exists x, (xs ++ y :: ys)%list. split; [reflexivity|]. split.
      * change (x :: xs ++ y :: ys)%list with ((x :: xs) ++ y :: ys)%list.
        now apply (Forall_eq_head ncols).
      * change (x :: xs ++ y :: ys)%list with ((x :: xs) ++ y :: ys)%list.
        rewrite map_app, concat_app. f_equal.
        cbn [map List.concat]. now rewrite app_nil_r.
  - destruct ((axis =? 1) || (axis =? -1)) eqn:H1.
    + setoid_rewrite lift_done. setoid_rewrite concatenate_columns_ret.
      split.
      * intros (b0 & rest & [= <- <-] & Hall & ->).
        change (x :: xs ++ y :: ys)%list with ((x :: xs) ++ y :: ys)%list
          in Hall |- *.
        apply (Forall_eq_head (fun b => List.length (rows b))) in Hall
          as (Hx & Hy & Hyx).
        eexists _, _.
        split; [exists x, xs; split; [reflexivity|]; split;
                [exact Hx | reflexivity]|].
        split; [exists y, ys; split; [reflexivity|]; split;
                [exact Hy | reflexivity]|].
        eexists _, _. split; [reflexivity|]. cbn [ncols rows]. split.
        -- repeat constructor.
           cbn [rows]. rewrite !length_map, !length_seq. exact Hyx.
        -- rewrite length_map, length_seq. f_equal.
           ++ cbn [map list_sum ncols]. rewrite map_app, list_sum_app.
              cbn [map]. unfold list_sum. cbn [fold_right]. lia.
           ++ apply map_ext_in. intros i Hi. apply in_seq in Hi.
              unfold joined_row at 2. cbn [map List.concat rows].
              rewrite nth_map_seq by lia.
              rewrite nth_map_seq by lia.
              unfold joined_row. now rewrite map_app, concat_app, app_nil_r.
      * intros (a & b & (x' & xs' & [= <- <-] & Hx & ->)
                       & (y' & ys' & [= <- <-] & Hy & ->)
                       & (a' & r' & [= <- <-] & Hab & ->)).
        cbn [ncols rows] in *.
        assert (Hyx : List.length (rows y) = List.length (rows x)).
        { inversion Hab as [|? ? _ Hb]. inversion Hb as [|? ? Hb' _].
          cbn [rows] in Hb'.
          now rewrite !length_map, !length_seq in Hb'. }
        exists x, (xs ++ y :: ys)%list. split; [reflexivity|]. split.
        -- change (x :: xs ++ y :: ys)%list with ((x :: xs) ++ y :: ys)%list.
           now apply (Forall_eq_head (fun b => List.length (rows b))).
        -- rewrite length_map, length_seq.
           change (x :: xs ++ y :: ys)%list with ((x :: xs) ++ y :: ys)%list.
           f_equal.
           ++ cbn [map list_sum ncols]. rewrite map_app, list_sum_app.
              cbn [map]. unfold list_sum. cbn [fold_right]. lia.
           ++ apply map_ext_in. intros i Hi. apply in_seq in Hi.
              unfold joined_row at 1. cbn [map List.concat rows].
              rewrite nth_map_seq by lia.
              rewrite nth_map_seq by lia.
              unfold joined_row. now rewrite map_app, concat_app, app_nil_r.
    + split; [discriminate|].
      intros (a & b & H & _). discriminate H.
Qed.

Lemma merge_in_stages_witness :
  merge ([ {| ncols := 2; rows := [[1; 2]; [3; 4]]%float |} ]
         ++ [ {| ncols := 2; rows := [[5; 6]]%float |} ]) 0
  = done {| ncols := 2; rows := [[1; 2]; [3; 4]; [5; 6]]%float |} <->
  exists a b,
    merge [ {| ncols := 2; rows := [[1; 2]; [3; 4]]%float |} ] 0 = done a /\
    merge [ {| ncols := 2; rows := [[5; 6]]%float |} ] 0 = done b /\
    merge [a; b] 0
    = done {| ncols := 2; rows := [[1; 2]; [3; 4]; [5; 6]]%float |}.
Proof.
  apply (@merger_facts.merge_in_stages
           [ {| ncols := 2; rows := [[1; 2]; [3; 4]]%float |} ]
           [ {| ncols := 2; rows := [[5; 6]]%float |} ] 0%Z
           {| ncols := 2; rows := [[1; 2]; [3; 4]; [5; 6]]%float |});
    discriminate.
Defined.

End merger_facts.

(* ================================================================== *)
(** * The layers of a multi-layer perceptron                         *)
(* ================================================================== *)

Module model_facts.

Import PyExc PyNum model coverage_props.
Local Open Scope Z_scope.

Lemma chain_nonempty (a b : Z) (rest : list Z) : chain a (b :: rest) <> [].
Proof. cbn [chain]. now destruct rest. Qed.

Lemma subscript_middle (pre : list Z) (a : Z) (rest : list Z) :
  subscript (pre ++ a :: rest) (Z.of_nat (List.length pre)) = ret a.
Proof.
  apply shuffle_facts.subscript_nat.
  rewrite nth_error_app2, Nat.sub_diag by lia. reflexivity.
Qed.

(** The turns of the loop over [a :: b :: rest], the sizes behind
    [pre]. *)
Lemma hidden_layers_chain (rest : list Z) :
  forall (pre : list Z) (a b : Z) (acc : list layer),
    Forall (fun z => 0 <= z) (a :: b :: rest) ->
    hidden_layers (pre ++ a :: b :: rest) (List.length pre)
                  (List.length rest) acc
    = done (acc ++ removelast (chain a (b :: rest))).
Proof.
  induction rest as [|c rest IH]; intros pre a b acc Hpos.
  - cbn [List.length hidden_layers chain removelast].
    now rewrite app_nil_r.
  - cbn [List.length hidden_layers].
    rewrite subscript_middle. cbn [lift and_then ret].
    replace (Z.of_nat (List.length pre) + 1)
      with (Z.of_nat (List.length (pre ++ [a])))
      by (rewrite length_app; cbn [List.length]; lia).
    replace (pre ++ a :: b :: c :: rest)%list
      with ((pre ++ [a]) ++ b :: c :: rest)%list
      by now rewrite <- app_assoc.
    rewrite subscript_middle. cbn [lift and_then ret].
    unfold nn_Linear.
    assert (Ha : (a <? 0) = false)
      by (apply Z.ltb_ge; now inversion Hpos).
    assert (Hb : (b <? 0) = false).
    { apply Z.ltb_ge. inversion Hpos as [|? ? _ H]. now inversion H. }
    rewrite Ha, Hb. cbn [orb and_then done].
    replace (S (List.length pre)) with (List.length (pre ++ [a]))
      by (rewrite length_app; cbn [List.length]; lia).
    rewrite (IH (pre ++ [a])%list b c) by now inversion Hpos.
    f_equal. rewrite <- app_assoc. f_equal.
    change (chain a (b :: c :: rest))
      with (Linear a b :: Activation :: chain b (c :: rest)).
    cbn [app removelast].
    destruct (chain b (c :: rest)) eqn:Hc; [|reflexivity].
    now apply chain_nonempty in Hc.
Qed.

(** The last layer of the chain joins the last two sizes. *)
Lemma chain_last (rest : list Z) : forall (a b : Z) (d : layer),
  exists i o,
    subscript (a :: b :: rest) (-2) = ret i /\
    subscript (a :: b :: rest) (-1) = ret o /\
    last (chain a (b :: rest)) d = Linear i o.
Proof.
  induction rest as [|c rest IH]; intros a b d.
  - exists a, b. now repeat split.
  - destruct (IH b c d) as (i & o & Hi & Ho & Hl).
    exists i, o.
    assert (Hshift : forall k x,
              k < 0 -> - Z.of_nat (List.length (b :: c :: rest)) <= k ->
              subscript (b :: c :: rest) k = ret x ->
              subscript (a :: b :: c :: rest) k = ret x).
    { intros k x Hk Hlow. unfold subscript.
      destruct (k <? 0) eqn:Hneg; [|apply Z.ltb_ge in Hneg; lia].
      set (n := List.length (b :: c :: rest)).
      replace (Z.of_nat (List.length (a :: b :: c :: rest)))
        with (Z.of_nat n + 1) by (subst n; cbn [List.length]; lia).
      destruct (k + Z.of_nat n <? 0) eqn:H1;
        [apply Z.ltb_lt in H1; lia|].
      destruct (k + (Z.of_nat n + 1) <? 0) eqn:H2;
        [apply Z.ltb_lt in H2; lia|].
      replace (Z.to_nat (k + (Z.of_nat n + 1)))
        with (S (Z.to_nat (k + Z.of_nat n))) by lia.
      cbn [nth_error]. auto. }
    split; [apply Hshift; [lia | cbn [List.length]; lia | exact Hi]|].
    split; [apply Hshift; [lia | cbn [List.length]; lia | exact Ho]|].
    change (chain a (b :: c :: rest))
      with (Linear a b :: Activation :: chain b (c :: rest)).
    cbn [last]. destruct (chain b (c :: rest)) eqn:Hc; [|exact Hl].
    now apply chain_nonempty in Hc.
Qed.

(** [MLPModel(layers)] for sizes that are not negative: with two sizes
    or more the layers are the linear layers over the consecutive sizes,
    as many as there are sizes less one, the activation between two of
    them and none behind the last; with fewer than two sizes the
    constructor raises [IndexError]. *)
Theorem mlp_layers_chain_the_sizes (layers : list Z) :
  Forall (fun z => 0 <= z) layers ->
  match layers with
  | a :: b :: rest => __init__ layers = done (chain a (b :: rest))
  | _ => __init__ layers = throw (Builtin (IndexError "index out of bounds"))
  end.
Proof.
  intros Hpos. destruct layers as [|a [|b rest]]; [reflexivity | reflexivity|].
  unfold __init__.
  replace (Z.to_nat (Z.of_nat (List.length (a :: b :: rest)) - 2))
    with (List.length rest) by (cbn [List.length]; lia).
  pose proof (@hidden_layers_chain rest [] a b [] Hpos) as Hh.
  cbn [app List.length] in Hh. rewrite Hh. cbn [and_then app done].
  destruct (chain_last rest a b Activation) as (i & o & Hi & Ho & Hl).
  rewrite Hi, Ho. cbn [lift and_then ret].
  assert (Hin : In (Linear i o) (chain a (b :: rest))).
  { rewrite <- Hl.
    rewrite (app_removelast_last Activation (chain_nonempty a b rest)) at 2.
    apply in_or_app. right. now left. }
  assert (Hsizes : forall l x, Forall (fun z => 0 <= z) (x :: l) ->
            In (Linear i o) (chain x l) -> 0 <= i /\ 0 <= o).
  { clear. induction l as [|y l IH]; intros x H Hin; [contradiction|].
    cbn [chain] in Hin. inversion H as [|? ? Hx H']. subst.
    inversion H' as [|? ? Hy _]. subst.
    destruct l as [|z l].
    - destruct Hin as [[= <- <-]|[]]. now split.
    - destruct Hin as [[= <- <-]|[Hin|Hin]]; [now split | discriminate|].
      now apply (IH y). }
  destruct (Hsizes _ _ Hpos Hin) as [Hi0 Ho0].
  unfold nn_Linear.
  assert (Hi' : (i <? 0) = false) by now apply Z.ltb_ge.
  assert (Ho' : (o <? 0) = false) by now apply Z.ltb_ge.
  rewrite Hi', Ho'. cbn [orb and_then done]. f_equal.
  rewrite <- Hl. symmetry. apply app_removelast_last, chain_nonempty.
Qed.

Lemma mlp_layers_chain_the_sizes_witness :
  model.__init__ [4; 16; 16; 1]%Z
  = done [Linear 4 16; Activation; Linear 16 16; Activation; Linear 16 1].
Proof.
  apply (@model_facts.mlp_layers_chain_the_sizes [4; 16; 16; 1]%Z).
  repeat constructor; discriminate.
Defined.

End model_facts.

(* ================================================================== *)
(** * The project root                                               *)
(* ================================================================== *)

Module project_root_facts.

Import project_root coverage_props.
Local Open Scope string_scope.

Section FileSystem.

Variable exists_ : path -> bool.

(** The search over the prefixes of [p] of the lengths [n], [n-1],
    down to [0]. *)
Lemma search_prefixes (p : path) (parts : list string) (n : nat) :
  forall k,
    k <= n ->
    is_root exists_ (firstn k p) = true ->
    (forall m, k < m <= n -> is_root exists_ (firstn m p) = false) ->
    search exists_ (map (fun i => firstn i p) (rev (seq 0 (S n)))) parts
    = ret (joinpath (firstn k p) parts).
Proof.
  induction n as [|n IH]; intros k Hk Hroot Hnone.
  - assert (k = 0) by lia. subst k.
    cbn [seq rev app map search]. fold (is_root exists_ (firstn 0 p)).
    now rewrite Hroot.
  - rewrite seq_S, rev_app_distr. cbn [rev app map search Nat.add].
    fold (is_root exists_ (firstn (S n) p)).
    destruct (Nat.eq_dec k (S n)) as [->|Hne].
    + now rewrite Hroot.
    + rewrite Hnone by lia. apply IH; [lia | exact Hroot|].
      intros m Hm. apply Hnone. lia.
Qed.

Lemma search_none (p : path) (parts : list string) (n : nat) :
  (forall m, m <= n -> is_root exists_ (firstn m p) = false) ->
  search exists_ (map (fun i => firstn i p) (rev (seq 0 (S n)))) parts
  = raise (FileNotFoundError not_located).
Proof.
  induction n as [|n IH]; intros Hnone.
  - cbn [seq rev app map search]. fold (is_root exists_ (firstn 0 p)).
    now rewrite Hnone.
  - rewrite seq_S, rev_app_distr. cbn [rev app map search Nat.add].
    fold (is_root exists_ (firstn (S n) p)).
    rewrite Hnone by lia. apply IH. intros m Hm. apply Hnone. lia.
Qed.

Lemma candidates_prefixes (p : path) :
  p :: parents p
  = map (fun i => firstn i p) (rev (seq 0 (S (List.length p)))).
Proof.
  unfold parents. rewrite seq_S, rev_app_distr.
  cbn [rev app map Nat.add]. now rewrite firstn_all.
Qed.

(** [get_path_from_root] answers below the nearest directory that
    holds [config] and [mechanisms], among the path of the module and
    the directories above it; where none of them holds both it raises
    [FileNotFoundError]. *)
Theorem get_path_from_nearest_root
    (current_path : path) (parts : list string) :
  (forall k,
     k <= List.length current_path ->
     is_root exists_ (firstn k current_path) = true ->
     (forall m, k < m <= List.length current_path ->
                is_root exists_ (firstn m current_path) = false) ->
     get_path_from_root exists_ current_path parts
     = ret (firstn k current_path ++ parts)%list) /\
  ((forall m, m <= List.length current_path ->
              is_root exists_ (firstn m current_path) = false) ->
   get_path_from_root exists_ current_path parts
   = raise (FileNotFoundError not_located)).
Proof.
  unfold get_path_from_root. rewrite candidates_prefixes. split.
  - intros k Hk Hroot Hnone. now apply search_prefixes.
  - apply search_none.
Qed.

End FileSystem.

End project_root_facts.
